(** * A shallow embedding of kelp's order-generation and reconciliation core

    Definitions come first (one module per source component), the facts
    about them follow.  Go's [float64] arithmetic is modelled by exact
    rationals [Q]; strings stay strings; Go slices are lists indexed with
    stdpp's [!!]; a Go [map[K]bool] used as a set is a [gset]; results
    that may fail carry an explicit [result]. *)

From Stdlib Require Import QArith Qround Qpower Qabs Lqa ZArith String List Lia.
From stdpp Require Import base list gmap sets relations strings.

Open Scope string_scope.

(** A Go pair [(value, error)]: either a value or an error message. *)
Inductive result (A : Type) : Type :=
| Ok (a : A)
| Err (e : string).
Arguments Ok {A} a.
Arguments Err {A} e.

(** ------------------------------------------------------------------ *)
(** ** Horizon offers and txnbuild operations *)

Module Horizon.
(** [hProtocol.Offer]: a live order resting on the venue. *)
Record Offer := mkOffer {
  ID : Z;
  Seller : string;
  Selling : string;
  Buying : string;
  Amount : string;
  Price : string;
  PriceN : Z;   (** [PriceR.N] *)
  PriceD : Z    (** [PriceR.D] *)
}.
End Horizon.

Module Txnbuild.
(** [txnbuild.ManageSellOffer]; an [Amount] of ["0"] deletes the offer. *)
Record ManageSellOffer := mkMSO {
  Selling : string;
  Buying : string;
  Amount : string;
  Price : string;
  OfferID : Z;
  SourceAccount : option string
}.

(** [txnbuild.Operation]: a ManageSellOffer, or any other operation
    kind, which the filter passes through untouched. *)
Inductive Operation :=
| ManageSellOfferOp (m : ManageSellOffer)
| OtherOp (n : nat).
End Txnbuild.

(** ------------------------------------------------------------------ *)
(** ** plugins/submitFilter.go *)

Module SubmitFilter.
Import Txnbuild.

(** The library calls [filterOps] makes: [utils.IsSelling(base, quote,
    selling, buying)] and [strconv.ParseFloat(s, 64)]. *)
Record FilterEnv := mkFilterEnv {
  IsSelling : string -> string -> string -> string -> result bool;
  ParseFloat : string -> option Q
}.

(** [filterFn]: returns [(newOp, keep)], [newOp = None] being Go's nil. *)
Definition filterFn := ManageSellOffer -> result (option ManageSellOffer * bool).

(** The loop state of [filterOps]: the [idx] fields of [opCounter],
    [sellCounter] and [buyCounter], and [filteredOps].  The other fields
    of a [filterCounter] only feed the log lines. *)
Record LoopState := mkLoopState {
  opIdx : nat;
  sellIdx : nat;
  buyIdx : nat;
  filteredOps : list Operation
}.

(** Which [filterCounter] [selectOpOrOffer] hands back. *)
Inductive counterSel := CounterOp | CounterOffer.

Definition ignoreOfferIDs (ops : list Operation) : gset Z :=
  fold_left (fun acc op =>
    match op with
    | ManageSellOfferOp o => {[ OfferID o ]} ∪ acc
    | OtherOp _ => acc
    end) ops ∅.

Definition convertOffer2MSO (offer : Horizon.Offer) : ManageSellOffer :=
  {| Selling := Horizon.Selling offer;
     Buying := Horizon.Buying offer;
     Amount := Horizon.Amount offer;
     Price := Horizon.Price offer;
     OfferID := Horizon.ID offer;
     SourceAccount := Some (Horizon.Seller offer) |}.

(** [convertOffer2MSO] followed by [dropOp.Amount = "0"]. *)
Definition dropOp (offer : Horizon.Offer) : ManageSellOffer :=
  let m := convertOffer2MSO offer in
  {| Selling := Selling m; Buying := Buying m; Amount := "0";
     Price := Price m; OfferID := OfferID m;
     SourceAccount := SourceAccount m |}.

(** [float64(PriceR.N) / float64(PriceR.D)] *)
Definition offerPrice (offer : Horizon.Offer) : Q :=
  inject_Z (Horizon.PriceN offer) / inject_Z (Horizon.PriceD offer).

Definition selectBuySellList (env : FilterEnv) (baseAsset quoteAsset : string)
    (mso : ManageSellOffer) : result bool :=
  match IsSelling env baseAsset quoteAsset (Selling mso) (Buying mso) with
  | Err e => Err ("could not check whether the ManageSellOffer was selling or buying: " ++ e)
  | Ok isSellOp => Ok isSellOp
  end.

(** Returns [(opToTransform, originalOfferAsOp, counter, isIgnoredOffer)]. *)
Definition selectOpOrOffer (env : FilterEnv) (offerList : list Horizon.Offer)
    (offerIdx : nat) (mso : ManageSellOffer) (ignoreOfferIds : gset Z)
    : result (option ManageSellOffer * option ManageSellOffer * counterSel * bool) :=
  match offerList !! offerIdx with
  | None => Ok (Some mso, None, CounterOp, false)
  | Some existingOffer =>
      if decide (Horizon.ID existingOffer ∈ ignoreOfferIds)
      then Ok (None, None, CounterOffer, true)
      else
        let offerPrice := offerPrice existingOffer in
        match ParseFloat env (Price mso) with
        | None => Err "could not parse price as float64"
        | Some opPrice =>
            match Qcompare opPrice offerPrice with
            | Lt => Ok (Some mso, None, CounterOp, false)
            | _ =>
                let offerAsOp := convertOffer2MSO existingOffer in
                Ok (Some offerAsOp, Some offerAsOp, CounterOffer, false)
            end
        end
  end.

(** [filterCounterToIncrement.idx++] *)
Definition incrementIdx (st : LoopState) (c : counterSel) (isSellOp : bool) : LoopState :=
  match c with
  | CounterOp => mkLoopState (S (opIdx st)) (sellIdx st) (buyIdx st) (filteredOps st)
  | CounterOffer =>
      if isSellOp
      then mkLoopState (opIdx st) (S (sellIdx st)) (buyIdx st) (filteredOps st)
      else mkLoopState (opIdx st) (sellIdx st) (S (buyIdx st)) (filteredOps st)
  end.

Definition appendOp (st : LoopState) (op : Operation) : LoopState :=
  mkLoopState (opIdx st) (sellIdx st) (buyIdx st) (filteredOps st ++ [op]).

(** [filteredOps = append([]txnbuild.Operation{op}, filteredOps...)] *)
Definition prependOp (st : LoopState) (op : Operation) : LoopState :=
  mkLoopState (opIdx st) (sellIdx st) (buyIdx st) (op :: filteredOps st).

(** One iteration of the [for opCounter.idx < len(ops)] loop on [op = ops[opCounter.idx]]. *)
Definition filterStep (env : FilterEnv) (baseAsset quoteAsset : string)
    (sellingOffers buyingOffers : list Horizon.Offer) (ignoreOfferIds : gset Z)
    (fn : filterFn) (st : LoopState) (op : Operation) : result LoopState :=
  match op with
  | OtherOp _ =>
      Ok (mkLoopState (S (opIdx st)) (sellIdx st) (buyIdx st) (filteredOps st ++ [op]))
  | ManageSellOfferOp o =>
      match selectBuySellList env baseAsset quoteAsset o with
      | Err e => Err ("unable to pick between whether the op was a buy or sell op: " ++ e)
      | Ok isSellOp =>
          let offerList := if isSellOp then sellingOffers else buyingOffers in
          let offerIdx := if isSellOp then sellIdx st else buyIdx st in
          match selectOpOrOffer env offerList offerIdx o ignoreOfferIds with
          | Err e => Err ("error while picking op or offer: " ++ e)
          | Ok (opToTransform, originalOffer, c, isIgnoredOffer) =>
              let st := incrementIdx st c isSellOp in
              if isIgnoredOffer then Ok st else
              match opToTransform with
              | None => Err "nil dereference" (* unreachable: only an ignored offer comes back nil *)
              | Some opToTransform =>
                  let transformed :=
                    (* delete operations should never be dropped *)
                    if String.eqb (Amount opToTransform) "0"
                    then Ok (Some opToTransform, true)
                    else match fn opToTransform with
                         | Err e => Err ("could not transform offer (pointer case): " ++ e)
                         | Ok r => Ok r
                         end in
                  match transformed with
                  | Err e => Err e
                  | Ok (newOp, keep) =>
                      if keep then
                        match newOp with
                        | None => Err "we want to keep op but newOp was nil (programmer error?)"
                        | Some n =>
                            match originalOffer with
                            | Some oo =>
                                if String.eqb (Price oo) (Price n) && String.eqb (Amount oo) (Amount n)
                                then Ok st
                                else Ok (appendOp st (ManageSellOfferOp n))
                            | None => Ok (appendOp st (ManageSellOfferOp n))
                            end
                        end
                      else
                        match newOp with
                        | Some n => Ok (prependOp st (ManageSellOfferOp n))
                        | None => Ok st
                        end
                  end
              end
          end
      end
  end.

(** The [for] loop; [fuel] bounds the number of iterations (each one
    advances one of the three indices, see [filterOps_fuel_enough]). *)
Fixpoint filterLoop (env : FilterEnv) (baseAsset quoteAsset : string)
    (sellingOffers buyingOffers : list Horizon.Offer) (ops : list Operation)
    (ignoreOfferIds : gset Z) (fn : filterFn) (fuel : nat) (st : LoopState)
    : result LoopState :=
  match ops !! opIdx st with
  | None => Ok st
  | Some op =>
      match fuel with
      | O => Err "loop bound exceeded"
      | S fuel' =>
          match filterStep env baseAsset quoteAsset sellingOffers buyingOffers
                  ignoreOfferIds fn st op with
          | Err e => Err e
          | Ok st' => filterLoop env baseAsset quoteAsset sellingOffers buyingOffers
                        ops ignoreOfferIds fn fuel' st'
          end
      end
  end.

(** [for counter.idx < len(offers) { filteredOps = append([]{dropOp}, filteredOps...) }]
    over the offers from [counter.idx] on. *)
Fixpoint prependDeletes (offers : list Horizon.Offer) (acc : list Operation) : list Operation :=
  match offers with
  | [] => acc
  | o :: rest => prependDeletes rest (ManageSellOfferOp (dropOp o) :: acc)
  end.

Definition filterOps (env : FilterEnv) (filterName baseAsset quoteAsset : string)
    (sellingOffers buyingOffers : list Horizon.Offer) (ops : list Operation)
    (fn : filterFn) : result (list Operation) :=
  let ignoreOfferIds := ignoreOfferIDs ops in
  match filterLoop env baseAsset quoteAsset sellingOffers buyingOffers ops
          ignoreOfferIds fn (length ops + length sellingOffers + length buyingOffers)
          (mkLoopState 0 0 0 []) with
  | Err e => Err e
  | Ok st =>
      let afterSells := prependDeletes (drop (sellIdx st) sellingOffers) (filteredOps st) in
      Ok (prependDeletes (drop (buyIdx st) buyingOffers) afterSells)
  end.
End SubmitFilter.

(** ------------------------------------------------------------------ *)
(** ** api.Level, model.Number and the rate offset *)

Module Levels.
Local Open Scope Q_scope.
(** [api.Level]; a [model.Number] is represented by its value. *)
Record Level := mkLevel { Price : Q; Amount : Q }.

Record OrderConstraints := mkOrderConstraints {
  PricePrecision : Z;
  VolumePrecision : Z
}.

(** Modelled from the spec: [model.NumberFromFloat] (the [model] package
    is not among the sources).  The spec requires every price and amount
    to be quantized to the venue precision; the value is rounded to
    [precision] decimal places, halves away from zero. *)
Definition NumberFromFloat (f : Q) (precision : Z) : Q :=
  let scale := inject_Z (10 ^ precision) in
  let x := f * scale in
  let r := if Qle_bool 0 x then Qfloor (x + (1 # 2)) else (- Qfloor (- x + (1 # 2)))%Z in
  inject_Z r / scale.

(** Go's [<] on float64 values. *)
Definition Qlt_bool (x y : Q) : bool := negb (Qle_bool y x).

(** [rateOffset] *)
Record rateOffset := mkRateOffset {
  percent : Q;
  absolute : Q;
  percentFirst : bool;
  invert : bool
}.

(** The offset applied inline by [staticSpreadLevelProvider.GetLevels]. *)
Definition adjustCenterPrice (offset : rateOffset) (centerPrice : Q) : Q :=
  if negb (Qeq_bool (percent offset) 0) || negb (Qeq_bool (absolute offset) 0) then
    (* if inverted, we want to invert before we compute the adjusted price, and then invert back *)
    let centerPrice := if invert offset then 1 / centerPrice else centerPrice in
    let scaleFactor := 1 + percent offset in
    let centerPrice :=
      if percentFirst offset
      then (centerPrice * scaleFactor) + absolute offset
      else (centerPrice + absolute offset) * scaleFactor in
    if invert offset then 1 / centerPrice else centerPrice
  else centerPrice.

(** Modelled from the spec: [rateOffset.apply] (not among the sources),
    "an optional rate offset (additive and/or multiplicative, order
    configurable) is applied", computed as the static-spread provider
    does it inline; the flag tells whether an offset was configured. *)
Definition rateOffset_apply (offset : rateOffset) (price : Q) : Q * bool :=
  (adjustCenterPrice offset price,
   negb (Qeq_bool (percent offset) 0) || negb (Qeq_bool (absolute offset) 0)).
End Levels.

(** ------------------------------------------------------------------ *)
(** ** plugins/staticSpreadLevelProvider.go *)

Module StaticSpread.
Import Levels.
Local Open Scope Q_scope.

(** [maxSellLimitsTolerancePct = 0.001] *)
Definition maxSellLimitsTolerancePct : Q := 1 # 1000.

Record staticLevel := mkStaticLevel { SPREAD : Q; AMOUNT : Q }.

Record MaxDailySell := mkMaxDailySell { amount : Q; assetType : string }.

(** The trades database: [QueryRow(sqlSelectSumSold, date, base, quote,
    action).Scan(&sum_base, &sum_quote)], a NULL sum being [None]. *)
Record TradesDB := mkTradesDB {
  QueryRowSumSold : string -> string -> string -> string -> result (option Q * option Q)
}.

Record staticSpreadLevelProvider := mkStaticSpreadLevelProvider {
  staticLevels : list staticLevel;
  amountOfBase : Q;
  offset : rateOffset;
  orderConstraints : OrderConstraints;
  tradesDB : option TradesDB;   (** [None] is a nil [*sql.DB] *)
  baseAsset : string;
  quoteAsset : string;
  maxDailySell : MaxDailySell;
  minSellPrice : Q
}.

Record maxSold := mkMaxSold { sumBaseSold : Q; sumQuoteCost : Q }.

Definition nullFloat (v : option Q) : Q :=
  match v with Some f => f | None => 0 end.

Definition maxSoldToday (p : staticSpreadLevelProvider) (db : TradesDB) (dateUTC : string)
    : result maxSold :=
  match QueryRowSumSold db dateUTC (baseAsset p) (quoteAsset p) "sell" with
  | Err e => Err ("could not read data from first sqlSelectSumSold query: " ++ e)
  | Ok (sumBase1, sumQuote1) =>
      match QueryRowSumSold db dateUTC (quoteAsset p) (baseAsset p) "buy" with
      | Err e => Err ("could not read data from second sqlSelectSumSold query: " ++ e)
      | Ok (sumBase2Inverted, sumQuote2Inverted) =>
          Ok (mkMaxSold (0 + nullFloat sumBase1 + nullFloat sumQuote2Inverted)
                        (0 + nullFloat sumQuote1 + nullFloat sumBase2Inverted))
      end
  end.

Definition capSellAmountUsingBaseConstraint (maxAssetBase maxSellAmountRemainingBaseOrQuote
    baseAmountSoFar desiredAmountBase price : Q) : Q :=
  let currentMaxSellAmountRemaining := maxSellAmountRemainingBaseOrQuote - baseAmountSoFar in
  if Qle_bool desiredAmountBase currentMaxSellAmountRemaining
  then desiredAmountBase
  else currentMaxSellAmountRemaining.

Definition capSellAmountUsingQuoteConstraint (maxAssetBase maxSellAmountRemainingBaseOrQuote
    baseAmountSoFar desiredAmountBase price : Q) : Q :=
  let quoteAmountSoFar := baseAmountSoFar * price in
  let desiredAmountQuote := desiredAmountBase * price in
  let currentMaxSellAmountRemaining := maxSellAmountRemainingBaseOrQuote - quoteAmountSoFar in
  if Qle_bool desiredAmountQuote currentMaxSellAmountRemaining
  then desiredAmountBase
  else currentMaxSellAmountRemaining / price.

(** [capAmountFn(maxAssetBase, baseAmountSoFar, desiredAmountBase, price)] *)
Definition capFn := Q -> Q -> Q -> Q -> Q.

Definition noCap : capFn := fun _ _ desiredAmountBase _ => desiredAmountBase.

(** The price of a static level around [centerPrice]. *)
Definition levelPrice (p : staticSpreadLevelProvider) (centerPrice : Q) (sl : staticLevel) : Q :=
  let absoluteSpread := centerPrice * SPREAD sl in
  NumberFromFloat (centerPrice + absoluteSpread) (PricePrecision (orderConstraints p)).

(** [sl.AMOUNT * p.amountOfBase] at volume precision, before capping. *)
Definition levelAmount (p : staticSpreadLevelProvider) (sl : staticLevel) : Q :=
  NumberFromFloat (AMOUNT sl * amountOfBase p) (VolumePrecision (orderConstraints p)).

(** [for _, sl := range p.staticLevels { ... }]; returns the levels,
    [baseAmountSoFar] and whether the loop left through its [break]. *)
Fixpoint levelsLoop (p : staticSpreadLevelProvider) (centerPrice : Q) (capAmountFn : capFn)
    (maxAssetBase : Q) (sls : list staticLevel) (levels : list Level) (baseAmountSoFar : Q)
    : list Level * Q * bool :=
  match sls with
  | [] => (levels, baseAmountSoFar, false)
  | sl :: rest =>
      let price := levelPrice p centerPrice sl in
      if Qlt_bool 0 (minSellPrice p) && Qlt_bool price (minSellPrice p) then
        levelsLoop p centerPrice capAmountFn maxAssetBase rest levels baseAmountSoFar
      else
        let amount := levelAmount p sl in
        let amountCapped := capAmountFn maxAssetBase baseAmountSoFar amount price in
        if Qle_bool amountCapped 0 then (levels, baseAmountSoFar, true)
        else
          let amountCappedNumber := NumberFromFloat amountCapped (VolumePrecision (orderConstraints p)) in
          levelsLoop p centerPrice capAmountFn maxAssetBase rest
            (levels ++ [mkLevel price amountCappedNumber])
            (baseAmountSoFar + amountCappedNumber)
  end.

(** The cap check: [Ok None] when a daily threshold is crossed (return
    zero levels), [Ok (Some f)] with the [capAmountFn] to use otherwise. *)
Definition selectCapAmountFn (p : staticSpreadLevelProvider) (dateString : string)
    : result (option capFn) :=
  match tradesDB p with
  | None => Ok (Some noCap)
  | Some db =>
      if String.eqb (assetType (maxDailySell p)) "" then Ok (Some noCap) else
      match maxSoldToday p db dateString with
      | Err e => Err ("could not load max sold amounts for today (" ++ dateString ++ "): " ++ e)
      | Ok mSold =>
          let mds := maxDailySell p in
          if String.eqb (assetType mds) "base"
             && Qle_bool (amount mds * (1 - maxSellLimitsTolerancePct)) (sumBaseSold mSold)
          then Ok None
          else if String.eqb (assetType mds) "quote"
             && Qle_bool (amount mds * (1 - maxSellLimitsTolerancePct)) (sumQuoteCost mSold)
          then Ok None
          else if negb (String.eqb (assetType mds) "quote") && negb (String.eqb (assetType mds) "base")
          then Err ("staticSpreadLevelProvider has invalid value for maxDailySell.assetType (" ++ assetType mds ++ ")")
          else if String.eqb (assetType mds) "base"
          then Ok (Some (fun maxAssetBase baseAmountSoFar desiredAmountBase price =>
                 capSellAmountUsingBaseConstraint maxAssetBase (amount mds - sumBaseSold mSold)
                   baseAmountSoFar desiredAmountBase price))
          else Ok (Some (fun maxAssetBase baseAmountSoFar desiredAmountBase price =>
                 capSellAmountUsingQuoteConstraint maxAssetBase (amount mds - sumQuoteCost mSold)
                   baseAmountSoFar desiredAmountBase price))
      end
  end.

(** [GetLevels]; [centerPriceFeed] is the answer of [p.pf.GetCenterPrice()]
    and [dateString] today's UTC date. *)
Definition GetLevels (p : staticSpreadLevelProvider) (centerPriceFeed : result Q)
    (dateString : string) (maxAssetBase maxAssetQuote : Q) : result (list Level) :=
  match centerPriceFeed with
  | Err e => Err e
  | Ok centerPrice =>
      match selectCapAmountFn p dateString with
      | Err e => Err e
      | Ok None => Ok []
      | Ok (Some capAmountFn) =>
          let centerPrice := adjustCenterPrice (offset p) centerPrice in
          let '(levels, _, _) :=
            levelsLoop p centerPrice capAmountFn maxAssetBase (staticLevels p) [] 0 in
          Ok levels
      end
  end.
End StaticSpread.

(** ------------------------------------------------------------------ *)
(** ** plugins/sellTwapLevelProvider.go *)

(** Go's [float64] values: a number, [NaN] or an infinity.  Numbers are
    exact rationals, as everywhere in this development (rounding is not
    modelled); NaN and the infinities follow IEEE 754.  Zeros carry no
    sign: a zero divisor is taken as [+0], which is what the TWAP code
    divides by whenever it divides by zero (a difference [x - x], or a
    converted integer). *)
Module F64.
Local Open Scope Q_scope.

Inductive f64 := Fin (q : Q) | NaN | PosInf | NegInf.

Definition fneg (x : f64) : f64 :=
  match x with Fin a => Fin (- a) | NaN => NaN | PosInf => NegInf | NegInf => PosInf end.

Definition fadd (x y : f64) : f64 :=
  match x, y with
  | Fin a, Fin b => Fin (a + b)
  | NaN, _ | _, NaN => NaN
  | PosInf, NegInf | NegInf, PosInf => NaN
  | PosInf, _ | _, PosInf => PosInf
  | NegInf, _ | _, NegInf => NegInf
  end.

Definition fsub (x y : f64) : f64 := fadd x (fneg y).

(** The sign of a number, of a float ([0] for NaN), and the infinity of a sign. *)
Definition sgnQ (a : Q) : Z := match Qcompare a 0 with Lt => (-1)%Z | Eq => 0%Z | Gt => 1%Z end.
Definition sgn (x : f64) : Z :=
  match x with Fin a => sgnQ a | NaN => 0%Z | PosInf => 1%Z | NegInf => (-1)%Z end.
Definition infOfSign (s : Z) : f64 :=
  if Z.ltb 0 s then PosInf else if Z.ltb s 0 then NegInf else NaN.

Definition fmul (x y : f64) : f64 :=
  match x, y with
  | Fin a, Fin b => Fin (a * b)
  | NaN, _ | _, NaN => NaN
  | _, _ => infOfSign (sgn x * sgn y)   (* an infinity times 0 is NaN *)
  end.

Definition fdiv (x y : f64) : f64 :=
  match x, y with
  | Fin a, Fin b => if Qeq_bool b 0 then infOfSign (sgnQ a) else Fin (a / b)
  | NaN, _ | _, NaN => NaN
  | Fin _, _ => Fin 0
  | _, Fin b => if Qeq_bool b 0 then infOfSign (sgn x) else infOfSign (sgn x * sgnQ b)
  | _, _ => NaN
  end.

(** [math.Pow(r, n)] for a number [r] and an integral [n]. *)
Definition fpow (r : Q) (n : Z) : f64 :=
  if Qeq_bool r 0 && Z.ltb n 0 then PosInf else Fin (Qpower r n).

(** Go's [<=] on float64 values. *)
Definition fle (x y : f64) : bool :=
  match x, y with
  | Fin a, Fin b => Qle_bool a b
  | NaN, _ | _, NaN => false
  | NegInf, _ | _, PosInf => true
  | _, _ => false
  end.
End F64.

Module Twap.
Import Levels F64.
Local Open Scope Q_scope.

(** Times are [time.Time] values in UTC, as nanoseconds since the epoch. *)
Definition nanosInSecond : Z := 1000000000.
Definition secondsInHour : Z := 60 * 60.
Definition secondsInDay : Z := 24 * secondsInHour.

(** [t.Unix()] *)
Definition Unix (t : Z) : Z := Z.div t nanosInSecond.

(** [floorDate]: midnight of [t]'s day. *)
Definition floorDate (t : Z) : Z := t - Z.modulo t (secondsInDay * nanosInSecond).

(** [ceilDate]: one nanosecond before the next midnight. *)
Definition ceilDate (t : Z) : Z := floorDate t + secondsInDay * nanosInSecond - 1.

(** [t.Weekday()], Sunday being 0 (1970-01-01 was a Thursday). *)
Definition Weekday (t : Z) : nat := Z.to_nat (Z.modulo (Z.div (Unix t) secondsInDay + 4) 7).

(** [t.Format(postgresdb.DateFormatString)]: the day, as days since the epoch. *)
Definition dateOf (t : Z) : Z := Z.div (Unix t) secondsInDay.

(** The database-backed [volumeFilter] of a weekday: the day's capacity in
    base units and the base volume sold on a given date. *)
Record volumeFilter := mkVolumeFilter {
  mustGetBaseAssetCapInBaseUnits : result Q;
  dailyValuesByDate : Z -> result Q
}.

Record dynamicBucketValues := mkDynamicBucketValues {
  isNew : bool;
  roundID : Z;
  dayBaseSold : Q;
  baseSold : Q;
  now : Z
}.

Record bucketInfo := mkBucketInfo {
  ID : Z;
  startTime : Z;
  endTime : Z;
  sizeSeconds : Z;
  totalBuckets : Z;
  totalBucketsToSell : Z;
  dayBaseSoldStart : Q;
  dayBaseCapacity : Q;
  totalBaseSurplusStart : f64;
  baseSurplusIncluded : f64;
  baseCapacity : f64;
  minOrderSizeBase : f64;
  dynamicValues : dynamicBucketValues
}.

Definition dayBaseRemaining (b : bucketInfo) : Q :=
  dayBaseCapacity b - dayBaseSold (dynamicValues b).

Definition baseRemaining (b : bucketInfo) : f64 :=
  fsub (baseCapacity b) (Fin (baseSold (dynamicValues b))).

(** [roundInfo]; the [bucketUUID] field (a sha1 of the bucket's
    configuration, only logged) is left out. *)
Record roundInfo := mkRoundInfo {
  round_ID : Z;
  bucketID : Z;
  round_now : Z;
  secondsElapsedToday : Z;
  sizeBaseCapped : f64;
  price : Q
}.

(** [sellTwapLevelProvider]; [random] is the state of the [*rand.Rand]
    built from [randSeed]. *)
Record sellTwapLevelProvider := mkSellTwapLevelProvider {
  offset : rateOffset;
  orderConstraints : OrderConstraints;
  dowFilter : list volumeFilter;   (** a [[7]volumeFilter] *)
  numHoursToSell : Z;
  parentBucketSizeSeconds : Z;
  distributeSurplusOverRemainingIntervalsPercentCeiling : Q;
  exponentialSmoothingFactor : Q;
  minChildOrderSizePercentOfParent : Q;
  random : Z;
  activeBucket : option bucketInfo;
  previousRoundID : option Z
}.

(** The calls a round makes outside the provider: [p.startPf.GetPrice()]
    and [p.random.Float64()], the latter as a step of the generator state;
    and what [model.NumberFromFloat] makes of a NaN or an infinity (the
    [model] package is not among the sources). *)
Record TwapEnv := mkTwapEnv {
  GetPrice : result Q;
  Float64 : Z -> Q * Z;
  NonFiniteNumber : f64 -> Z -> Q
}.

(** [model.NumberFromFloat] on a float64 amount. *)
Definition NumberFromFloat64 (env : TwapEnv) (x : f64) (precision : Z) : Q :=
  match x with
  | Fin q => NumberFromFloat q precision
  | _ => NonFiniteNumber env x precision
  end.


Definition withRandom (p : sellTwapLevelProvider) (r : Z) : sellTwapLevelProvider :=
  mkSellTwapLevelProvider (offset p) (orderConstraints p) (dowFilter p) (numHoursToSell p)
    (parentBucketSizeSeconds p) (distributeSurplusOverRemainingIntervalsPercentCeiling p)
    (exponentialSmoothingFactor p) (minChildOrderSizePercentOfParent p) r
    (activeBucket p) (previousRoundID p).

(** [p.activeBucket = bucket; p.previousRoundID = &round.ID] *)
Definition saveRound (p : sellTwapLevelProvider) (b : bucketInfo) (rID : Z) : sellTwapLevelProvider :=
  mkSellTwapLevelProvider (offset p) (orderConstraints p) (dowFilter p) (numHoursToSell p)
    (parentBucketSizeSeconds p) (distributeSurplusOverRemainingIntervalsPercentCeiling p)
    (exponentialSmoothingFactor p) (minChildOrderSizePercentOfParent p) (random p)
    (Some b) (Some rID).

Definition makeFirstBucketFrame (p : sellTwapLevelProvider) (now : Z) (volFilter : volumeFilter)
    (startTime endTime totalBuckets bID rID : Z) : result bucketInfo :=
  let totalBucketsToSell :=
    Qceiling (inject_Z (numHoursToSell p * secondsInHour) / inject_Z (parentBucketSizeSeconds p)) in
  match mustGetBaseAssetCapInBaseUnits volFilter with
  | Err e => Err ("could not fetch base asset cap in base units: " ++ e)
  | Ok dayBaseCapacity =>
      match dailyValuesByDate volFilter (dateOf now) with
      | Err e => Err ("could not fetch daily values for today: " ++ e)
      | Ok baseVol =>
          let dayBaseSoldStart := baseVol in
          let totalBaseSurplusStart := Fin 0 in
          let baseSurplus := Fin 0 in
          let baseCapacity := fdiv (Fin dayBaseCapacity) (Fin (inject_Z totalBucketsToSell)) in
          let minOrderSizeBase := fmul (Fin (minChildOrderSizePercentOfParent p)) baseCapacity in
          (* upon instantiation the first bucket frame does not have anything sold beyond the starting values *)
          let dynamicValues := mkDynamicBucketValues true rID dayBaseSoldStart 0 now in
          Ok (mkBucketInfo bID startTime endTime (parentBucketSizeSeconds p) totalBuckets
                totalBucketsToSell dayBaseSoldStart dayBaseCapacity totalBaseSurplusStart
                baseSurplus baseCapacity minOrderSizeBase dynamicValues)
      end
  end.

Definition updateExistingBucket (active : bucketInfo) (now : Z) (volFilter : volumeFilter)
    (rID : Z) : result bucketInfo :=
  let bucket := active in
  match dailyValuesByDate volFilter (dateOf now) with
  | Err e => Err ("could not fetch daily values for today: " ++ e)
  | Ok dayBaseSold =>
      Ok (mkBucketInfo (ID bucket) (startTime bucket) (endTime bucket) (sizeSeconds bucket)
            (totalBuckets bucket) (totalBucketsToSell bucket) (dayBaseSoldStart bucket)
            (dayBaseCapacity bucket) (totalBaseSurplusStart bucket) (baseSurplusIncluded bucket)
            (baseCapacity bucket) (minOrderSizeBase bucket)
            (mkDynamicBucketValues false rID dayBaseSold (dayBaseSold - dayBaseSoldStart bucket) now))
  end.

(** Geometric series: [Sn = a * (r^n - 1) / (r - 1)], so
    [a = Sn * (r - 1) / (r^n - 1)]. *)
Definition firstDistributionOfBaseSurplus (p : sellTwapLevelProvider) (totalSurplus : f64)
    (totalRemainingBuckets : Z) : f64 :=
  let Sn := totalSurplus in
  let r := exponentialSmoothingFactor p in
  let n := Qceiling (distributeSurplusOverRemainingIntervalsPercentCeiling p * inject_Z totalRemainingBuckets) in
  let a := fdiv (fmul Sn (Fin (r - 1))) (fsub (fpow r n) (Fin 1)) in
  a.

Definition cutoverToNewBucketSameDay (p : sellTwapLevelProvider) (active newBucket : bucketInfo)
    : result bucketInfo :=
  if negb (Z.eqb (ID newBucket) (ID active + 1)) then
    Err "new bucketID needs to be one more than the previous bucketID"
  else
    let thisBucketDayBaseSoldStart := dayBaseSold (dynamicValues active) in
    let thisBucketDayBaseSold := dayBaseSoldStart newBucket in
    let dyn := mkDynamicBucketValues true (roundID (dynamicValues newBucket)) thisBucketDayBaseSold
                 (thisBucketDayBaseSold - thisBucketDayBaseSoldStart) (now (dynamicValues newBucket)) in
    (* the total surplus remaining up until this point gets distributed over the remaining buckets *)
    let averageBaseCapacity := baseCapacity newBucket in
    let numPreviousBuckets := ID newBucket in
    let expectedSold := fmul averageBaseCapacity (Fin (inject_Z numPreviousBuckets)) in
    let totalBaseSurplusStart := fsub expectedSold (Fin thisBucketDayBaseSoldStart) in
    let totalRemainingBuckets := (totalBuckets newBucket - numPreviousBuckets)%Z in
    let baseSurplusIncluded := firstDistributionOfBaseSurplus p totalBaseSurplusStart totalRemainingBuckets in
    Ok (mkBucketInfo (ID newBucket) (startTime newBucket) (endTime newBucket) (sizeSeconds newBucket)
          (totalBuckets newBucket) (totalBucketsToSell newBucket) thisBucketDayBaseSoldStart
          (dayBaseCapacity newBucket) totalBaseSurplusStart baseSurplusIncluded
          (fadd averageBaseCapacity baseSurplusIncluded) (minOrderSizeBase newBucket) dyn).

Definition makeBucketInfo (p : sellTwapLevelProvider) (now : Z) (volFilter : volumeFilter)
    (rID : Z) : result bucketInfo :=
  let dayStartTime := floorDate now in
  let dayEndTime := ceilDate now in
  let secondsElapsedToday := (Unix now - Unix dayStartTime)%Z in
  let bID := Z.quot secondsElapsedToday (parentBucketSizeSeconds p) in
  let startTime := (dayStartTime + bID * parentBucketSizeSeconds p * nanosInSecond)%Z in
  let endTime := (startTime + parentBucketSizeSeconds p * nanosInSecond - 1)%Z in
  let totalBuckets :=
    Qceiling (inject_Z (Unix dayEndTime - Unix dayStartTime) / inject_Z (parentBucketSizeSeconds p)) in
  match activeBucket p with
  | None =>
      (* bucket on bot load *)
      match makeFirstBucketFrame p now volFilter startTime endTime totalBuckets bID rID with
      | Err e => Err ("could not make first bucket: " ++ e)
      | Ok bucket => Ok bucket
      end
  | Some active =>
      if Z.eqb bID (ID active) then
        (* new round in the same bucket *)
        match updateExistingBucket active now volFilter rID with
        | Err e => Err ("could not update existing bucket: " ++ e)
        | Ok bucket => Ok bucket
        end
      else
        match makeFirstBucketFrame p now volFilter startTime endTime totalBuckets bID rID with
        | Err e => Err ("unable to make first bucket frame when cutting over with new bucketID: " ++ e)
        | Ok newBucket =>
            if Z.eqb (ID newBucket) 0 then Ok newBucket   (* on a new day *)
            else cutoverToNewBucketSameDay p active newBucket   (* on the same day *)
        end
  end.

(** [roundID] is a [uint64]. *)
Definition makeRoundID (p : sellTwapLevelProvider) : Z :=
  match previousRoundID p with
  | None => 0%Z
  | Some r => Z.modulo (r + 1) (2 ^ 64)
  end.

(** The round's size: the whole remainder when it is at most the minimum
    order size, a random point between the two otherwise; returns the
    generator state after the draw. *)
Definition roundSize (env : TwapEnv) (p : sellTwapLevelProvider) (bucket : bucketInfo) : f64 * Z :=
  if fle (baseRemaining bucket) (minOrderSizeBase bucket)
  then (baseRemaining bucket, random p)
  else
    let '(f, r') := Float64 env (random p) in
    (fadd (minOrderSizeBase bucket) (fmul (Fin f) (fsub (baseRemaining bucket) (minOrderSizeBase bucket))), r').

Definition makeRoundInfo (env : TwapEnv) (p : sellTwapLevelProvider) (rID now : Z)
    (bucket : bucketInfo) : result roundInfo * Z :=
  let dayStartTime := floorDate now in
  let secondsElapsedToday := (Unix now - Unix dayStartTime)%Z in
  let '(sizeBaseCapped, r') := roundSize env p bucket in
  match GetPrice env with
  | Err e => (Err ("could not get price from feed: " ++ e), r')
  | Ok price =>
      let '(adjustedPrice, _) := rateOffset_apply (offset p) price in
      (Ok (mkRoundInfo rID (ID bucket) now secondsElapsedToday sizeBaseCapped adjustedPrice), r')
  end.

(** [GetLevels] at time [now]; returns the ladder and the provider as the
    call leaves it. *)
Definition GetLevels (env : TwapEnv) (p : sellTwapLevelProvider) (now : Z)
    (maxAssetBase maxAssetQuote : Q) : result (list Level) * sellTwapLevelProvider :=
  match dowFilter p !! Weekday now with
  | None => (Err "index out of range", p)
  | Some volFilter =>
      let rID := makeRoundID p in
      match makeBucketInfo p now volFilter rID with
      | Err e => (Err ("unable to make bucketInfo: " ++ e), p)
      | Ok bucket =>
          let '(round, r') := makeRoundInfo env p rID now bucket in
          let p := withRandom p r' in
          match round with
          | Err e => (Err ("unable to make roundInfo: " ++ e), p)
          | Ok round =>
              (* save bucket and round for future rounds *)
              (Ok [mkLevel (NumberFromFloat (price round) (PricePrecision (orderConstraints p)))
                           (NumberFromFloat64 env (sizeBaseCapped round) (VolumePrecision (orderConstraints p)))],
               saveRound p bucket (round_ID round))
          end
      end
  end.
End Twap.

(** ------------------------------------------------------------------ *)
(** ** trader/trader.go *)

Module Trader.
Local Open Scope list_scope.
(** [build.TransactionMutator]: the deletion of an offer, or any other mutation. *)
Inductive TransactionMutator :=
| DeleteOfferMutator (o : Horizon.Offer)
| Mutator (n : nat).

(** Modelled from the spec: [SDEX.DeleteAllOffers] (the [SDEX] code is
    not among the sources), "cancel every order the bot itself is
    tracking": one cancellation per offer handed in, in order. *)
Definition DeleteAllOffers (offers : list Horizon.Offer) : list TransactionMutator :=
  map DeleteOfferMutator offers.

(** [api.Snapshots]: the data maps filled at the start ([Start]) and
    the end ([End]) of a tick. *)
Record Snapshots := mkSnapshots { StartData : gmap nat string; EndData : gmap nat string }.

(** The parts of [api.State] the loop touches: [History] and the offers
    cached in [Transient]. *)
Record State := mkState {
  History : list Snapshots;
  BuyingAOffers : list Horizon.Offer;
  SellingAOffers : list Horizon.Offer
}.

(** The collaborators of a tick: [t.snapshot] (its error only), the
    strategy's methods and [t.sdex.SubmitOps]. *)
Record TraderEnv := mkTraderEnv {
  snapshot : State -> gmap nat string -> option string;
  PreUpdate : State -> option string;
  PruneExistingOffers : State -> list TransactionMutator * list Horizon.Offer * list Horizon.Offer;
  UpdateWithOps : State -> list TransactionMutator * option string;
  PostUpdate : State -> option string;
  MaxHistory : Z;
  SubmitOps : list TransactionMutator -> option string
}.

(** What a tick does outside the trader, in order. *)
Inductive event :=
| Snapshot
| CallPreUpdate
| CallPruneExistingOffers
| Submit (ops : list TransactionMutator)
| ResetCachedXlmExposure
| CallUpdateWithOps
| CallPostUpdate.

(** How a call ends: a runtime panic, or a return with the new state;
    both with the events performed. *)
Inductive outcome :=
| Panic (msg : string) (evs : list event)
| Return (st : State) (evs : list event).

Definition withOffers (st : State) (buys sells : list Horizon.Offer) : State :=
  mkState (History st) buys sells.

Definition withHistory (st : State) (h : list Snapshots) : State :=
  mkState h (BuyingAOffers st) (SellingAOffers st).

(** [deleteAllOffers]: deletes all offers for the bot (not all offers on the account). *)
Definition deleteAllOffers (env : TraderEnv) (st : State) : State * list event :=
  let dOps := [] ++ DeleteAllOffers (SellingAOffers st) ++ DeleteAllOffers (BuyingAOffers st) in
  let st := withOffers st [] [] in
  if Nat.ltb 0 (length dOps) then (st, [Submit dOps]) else (st, []).

Definition recover (env : TraderEnv) (st : State) (evs : list event) : outcome :=
  let '(st, evs') := deleteAllOffers env st in Return st (evs ++ evs').

(** [if len(ops) > 0 { e = t.sdex.SubmitOps(ops) }] *)
Definition submitIfAny (env : TraderEnv) (ops : list TransactionMutator) (evs : list event)
    : list event * option string :=
  if Nat.ltb 0 (length ops) then (evs ++ [Submit ops], SubmitOps env ops) else (evs, None).

(** [t.state.History[:n]]; the slice is taken to have capacity [len]. *)
Definition sliceTo {A} (l : list A) (n : Z) : option (list A) :=
  if Z.leb n (Z.of_nat (length l)) then Some (take (Z.to_nat n) l) else None.

Definition pruneHistory (env : TraderEnv) (st : State) (evs : list event) : outcome :=
  if Z.ltb (Z.of_nat (length (History st))) (MaxHistory env) then
    match sliceTo (History st) (MaxHistory env) with
    | None => Panic "slice bounds out of range" evs
    | Some h => Return (withHistory st h) evs
    end
  else Return st evs.

(** [update]: one tick.  The strategy's methods read the state but only
    [PruneExistingOffers] hands back new values for it. *)
Definition update (env : TraderEnv) (st : State) : outcome :=
  (* add a new snapshots element to the history *)
  let st := withHistory st ([] ++ History st) in
  match History st !! 0 with
  | None => Panic "index out of range [0] with length 0" []
  | Some h0 =>
      let evs := [Snapshot] in
      match snapshot env st (StartData h0) with
      | Some _ => recover env st evs
      | None =>
          let evs := evs ++ [CallPreUpdate] in
          match PreUpdate env st with
          | Some _ => recover env st evs
          | None =>
              let '(pruneOps, buys, sells) := PruneExistingOffers env st in
              let st := withOffers st buys sells in
              let '(evs, e) := submitIfAny env pruneOps (evs ++ [CallPruneExistingOffers]) in
              match e with
              | Some _ => recover env st evs
              | None =>
                  let evs := evs ++ [ResetCachedXlmExposure; CallUpdateWithOps] in
                  let '(ops, e) := UpdateWithOps env st in
                  match e with
                  | Some _ => recover env st evs
                  | None =>
                      let '(evs, e) := submitIfAny env ops evs in
                      match e with
                      | Some _ => recover env st evs
                      | None =>
                          match History st !! 0 with
                          | None => Panic "index out of range [0] with length 0" evs
                          | Some h0 =>
                              let evs := evs ++ [Snapshot] in
                              match snapshot env st (EndData h0) with
                              | Some _ => recover env st evs
                              | None =>
                                  let evs := evs ++ [CallPostUpdate] in
                                  match PostUpdate env st with
                                  | Some _ => recover env st evs
                                  | None => pruneHistory env st evs
                                  end
                              end
                          end
                      end
                  end
              end
          end
      end
  end.

(** The ticks of [Start]'s loop, [n] of them; the sleeps are not modelled. *)
Fixpoint runTicks (env : TraderEnv) (n : nat) (st : State) (evs : list event) : outcome :=
  match n with
  | O => Return st evs
  | S n =>
      match update env st with
      | Panic msg evs' => Panic msg (evs ++ evs')
      | Return st evs' => runTicks env n st (evs ++ evs')
      end
  end.

(** [Start], observed over its first [n] ticks. *)
Definition Start (env : TraderEnv) (st : State) (n : nat) : outcome :=
  runTicks env n (withHistory st []) [].
End Trader.

Module TraderLoad.
Local Open Scope Q_scope.

(** [loadData]: stores the initialized datum of each of the context's
    [Keys] into [m] after loading it; [Load] is [initializedDatum.Load()]
    (its error).  The Go map [m] is updated in place, so what was stored
    before an error stays stored. *)
Fixpoint loadData {D} (InitializedData : gmap string D) (Load : D -> option string)
    (Keys : list string) (m : gmap string D) : gmap string D * option string :=
  match Keys with
  | [] => (m, None)
  | k :: rest =>
      match InitializedData !! k with
      | Some initializedDatum =>
          match Load initializedDatum with
          | Some e => (m, Some e)
          | None => loadData InitializedData Load rest (<[k := initializedDatum]> m)
          end
      | None => (m, Some ("error: could not find initialized datum for key " ++ k))
      end
  end.

(** [horizon.Asset] *)
Record horizonAsset := mkAsset { AssetType : string; Code : string; Issuer : string }.

(** [horizon.Balance] *)
Record horizonBalance := mkBalance { Balance : string; Limit : string; Asset : horizonAsset }.

(** [utils.Native], the asset type of lumens. *)
Definition Native : string := "native".

(** [maxLumenTrust] *)
Definition maxLumenTrust : Q := 100000000000.

(** The library calls [loadBalances] makes:
    [Client.LoadAccount(TradingAccount)] (the account's balances),
    [utils.AssetsEqual] and [utils.AmountStringAsFloat]. *)
Record BalanceEnv := mkBalanceEnv {
  LoadAccount : string -> result (list horizonBalance);
  AssetsEqual : horizonAsset -> horizonAsset -> bool;
  AmountStringAsFloat : string -> Q
}.

(** The fields of [api.DataTransient] that [loadBalances] sets. *)
Record DataTransient := mkDataTransient {
  MaxAssetA : Q; MaxAssetB : Q; TrustAssetA : Q; TrustAssetB : Q
}.

(** The [for _, balance := range account.Balances] loop. *)
Fixpoint balancesLoop (env : BalanceEnv) (AssetBase AssetQuote : horizonAsset)
    (balances : list horizonBalance) (maxA maxB trustA trustB : Q) : DataTransient :=
  match balances with
  | [] => mkDataTransient maxA maxB trustA trustB
  | balance :: rest =>
      if AssetsEqual env (Asset balance) AssetBase then
        let maxA := AmountStringAsFloat env (Balance balance) in
        let trustA := if String.eqb (AssetType (Asset balance)) Native then maxLumenTrust
                      else AmountStringAsFloat env (Limit balance) in
        balancesLoop env AssetBase AssetQuote rest maxA maxB trustA trustB
      else if AssetsEqual env (Asset balance) AssetQuote then
        let maxB := AmountStringAsFloat env (Balance balance) in
        let trustB := if String.eqb (AssetType (Asset balance)) Native then maxLumenTrust
                      else AmountStringAsFloat env (Limit balance) in
        balancesLoop env AssetBase AssetQuote rest maxA maxB trustA trustB
      else balancesLoop env AssetBase AssetQuote rest maxA maxB trustA trustB
  end.

(** [loadBalances]: the new values of the four fields, or the error
    (the fields are then left as they were). *)
Definition loadBalances (env : BalanceEnv) (TradingAccount : string)
    (AssetBase AssetQuote : horizonAsset) : result DataTransient :=
  match LoadAccount env TradingAccount with
  | Err e => Err ("error loading account: " ++ e)
  | Ok balances => Ok (balancesLoop env AssetBase AssetQuote balances 0 0 0 0)
  end.
End TraderLoad.

(** ------------------------------------------------------------------ *)
(** ** The data-key DAG (plugins, [MakeDataKeysDag]) *)

Module DataKeys.
Local Open Scope list_scope.
(** [api.DataKey] is an [int] constant. *)
Abbreviation DataKey := nat (only parsing).

(** An [api.Datum], seen through [DirectDependencies()]. *)
Record Datum := mkDatum { DirectDependencies : list DataKey }.

(** The [for _, key := range input] loop of [dagHelper]; [rec] is the
    recursive call.  The [traversed] map, shared by all calls, is threaded
    through. *)
Fixpoint dagLoop (InitializedData : gmap DataKey Datum)
    (rec : list DataKey -> gset DataKey -> result (list DataKey * gset DataKey))
    (keys output : list DataKey) (traversed : gset DataKey)
    : result (list DataKey * gset DataKey) :=
  match keys with
  | [] => Ok (output, traversed)
  | key :: rest =>
      if decide (key ∈ traversed) then dagLoop InitializedData rec rest output traversed
      else
        let traversed := {[ key ]} ∪ traversed in
        match InitializedData !! key with
        | None => Err "nil pointer dereference"   (* a missing key yields a nil Datum *)
        | Some initializedDatum =>
            match rec (DirectDependencies initializedDatum) traversed with
            | Err e => Err e
            | Ok (sub, traversed) => dagLoop InitializedData rec rest (output ++ sub ++ [key]) traversed
            end
        end
  end.

(** [dagHelper]; [fuel] bounds the depth of the recursion. *)
Fixpoint dagHelper (InitializedData : gmap DataKey Datum) (fuel : nat)
    (input : list DataKey) (traversed : gset DataKey) : result (list DataKey * gset DataKey) :=
  match input with
  | [] => Ok ([], traversed)
  | _ =>
      match fuel with
      | O => Err "recursion bound exceeded"
      | S fuel => dagLoop InitializedData (dagHelper InitializedData fuel) input [] traversed
      end
  end.

(** [MakeDataKeysDag]; each level of recursion marks a new key of
    [InitializedData] as traversed, so [size + 1] levels suffice. *)
Definition MakeDataKeysDag (InitializedData : gmap DataKey Datum) (input : list DataKey)
    : result (list DataKey) :=
  match dagHelper InitializedData (S (size InitializedData)) input ∅ with
  | Err e => Err e
  | Ok (output, _) => Ok output
  end.
End DataKeys.

(** ------------------------------------------------------------------ *)
(** ** Auxiliary definitions used to state the properties *)

Module FilterSpec.
Import Txnbuild SubmitFilter.
Local Open Scope list_scope.

(** The operation that an input operation contributes to the kept part
    of the output, if any: other operations and deletes pass through,
    a create/modify contributes the [newOp] of a [(newOp, true)] answer
    of the filter function. *)
Definition keptResult (fn : filterFn) (op : Operation) : option Operation :=
  match op with
  | OtherOp _ => Some op
  | ManageSellOfferOp o =>
      if String.eqb (Amount o) "0" then Some op
      else match fn o with
           | Ok (Some n, true) => Some (ManageSellOfferOp n)
           | _ => None
           end
  end.

(** The contract stated in the comments of [filterOps] ("newOp will
    never be nil for an original offer", a dropped state): when a live
    offer is not kept, the filter function answers with its deletion. *)
Definition dropsAsDelete (fn : filterFn) : Prop :=
  forall (offer : Horizon.Offer) x,
    fn (convertOffer2MSO offer) = Ok (x, false) ->
    exists m, x = Some m /\ Amount m = "0" /\ OfferID m = Horizon.ID offer.

(** A live offer the filter's keep policy rejects: the filter function
    answers [keep = false] on it. *)
Definition rejectedByFilter (fn : filterFn) (offer : Horizon.Offer) : Prop :=
  exists x, fn (convertOffer2MSO offer) = Ok (x, false).

(** The output contains the deletion of [offer]. *)
Definition hasDeleteOf (out : list Operation) (offer : Horizon.Offer) : Prop :=
  exists m, ManageSellOfferOp m ∈ out /\ Amount m = "0" /\ OfferID m = Horizon.ID offer.

(** A decimal-digit reader standing for [strconv.ParseFloat] on the
    integral prices used in the examples. *)
Fixpoint parseDigits (s : string) (acc : Z) : option Z :=
  match s with
  | EmptyString => Some acc
  | String c rest =>
      let n := Ascii.nat_of_ascii c in
      if Nat.leb 48 n && Nat.leb n 57
      then parseDigits rest (acc * 10 + Z.of_nat (n - 48))%Z
      else None
  end.

Definition demoParseFloat (s : string) : option Q :=
  match s with
  | EmptyString => None
  | _ => option_map inject_Z (parseDigits s 0)
  end.

(** [utils.IsSelling]: selling base for quote is a sell, selling quote
    for base is a buy, any other pair is an error. *)
Definition demoIsSelling (sdexBase sdexQuote selling buying : string) : result bool :=
  if String.eqb selling sdexBase && String.eqb buying sdexQuote then Ok true
  else if String.eqb selling sdexQuote && String.eqb buying sdexBase then Ok false
  else Err "invalid assets".

Definition demoEnv : FilterEnv := mkFilterEnv demoIsSelling demoParseFloat.

Definition sellOp (price amount : string) (offerID : Z) : ManageSellOffer :=
  mkMSO "XLM" "USD" amount price offerID None.

(** A filter that drops every offer priced at 2 or more by deleting it. *)
Definition dropAbove2 : filterFn := fun o =>
  match demoParseFloat (Price o) with
  | Some q =>
      if Qle_bool 2 q
      then Ok (Some (mkMSO (Selling o) (Buying o) "0" (Price o) (OfferID o) (SourceAccount o)), false)
      else Ok (Some o, true)
  | None => Err "bad price"
  end.

(** A filter that keeps everything unchanged. *)
Definition keepAll : filterFn := fun o => Ok (Some o, true).

Definition demoOffer (id : Z) (price : string) (n d : Z) : Horizon.Offer :=
  Horizon.mkOffer id "GBOT" "XLM" "USD" "10" price n d.

(** An operation [filterOps] puts at the front of its output: an answer
    [(newOp, false)] of the filter function, or the deletion of a live
    offer the loop did not reach. *)
Definition prependedOp (fn : filterFn) (sellingOffers buyingOffers : list Horizon.Offer)
    (x : Operation) : Prop :=
  (exists m m0, x = ManageSellOfferOp m /\ fn m0 = Ok (Some m, false))
  \/ (exists offer, offer ∈ sellingOffers ++ buyingOffers /\ x = ManageSellOfferOp (dropOp offer)).

(** An element the loop of [filterOps] consumes: an input operation, or
    a live offer of the selling or of the buying list. *)
Inductive item :=
  | ItemOp (op : Operation)
  | ItemSell (offer : Horizon.Offer)
  | ItemBuy (offer : Horizon.Offer).

Definition itemOp (it : item) : option Operation :=
  match it with ItemOp op => Some op | _ => None end.
Definition itemSell (it : item) : option Horizon.Offer :=
  match it with ItemSell o => Some o | _ => None end.
Definition itemBuy (it : item) : option Horizon.Offer :=
  match it with ItemBuy o => Some o | _ => None end.

(** What a consumed element adds to the output: nothing, an operation
    put at the front, or an operation put at the back. *)
Inductive contrib := NoContrib | Front (x : Operation) | Back (x : Operation).

Definition frontOf (c : contrib) : option Operation :=
  match c with Front x => Some x | _ => None end.
Definition backOf (c : contrib) : option Operation :=
  match c with Back x => Some x | _ => None end.

(** An input operation: other operations and deletions are kept as
    they are; a create/modify goes to the back as the [newOp] of a
    [(newOp, true)] answer, to the front as the [newOp] of a
    [(newOp, false)] answer, and is dropped on [(nil, false)]. *)
Definition opContrib (fn : filterFn) (op : Operation) : contrib :=
  match op with
  | OtherOp _ => Back op
  | ManageSellOfferOp o =>
      if String.eqb (Amount o) "0" then Back op
      else match fn o with
           | Ok (Some n, true) => Back (ManageSellOfferOp n)
           | Ok (Some n, false) => Front (ManageSellOfferOp n)
           | _ => NoContrib
           end
  end.

(** A live offer: nothing when an operation refers to it, when it is a
    deletion or when the filter keeps it unchanged (same price and
    amount); to the back as a changed [newOp] it keeps, to the front as
    the [newOp] of a [(newOp, false)] answer. *)
Definition offerContrib (fn : filterFn) (ignoreOfferIds : gset Z) (offer : Horizon.Offer) : contrib :=
  if decide (Horizon.ID offer ∈ ignoreOfferIds) then NoContrib else
  let m := convertOffer2MSO offer in
  if String.eqb (Amount m) "0" then NoContrib
  else match fn m with
       | Ok (Some n, true) =>
           if String.eqb (Price m) (Price n) && String.eqb (Amount m) (Amount n)
           then NoContrib else Back (ManageSellOfferOp n)
       | Ok (Some n, false) => Front (ManageSellOfferOp n)
       | _ => NoContrib
       end.

Definition itemContrib (fn : filterFn) (ignoreOfferIds : gset Z) (it : item) : contrib :=
  match it with
  | ItemOp op => opContrib fn op
  | ItemSell offer | ItemBuy offer => offerContrib fn ignoreOfferIds offer
  end.

(** The deletions of the live offers the loop did not reach. *)
Definition unreachedDeletes (offers : list Horizon.Offer) : list Operation :=
  map (fun o => ManageSellOfferOp (dropOp o)) offers.

(** [filteredOps] after a contribution: [append] at the back,
    [append([]{x}, filteredOps...)] at the front. *)
Definition addContrib (c : contrib) (F : list Operation) : list Operation :=
  match c with NoContrib => F | Front x => x :: F | Back x => F ++ [x] end.

(** The shape of [filteredOps] after the operations [done]: a prefix of
    prepended operations, then a part that holds the kept results of
    [done] in their input order. *)
Definition keptOrderInv (fn : filterFn) (sellingOffers buyingOffers : list Horizon.Offer)
    (done filtered : list Operation) : Prop :=
  exists P A, filtered = P ++ A
    /\ sublist (omap (keptResult fn) done) A
    /\ Forall (prependedOp fn sellingOffers buyingOffers) P.

(** Every live offer the loop has consumed (below [sellIdx] or [buyIdx])
    that no operation refers to, that is not itself a deletion and that
    the filter function rejects, has its deletion in [filteredOps]. *)
Definition deletesReached (fn : filterFn) (ignoreOfferIds : gset Z)
    (sellingOffers buyingOffers : list Horizon.Offer) (st : LoopState) : Prop :=
  forall i offer,
    ((i < sellIdx st)%nat /\ sellingOffers !! i = Some offer
     \/ (i < buyIdx st)%nat /\ buyingOffers !! i = Some offer) ->
    Horizon.ID offer ∉ ignoreOfferIds -> Horizon.Amount offer <> "0" ->
    rejectedByFilter fn offer -> hasDeleteOf (filteredOps st) offer.
End FilterSpec.

Module TraderSpec.
Import Trader.
Local Open Scope list_scope.

(** The submission [deleteAllOffers] performs for cached offers
    [sells] and [buys]: the deletions of exactly those offers, if any. *)
Definition cancelEvents (sells buys : list Horizon.Offer) : list event :=
  let dOps := DeleteAllOffers sells ++ DeleteAllOffers buys in
  if Nat.ltb 0 (length dOps) then [Submit dOps] else [].

(** The submission of [ops], which only happens for a non-empty list. *)
Definition submitted (ops : list TransactionMutator) : list event :=
  if Nat.ltb 0 (length ops) then [Submit ops] else [].

Definition o1 : Horizon.Offer := Horizon.mkOffer 1 "GBOT" "XLM" "USD" "10" "1" 1 1.
Definition o2 : Horizon.Offer := Horizon.mkOffer 2 "GBOT" "USD" "XLM" "10" "1" 1 1.

(** A strategy whose [PreUpdate] fails. *)
Definition failingPreUpdateEnv : TraderEnv :=
  mkTraderEnv (fun _ _ => None) (fun _ => Some "pre-update failed")
    (fun st => ([], BuyingAOffers st, SellingAOffers st))
    (fun _ => ([], None)) (fun _ => None) 10 (fun _ => None).

Definition snap0 : Snapshots := mkSnapshots ∅ ∅.
End TraderSpec.

Module DagSpec.
Import DataKeys.
Local Open Scope list_scope.

(** [d] is a direct dependency of [k]. *)
Definition dependsOn (data : gmap DataKey Datum) (k d : DataKey) : Prop :=
  exists datum, data !! k = Some datum /\ d ∈ DirectDependencies datum.

(** [k] is an input key or one of its transitive dependencies. *)
Definition reachableFrom (data : gmap DataKey Datum) (input : list DataKey) (k : DataKey) : Prop :=
  exists i, i ∈ input /\ rtc (dependsOn data) i k.

(** The dependency graph below [input] has no cycle. *)
Definition acyclicFrom (data : gmap DataKey Datum) (input : list DataKey) : Prop :=
  forall k, reachableFrom data input k -> ~ tc (dependsOn data) k k.

(** Every key below [input] is present in [InitializedData]. *)
Definition allPresent (data : gmap DataKey Datum) (input : list DataKey) : Prop :=
  forall k, reachableFrom data input k -> is_Some (data !! k).

(** Every key of [out] comes after all of its direct dependencies. *)
Definition depsBefore (data : gmap DataKey Datum) (out : list DataKey) : Prop :=
  forall i k d, out !! i = Some k -> dependsOn data k d ->
    exists j, j < i /\ out !! j = Some d.

(** 1 depends on 2 and 3, 2 on 3; 4 on 1. *)
Definition demoData : gmap DataKey Datum :=
  <[4 := mkDatum [1]]> (<[1 := mkDatum [2; 3]]> (<[2 := mkDatum [3]]> {[3 := mkDatum []]})).

(** Every direct dependency [d] of a key of [out] satisfies [P] or comes
    before that key. *)
Definition depsBeforeOr (data : gmap DataKey Datum) (P : DataKey -> Prop) (out : list DataKey) : Prop :=
  forall l1 x l2 d, out = l1 ++ x :: l2 -> dependsOn data x d -> P d \/ d ∈ l1.

(** What a call [dagHelper keys traversed] needs: the keys lie below
    [input]; every key of the recursion stack [S] reaches every key;
    the traversed keys are present; and the fuel exceeds the number of
    keys not traversed yet. *)
Definition dagPre (data : gmap DataKey Datum) (input : list DataKey) (T S : gset DataKey)
    (keys : list DataKey) (fuel : nat) : Prop :=
  (forall k, k ∈ keys -> reachableFrom data input k)
  /\ (forall s k, s ∈ S -> k ∈ keys -> tc (dependsOn data) s k)
  /\ T ⊆ dom data
  /\ size data < fuel + size T.

(** What the call [dagHelper keys T] returns, [(out, T')]: the new keys
    [out] are traversed, new and distinct; each comes after its
    dependencies unless these were traversed before the call and are
    not on the stack [S]; every key is traversed; every new key lies
    below [input]. *)
Definition dagPost (data : gmap DataKey Datum) (input : list DataKey) (T S : gset DataKey)
    (keys out : list DataKey) (T' : gset DataKey) : Prop :=
  T' = T ∪ list_to_set out
  /\ NoDup out
  /\ (forall x, x ∈ out -> x ∉ T)
  /\ depsBeforeOr data (fun d => d ∈ T /\ d ∉ S) out
  /\ (forall k, k ∈ keys -> k ∈ T')
  /\ (forall x, x ∈ out -> reachableFrom data input x).

(** A rank that decreases along the dependencies of [demoData]. *)
Definition demoRank (k : DataKey) : nat :=
  match k with 4 => 3 | 1 => 2 | 2 => 1 | _ => 0 end.
End DagSpec.

Module TwapSpec.
Import Levels Twap.
Local Open Scope Q_scope.

(** The allocations [a, a*r, ..., a*r^(n-1)] of a geometric series, summed. *)
Fixpoint geometricSum (a r : Q) (n : nat) : Q :=
  match n with
  | O => 0
  | S n' => geometricSum a r n' + a * Qpower r (Z.of_nat n')
  end.

(** A provider that distributes the whole surplus ([ceiling = 1]) with
    smoothing factor [r = 0.5]; the other fields are arbitrary. *)
Definition halfSmoothing (o : rateOffset) (oc : OrderConstraints) (dow : list volumeFilter)
    (h s : Z) (m : Q) (rnd : Z) (ab : option bucketInfo) (pr : option Z) : sellTwapLevelProvider :=
  mkSellTwapLevelProvider o oc dow h s 1 (1 # 2) m rnd ab pr.

(** A [Float64] drawing values in [[0, 1)]: it returns [1/2]; a NaN or
    infinite amount is given the number 0. *)
Definition halfFloatEnv (price : Q) : TwapEnv :=
  mkTwapEnv (Ok price) (fun r => (1 # 2, (r + 1)%Z)) (fun _ _ => 0).

Definition demoVolumeFilter : volumeFilter :=
  mkVolumeFilter (Ok 1000) (fun _ => Ok 100).

(** A provider with one parent bucket per hour, selling over 24 hours,
    minimum child order size 10% of the parent, no rate offset. *)
Definition demoTwap : sellTwapLevelProvider :=
  mkSellTwapLevelProvider (mkRateOffset 0 0 false false) (mkOrderConstraints 7 7)
    (repeat demoVolumeFilter 7) 24 3600 1 (1 # 2) (1 # 10) 42 None None.
End TwapSpec.

Module StaticSpec.
Import Levels StaticSpread.
Local Open Scope Q_scope.

(** A trades database returning fixed sums for the two queries. *)
Definition constDB (base1 quote1 base2 quote2 : option Q) : TradesDB :=
  mkTradesDB (fun _ _ _ action =>
    if String.eqb action "sell" then Ok (base1, quote1) else Ok (base2, quote2)).

(** One level at zero spread, no offset, no daily cap, and a minimum
    sell price of 2. *)
Definition minPriceProvider : staticSpreadLevelProvider :=
  mkStaticSpreadLevelProvider [mkStaticLevel 0 1] 10 (mkRateOffset 0 0 false false)
    (mkOrderConstraints 7 7) None "XLM" "USD" (mkMaxDailySell 0 "") 2.

(** Two levels and a daily cap of 100 base units of which 99.95 are
    already sold today. *)
Definition cappedProvider : staticSpreadLevelProvider :=
  mkStaticSpreadLevelProvider [mkStaticLevel (1 # 100) 1; mkStaticLevel (2 # 100) 1] 10
    (mkRateOffset 0 0 false false) (mkOrderConstraints 7 7)
    (Some (constDB (Some (9995 # 100)) None None None)) "XLM" "USD" (mkMaxDailySell 100 "base") 0.
(** Two levels at 1% and 2% spread, no daily cap, no minimum price. *)
Definition plainProvider : staticSpreadLevelProvider :=
  mkStaticSpreadLevelProvider [mkStaticLevel (1 # 100) 1; mkStaticLevel (2 # 100) (1 # 2)] 10
    (mkRateOffset (1 # 10) 0 false false) (mkOrderConstraints 4 2) None "XLM" "USD"
    (mkMaxDailySell 0 "") 0.
End StaticSpec.

Module FilterSpecX.
Import Txnbuild SubmitFilter.
Definition droppedResult (fn : filterFn) (op : Operation) : option Operation :=
  match op with
  | OtherOp _ => None
  | ManageSellOfferOp o =>
      if String.eqb (Amount o) "0" then None
      else match fn o with
           | Ok (Some n, false) => Some (ManageSellOfferOp n)
           | _ => None
           end
  end.

Definition opSucceeds (env : FilterEnv) (baseAsset quoteAsset : string) (fn : filterFn)
    (op : Operation) : Prop :=
  match op with
  | OtherOp _ => True
  | ManageSellOfferOp o =>
      (exists isSellOp, selectBuySellList env baseAsset quoteAsset o = Ok isSellOp)
      /\ (Amount o <> "0" -> exists r, fn o = Ok r /\ r <> (None, true))
  end.

Definition opFails (env : FilterEnv) (baseAsset quoteAsset : string) (fn : filterFn)
    (op : Operation) : Prop :=
  match op with
  | OtherOp _ => False
  | ManageSellOfferOp o =>
      (exists e, selectBuySellList env baseAsset quoteAsset o = Err e)
      \/ (Amount o <> "0" /\ exists e, fn o = Err e)
  end.
End FilterSpecX.

Module TraderLoadSpec.
Import TraderLoad.
Local Open Scope Q_scope.

(** The amount of a balance and the trust [loadBalances] gives its asset. *)
Definition balanceAmount (env : BalanceEnv) (b : horizonBalance) : Q :=
  AmountStringAsFloat env (Balance b).

Definition balanceTrust (env : BalanceEnv) (b : horizonBalance) : Q :=
  if String.eqb (AssetType (Asset b)) Native then maxLumenTrust else AmountStringAsFloat env (Limit b).

(** A balance of the base asset; of the quote asset but not of the base one. *)
Definition isBase (env : BalanceEnv) (AssetBase : horizonAsset) (b : horizonBalance) : bool :=
  AssetsEqual env (Asset b) AssetBase.

Definition isQuoteOnly (env : BalanceEnv) (AssetBase AssetQuote : horizonAsset) (b : horizonBalance) : bool :=
  negb (AssetsEqual env (Asset b) AssetBase) && AssetsEqual env (Asset b) AssetQuote.

Definition xlm : horizonAsset := mkAsset "native" "" "".
Definition usd : horizonAsset := mkAsset "credit_alphanum4" "USD" "GISSUER".

(** Assets compare field by field; amounts are read as whole numbers. *)
Definition demoBalanceEnv (balances : list horizonBalance) : BalanceEnv :=
  mkBalanceEnv (fun _ => Ok balances)
    (fun a b => String.eqb (AssetType a) (AssetType b) && String.eqb (Code a) (Code b)
                && String.eqb (Issuer a) (Issuer b))
    (fun s => match FilterSpec.demoParseFloat s with Some q => q | None => 0 end).

(** A strategy and venue on which every stage of a tick succeeds. *)
Definition okEnv : Trader.TraderEnv :=
  Trader.mkTraderEnv (fun _ _ => None) (fun _ => None)
    (fun st => ([Trader.DeleteOfferMutator TraderSpec.o1], Trader.BuyingAOffers st, []))
    (fun _ => ([Trader.Mutator 7], None)) (fun _ => None) 1 (fun _ => None).
End TraderLoadSpec.

Module DagSpecX.
Import DataKeys DagSpec.
Local Open Scope list_scope.

(** What a successful call [dagHelper keys T] returning [(out, T')]
    guarantees, acyclic graph or not: the new keys [out] are traversed,
    distinct and new; every key of [keys] is traversed; every new key is
    present; every direct dependency of a new key is traversed. *)
Definition dagSound (data : gmap DataKey Datum) (T : gset DataKey) (keys out : list DataKey)
    (T' : gset DataKey) : Prop :=
  T' = T ∪ list_to_set out
  /\ NoDup out
  /\ (forall x, x ∈ out -> x ∉ T)
  /\ (forall k, k ∈ keys -> k ∈ T')
  /\ (forall x, x ∈ out -> x ∈ dom data)
  /\ (forall x d, x ∈ out -> dependsOn data x d -> d ∈ T').

(** 1 and 2 depend on each other. *)
Definition cyclicData : gmap DataKey Datum :=
  <[1 := mkDatum [2]]> {[2 := mkDatum [1]]}.
End DagSpecX.

Module TwapSpecX.
Import Levels Twap TwapSpec.
Local Open Scope Q_scope.

(** The bucket index of [now] within its day:
    [int64(secondsElapsedToday) / p.parentBucketSizeSeconds]. *)
Definition bucketIndex (p : sellTwapLevelProvider) (now : Z) : Z :=
  Z.quot (Unix now - Unix (floorDate now)) (parentBucketSizeSeconds p).

(** The third hourly bucket of a day, left active by an earlier round. *)
Definition staleBucket : bucketInfo :=
  mkBucketInfo 3 0 (3600 * nanosInSecond - 1) 3600 24 24 0 1000 (F64.Fin 0) (F64.Fin 0)
    (F64.Fin (1000 # 24)) (F64.Fin (100 # 24))
    (mkDynamicBucketValues false 5 100 0 0).

(** [demoTwap] with [staleBucket] active and 5 as the previous round. *)
Definition staleTwap : sellTwapLevelProvider :=
  mkSellTwapLevelProvider (offset demoTwap) (orderConstraints demoTwap) (dowFilter demoTwap)
    (numHoursToSell demoTwap) (parentBucketSizeSeconds demoTwap)
    (distributeSurplusOverRemainingIntervalsPercentCeiling demoTwap)
    (exponentialSmoothingFactor demoTwap) (minChildOrderSizePercentOfParent demoTwap)
    (random demoTwap) (Some staleBucket) (Some 5%Z).


End TwapSpecX.

Module StaticSpecX.
Import Levels StaticSpread StaticSpec.
Local Open Scope Q_scope.

(** [plainProvider] with a trades database and a daily-sell asset type
    that is neither ["base"] nor ["quote"]. *)
Definition invalidTypeProvider : staticSpreadLevelProvider :=
  mkStaticSpreadLevelProvider (staticLevels plainProvider) 10
    (mkRateOffset 0 0 false false) (mkOrderConstraints 7 7)
    (Some (constDB (Some 1) (Some 2) None None)) "XLM" "USD" (mkMaxDailySell 100 "both") 0.
End StaticSpecX.

(** ================================================================== *)
(** * Properties *)


Module TwapFacts.
Import Levels F64 Twap TwapSpec TwapSpecX.
Local Open Scope Q_scope.

Lemma Qpower_succ_nat (r : Q) (n : nat) :
  Qpower r (Z.of_nat (S n)) == Qpower r (Z.of_nat n) * r.
Proof.
  rewrite Nat2Z.inj_succ, <- Z.add_1_r.
  rewrite Qpower_plus' by lia. simpl. reflexivity.
Qed.

Lemma geometricSum_closed (a r : Q) (n : nat) :
  geometricSum a r n * (r - 1) == a * (Qpower r (Z.of_nat n) - 1).
Proof.
  induction n as [|n IH]; simpl geometricSum.
  - simpl. ring.
  - rewrite Qpower_succ_nat.
    transitivity (geometricSum a r n * (r - 1) + a * Qpower r (Z.of_nat n) * (r - 1)); [ring|].
    rewrite IH. ring.
Qed.

Lemma fpow_nonneg (r : Q) (n : Z) : (0 <= n)%Z -> fpow r n = Fin (Qpower r n).
Proof.
  intros Hn. unfold fpow. destruct (Z.ltb n 0) eqn:E; [apply Z.ltb_lt in E; lia|].
  rewrite andb_false_r. reflexivity.
Qed.

(** C7: [firstDistributionOfBaseSurplus] is [a = Sn (r - 1) / (r^n - 1)]
    in float64 arithmetic, with [r] the smoothing factor and [n] the
    ceiling of the distribution fraction times the remaining buckets.
    For a number [Sn], [r <> 1], [r^n <> 1] and [n >= 0], [a] is that
    number, the first term of a geometric series of [n] terms with ratio
    [r] summing to [Sn]; when [r^n = 1] the division by zero gives NaN
    or an infinity of the sign of [Sn (r - 1)].  With [Sn = 8000],
    [r = 0.5] and the whole surplus spread over 4 buckets, [a] is
    [12800/3], about 4266.67. *)
Theorem firstDistributionOfBaseSurplus_geometric :
  (forall p Sn totalRemainingBuckets,
     firstDistributionOfBaseSurplus p Sn totalRemainingBuckets
     = fdiv (fmul Sn (Fin (exponentialSmoothingFactor p - 1)))
            (fsub (fpow (exponentialSmoothingFactor p)
                     (Qceiling (distributeSurplusOverRemainingIntervalsPercentCeiling p
                                * inject_Z totalRemainingBuckets)))
                  (Fin 1)))
  /\ (forall p Sn totalRemainingBuckets,
        let r := exponentialSmoothingFactor p in
        let n := Qceiling (distributeSurplusOverRemainingIntervalsPercentCeiling p
                           * inject_Z totalRemainingBuckets) in
        ~ r == 1 -> ~ Qpower r n == 1 -> (0 <= n)%Z ->
        exists a, firstDistributionOfBaseSurplus p (Fin Sn) totalRemainingBuckets = Fin a
          /\ a == Sn * (r - 1) / (Qpower r n - 1)
          /\ geometricSum a r (Z.to_nat n) == Sn)
  /\ (forall p Sn totalRemainingBuckets,
        let r := exponentialSmoothingFactor p in
        let n := Qceiling (distributeSurplusOverRemainingIntervalsPercentCeiling p
                           * inject_Z totalRemainingBuckets) in
        (0 <= n)%Z -> Qpower r n == 1 ->
        firstDistributionOfBaseSurplus p (Fin Sn) totalRemainingBuckets = infOfSign (sgnQ (Sn * (r - 1))))
  /\ (forall o oc dow h s m rnd ab pr,
        exists a, firstDistributionOfBaseSurplus (halfSmoothing o oc dow h s m rnd ab pr) (Fin 8000) 4 = Fin a
          /\ a == 12800 # 3 /\ Qabs (a - (426667 # 100)) <= 1 # 100).
Proof.
  split; [reflexivity|split; [|split]].
  - intros p Sn k r n Hr Hrn Hn.
    unfold firstDistributionOfBaseSurplus. fold r n. rewrite (fpow_nonneg r n Hn).
    cbn [fmul fsub fneg fadd fdiv].
    destruct (Qeq_bool (Qpower r n + - (1)) 0) eqn:E0.
    { apply Qeq_bool_iff in E0. exfalso. apply Hrn. lra. }
    set (a := Sn * (r - 1) / (Qpower r n + - (1))).
    exists a. split; [reflexivity|split; [reflexivity|]].
    assert (Hclosed := geometricSum_closed a r (Z.to_nat n)).
    rewrite Z2Nat.id in Hclosed by exact Hn.
    assert (Ha : a * (Qpower r n - 1) == Sn * (r - 1)).
    { unfold a. field. intros E. apply Hrn. lra. }
    rewrite Ha in Hclosed.
    apply (Qmult_inj_r _ _ (r - 1)); [intros E; apply Hr; lra | exact Hclosed].
  - intros p Sn k r n Hn Hrn.
    unfold firstDistributionOfBaseSurplus. fold r n. rewrite (fpow_nonneg r n Hn).
    cbn [fmul fsub fneg fadd fdiv].
    destruct (Qeq_bool (Qpower r n + - (1)) 0) eqn:E0; [reflexivity|].
    exfalso. assert (Qpower r n + - (1) == 0) by lra.
    apply Qeq_bool_iff in H. congruence.
  - intros. exists (8000 * ((1 # 2) - 1) / (Qpower (1 # 2) 4 - 1)).
    split; [vm_compute; reflexivity|]. vm_compute. split; [reflexivity|discriminate].
Qed.




Lemma firstDistributionOfBaseSurplus_geometric_witness :
  ~ (1 # 2) == 1 /\ (0 <= 4)%Z /\
  exists a,
    firstDistributionOfBaseSurplus
      (halfSmoothing (mkRateOffset 0 0 false false) (mkOrderConstraints 7 7) [] 0 0 0 0 None None)
      (Fin 8000) 4%Z = Fin a
    /\ a == 8000 * ((1 # 2) - 1) / (Qpower (1 # 2) 4 - 1)
    /\ geometricSum a (1 # 2) 4 == 8000.
Proof.
  assert (Hr : ~ (1 # 2) == 1) by (intros H; vm_compute in H; discriminate).
  split; [exact Hr|split; [lia|]].
  exact (proj1 (proj2 firstDistributionOfBaseSurplus_geometric)
           (halfSmoothing (mkRateOffset 0 0 false false) (mkOrderConstraints 7 7) [] 0 0 0 0 None None)
           8000 4%Z Hr ltac:(intros H; vm_compute in H; discriminate) ltac:(vm_compute; discriminate)).
Defined.

End TwapFacts.

Module StaticFacts.
Import Levels StaticSpread StaticSpec.
Local Open Scope Q_scope.
Local Open Scope list_scope.

Lemma Qlt_bool_iff (x y : Q) : Qlt_bool x y = true <-> x < y.
Proof.
  unfold Qlt_bool. rewrite negb_true_iff. split.
  - intros H. apply Qnot_le_lt. intros H'. apply Qle_bool_iff in H'. congruence.
  - intros H. destruct (Qle_bool y x) eqn:E; [|reflexivity].
    apply Qle_bool_iff in E. exfalso. apply (Qlt_not_le _ _ H E).
Qed.

Lemma skipped_iff (p : staticSpreadLevelProvider) (price : Q) :
  Qlt_bool 0 (minSellPrice p) && Qlt_bool price (minSellPrice p) = true
  <-> 0 < minSellPrice p /\ price < minSellPrice p.
Proof. rewrite andb_true_iff, !Qlt_bool_iff. reflexivity. Qed.


(** The loop over a concatenation runs the second part from where the
    first one stopped, unless the first one left through its [break]. *)
Lemma levelsLoop_app (p : staticSpreadLevelProvider) (c : Q) (f : capFn) (mb : Q)
    (pre rest : list staticLevel) (levels : list Level) (s : Q) :
  levelsLoop p c f mb (pre ++ rest) levels s =
  match levelsLoop p c f mb pre levels s with
  | (ls, s', true) => (ls, s', true)
  | (ls, s', false) => levelsLoop p c f mb rest ls s'
  end.
Proof.
  revert levels s. induction pre as [|sl pre IH]; intros levels s; [reflexivity|].
  simpl. destruct (Qlt_bool 0 (minSellPrice p) && Qlt_bool (levelPrice p c sl) (minSellPrice p)).
  - apply IH.
  - destruct (Qle_bool (f mb s (levelAmount p sl) (levelPrice p c sl)) 0); [reflexivity|apply IH].
Qed.



(** C9: with the daily-sell check active (a trades database and an asset
    type) and today's sold amount at least [amount * (1 - 0.001)],
    [GetLevels] returns no level and no error; and the level loop stops
    at the first non-skipped level whose capped amount is [<= 0]: the
    levels emitted are those of the levels before it, none after it. *)
Theorem GetLevels_daily_cap :
  (forall p centerPrice dateString maxAssetBase maxAssetQuote db mSold,
     tradesDB p = Some db ->
     maxSoldToday p db dateString = Ok mSold ->
     (assetType (maxDailySell p) = "base"
        /\ amount (maxDailySell p) * (1 - maxSellLimitsTolerancePct) <= sumBaseSold mSold
      \/ assetType (maxDailySell p) = "quote"
        /\ amount (maxDailySell p) * (1 - maxSellLimitsTolerancePct) <= sumQuoteCost mSold) ->
     GetLevels p (Ok centerPrice) dateString maxAssetBase maxAssetQuote = Ok [])
  /\ (forall p centerPrice capAmountFn maxAssetBase pre sl post levels baseAmountSoFar ls s',
        levelsLoop p centerPrice capAmountFn maxAssetBase pre levels baseAmountSoFar = (ls, s', false) ->
        ~ (0 < minSellPrice p /\ levelPrice p centerPrice sl < minSellPrice p) ->
        capAmountFn maxAssetBase s' (levelAmount p sl) (levelPrice p centerPrice sl) <= 0 ->
        levelsLoop p centerPrice capAmountFn maxAssetBase (pre ++ sl :: post) levels baseAmountSoFar
        = (ls, s', true)).
Proof.
  split.
  - intros p cp date mb mq db mSold Hdb Hms Hcross.
    unfold GetLevels, selectCapAmountFn. rewrite Hdb. cbv zeta.
    destruct Hcross as [[Ht Hle]|[Ht Hle]]; rewrite Ht, Hms;
      apply Qle_bool_iff in Hle; cbn -[Qle_bool maxSellLimitsTolerancePct]; rewrite Hle; reflexivity.
  - intros p c f mb pre sl post levels s ls s' Hpre Hns Hcap.
    rewrite levelsLoop_app, Hpre. simpl.
    destruct (Qlt_bool 0 (minSellPrice p) && Qlt_bool (levelPrice p c sl) (minSellPrice p)) eqn:Esk.
    + apply skipped_iff in Esk. contradiction.
    + apply Qle_bool_iff in Hcap. rewrite Hcap. reflexivity.
Qed.

Lemma GetLevels_daily_cap_witness :
  (exists db mSold,
     tradesDB cappedProvider = Some db
     /\ maxSoldToday cappedProvider db "2024-01-01" = Ok mSold
     /\ assetType (maxDailySell cappedProvider) = "base"
     /\ amount (maxDailySell cappedProvider) * (1 - maxSellLimitsTolerancePct) <= sumBaseSold mSold
     /\ GetLevels cappedProvider (Ok 3) "2024-01-01" 100 100 = Ok [])
  /\ (exists ls s',
        let f : capFn := fun _ sofar desired _ => capSellAmountUsingBaseConstraint 0 15 sofar desired 0 in
        let sl := mkStaticLevel 0 1 in
        levelsLoop minPriceProvider 3 f 0 [sl; sl] [] 0 = (ls, s', false)
        /\ ~ (0 < minSellPrice minPriceProvider /\ levelPrice minPriceProvider 3 sl < minSellPrice minPriceProvider)
        /\ f 0 s' (levelAmount minPriceProvider sl) (levelPrice minPriceProvider 3 sl) <= 0
        /\ levelsLoop minPriceProvider 3 f 0 ([sl; sl] ++ sl :: [sl]) [] 0 = (ls, s', true)).
Proof.
  split.
  - destruct (maxSoldToday cappedProvider (constDB (Some (9995 # 100)) None None None) "2024-01-01")
      as [mSold|e] eqn:Ems; [|vm_compute in Ems; discriminate].
    assert (Hle : amount (maxDailySell cappedProvider) * (1 - maxSellLimitsTolerancePct) <= sumBaseSold mSold)
      by (vm_compute in Ems; injection Ems as <-; vm_compute; discriminate).
    exists (constDB (Some (9995 # 100)) None None None), mSold.
    split; [reflexivity|split; [exact Ems|split; [reflexivity|split; [exact Hle|]]]].
    exact (proj1 GetLevels_daily_cap cappedProvider 3 "2024-01-01" 100 100 _ mSold eq_refl Ems
             (or_introl (conj eq_refl Hle))).
  - set (f := (fun _ sofar desired _ => capSellAmountUsingBaseConstraint 0 15 sofar desired 0) : capFn).
    set (sl := mkStaticLevel 0 1).
    destruct (levelsLoop minPriceProvider 3 f 0 [sl; sl] [] 0) as [[ls s'] b] eqn:E.
    destruct b; [vm_compute in E; discriminate|].
    assert (Hns : ~ (0 < minSellPrice minPriceProvider /\ levelPrice minPriceProvider 3 sl < minSellPrice minPriceProvider))
      by (intros [_ H]; vm_compute in H; discriminate).
    assert (Hcap : f 0 s' (levelAmount minPriceProvider sl) (levelPrice minPriceProvider 3 sl) <= 0)
      by (vm_compute in E; injection E as _ <-; vm_compute; discriminate).
    exists ls, s'. split; [exact E|split; [exact Hns|split; [exact Hcap|]]].
    exact (proj2 GetLevels_daily_cap minPriceProvider 3 f 0 [sl; sl] sl [sl] [] 0 ls s' E Hns Hcap).
Defined.



End StaticFacts.

Module TraderFacts.
Import Trader TraderSpec.
Local Open Scope list_scope.

(** C4 (code bug): [update] rebuilds [History] from its own elements
    ([append([]api.Snapshots{}, History...)]) instead of adding an
    element, and [Start] empties [History] first; so the very first
    tick of [Start] indexes [History[0]] of an empty slice and panics. *)
Theorem Start_panics_on_first_tick (env : TraderEnv) (st : State) (n : nat) :
  Start env st (S n) = Panic "index out of range [0] with length 0" [].
Proof. reflexivity. Qed.

Lemma recover_cancels (env : TraderEnv) (h : list Snapshots) (buys sells : list Horizon.Offer)
    (evs : list event) :
  recover env (mkState h buys sells) evs = Return (mkState h [] []) (evs ++ cancelEvents sells buys).
Proof. unfold recover, deleteAllOffers, cancelEvents. simpl. destruct (Nat.ltb _ _); reflexivity. Qed.

Lemma submitted_nil : submitted [] = [].
Proof. reflexivity. Qed.

Ltac open_submit ops :=
  destruct ops as [|? ?]; simpl; try discriminate.

(** C5: when a stage of [update] fails (initial snapshot, [PreUpdate],
    submission of the prune operations, [UpdateWithOps], submission of
    the update operations, final snapshot, [PostUpdate]), the tick ends
    there: its events are those of the stages up to the failing one,
    followed by the submission of the deletions of exactly the cached
    [SellingAOffers] and [BuyingAOffers] (as left by
    [PruneExistingOffers] once it has run), and the caches are emptied. *)
Theorem update_error_cancels_tracked_offers (env : TraderEnv) (h0 : Snapshots)
    (hs : list Snapshots) (buys sells : list Horizon.Offer) (e : string) :
  let st := mkState (h0 :: hs) buys sells in
  (snapshot env st (StartData h0) = Some e ->
     update env st = Return (mkState (h0 :: hs) [] []) ([Snapshot] ++ cancelEvents sells buys))
  /\ (snapshot env st (StartData h0) = None -> PreUpdate env st = Some e ->
      update env st = Return (mkState (h0 :: hs) [] [])
                        ([Snapshot; CallPreUpdate] ++ cancelEvents sells buys))
  /\ (forall pruneOps buys' sells',
      let st' := mkState (h0 :: hs) buys' sells' in
      snapshot env st (StartData h0) = None -> PreUpdate env st = None ->
      PruneExistingOffers env st = (pruneOps, buys', sells') ->
      (pruneOps <> [] -> SubmitOps env pruneOps = Some e ->
         update env st = Return (mkState (h0 :: hs) [] [])
           ([Snapshot; CallPreUpdate; CallPruneExistingOffers; Submit pruneOps]
            ++ cancelEvents sells' buys'))
      /\ (forall ops,
          (pruneOps = [] \/ SubmitOps env pruneOps = None) ->
          let evs := [Snapshot; CallPreUpdate; CallPruneExistingOffers] ++ submitted pruneOps
                     ++ [ResetCachedXlmExposure; CallUpdateWithOps] in
          (UpdateWithOps env st' = (ops, Some e) ->
             update env st = Return (mkState (h0 :: hs) [] []) (evs ++ cancelEvents sells' buys'))
          /\ (UpdateWithOps env st' = (ops, None) ->
              (ops <> [] -> SubmitOps env ops = Some e ->
                 update env st = Return (mkState (h0 :: hs) [] [])
                                   (evs ++ [Submit ops] ++ cancelEvents sells' buys'))
              /\ ((ops = [] \/ SubmitOps env ops = None) ->
                  (snapshot env st' (EndData h0) = Some e ->
                     update env st = Return (mkState (h0 :: hs) [] [])
                       (evs ++ submitted ops ++ [Snapshot] ++ cancelEvents sells' buys'))
                  /\ (snapshot env st' (EndData h0) = None -> PostUpdate env st' = Some e ->
                      update env st = Return (mkState (h0 :: hs) [] [])
                        (evs ++ submitted ops ++ [Snapshot; CallPostUpdate]
                         ++ cancelEvents sells' buys')))))).
Proof.
  intros st. unfold st. clear st.
  split; [intros H; unfold update, withHistory, withOffers; cbn -[recover]; rewrite H; apply recover_cancels|].
  split; [intros H1 H2; unfold update, withHistory, withOffers; cbn -[recover]; rewrite H1, H2; apply recover_cancels|].
  intros pruneOps buys' sells' H1 H2 Hp.
  unfold update, withHistory, withOffers; cbn -[recover submitIfAny]; rewrite H1, H2, Hp.
  split.
  { intros Hne Hs. destruct pruneOps as [|op ops0]; [congruence|].
    unfold submitIfAny. cbn -[recover]. rewrite Hs. apply recover_cancels. }
  intros ops Hpr.
  assert (Hsub : submitIfAny env pruneOps [Snapshot; CallPreUpdate; CallPruneExistingOffers]
                 = ([Snapshot; CallPreUpdate; CallPruneExistingOffers] ++ submitted pruneOps, None)).
  { destruct pruneOps as [|op ops0]; [reflexivity|].
    destruct Hpr as [Hpr|Hpr]; [discriminate|]. unfold submitIfAny. cbn. rewrite Hpr. reflexivity. }
  rewrite Hsub. cbn -[recover submitIfAny submitted].
  split.
  { intros Hu. rewrite Hu. rewrite recover_cancels. cbn [app]. rewrite <- ?app_assoc. reflexivity. }
  intros Hu. rewrite Hu. split.
  { intros Hne Hs. destruct ops as [|op ops1]; [congruence|].
    unfold submitIfAny. cbn -[recover submitted]. rewrite Hs. rewrite recover_cancels.
    cbn [app]. rewrite <- ?app_assoc. reflexivity. }
  intros Hop.
  assert (Hsub2 : forall evs, submitIfAny env ops evs = (evs ++ submitted ops, None)).
  { intros evs. destruct ops as [|op ops1]; [unfold submitIfAny; simpl; rewrite app_nil_r; reflexivity|].
    destruct Hop as [Hop|Hop]; [discriminate|]. unfold submitIfAny. cbn. rewrite Hop. reflexivity. }
  rewrite Hsub2. cbn -[recover submitted].
  split.
  { intros Hs. rewrite Hs, recover_cancels. cbn [app]. rewrite <- ?app_assoc. reflexivity. }
  intros Hs Hpost. rewrite Hs, Hpost, recover_cancels. cbn [app]. rewrite <- ?app_assoc. reflexivity.
Qed.

Lemma update_error_cancels_tracked_offers_witness :
  snapshot failingPreUpdateEnv (mkState [snap0] [o2] [o1]) (StartData snap0) = None
  /\ PreUpdate failingPreUpdateEnv (mkState [snap0] [o2] [o1]) = Some "pre-update failed"
  /\ update failingPreUpdateEnv (mkState [snap0] [o2] [o1])
     = Return (mkState [snap0] [] [])
         ([Snapshot; CallPreUpdate] ++ cancelEvents [o1] [o2])
  /\ cancelEvents [o1] [o2] = [Submit [DeleteOfferMutator o1; DeleteOfferMutator o2]].
Proof.
  split; [reflexivity|split; [reflexivity|split; [|reflexivity]]].
  exact (proj1 (proj2 (update_error_cancels_tracked_offers failingPreUpdateEnv snap0 [] [o2] [o1]
                         "pre-update failed")) eq_refl eq_refl).
Defined.
End TraderFacts.

Module FilterFacts.
Import Txnbuild SubmitFilter FilterSpec.
Local Open Scope list_scope.

(** C6, counterexample: a live offer at the same price as the operation
    (1 and "1") is handed to the filter function before the operation,
    although its price is not strictly lower. *)
Lemma selectOpOrOffer_tie_selects_offer :
  offerPrice (demoOffer 7 "1" 1 1) == 1%Q
  /\ ParseFloat demoEnv (Price (sellOp "1" "5" 0)) = Some 1%Q
  /\ selectOpOrOffer demoEnv [demoOffer 7 "1" 1 1] 0 (sellOp "1" "5" 0) ∅
     = Ok (Some (convertOffer2MSO (demoOffer 7 "1" 1 1)),
           Some (convertOffer2MSO (demoOffer 7 "1" 1 1)), CounterOffer, false).
Proof. split; [reflexivity|split; reflexivity]. Qed.

(** C6, amended: for a create/modify operation and the next live offer on
    its side that is not ignored, the offer is handed to the filter
    function first exactly when its price is at most the operation's
    price (ties go to the live offer); the operation is transformed
    exactly when its price is strictly lower. *)
Theorem selectOpOrOffer_offer_first_unless_op_lower (env : FilterEnv)
    (offerList : list Horizon.Offer) (offerIdx : nat) (mso : ManageSellOffer)
    (ignoreOfferIds : gset Z) (offer : Horizon.Offer) (opPrice : Q) :
  offerList !! offerIdx = Some offer ->
  Horizon.ID offer ∉ ignoreOfferIds ->
  ParseFloat env (Price mso) = Some opPrice ->
  ((offerPrice offer <= opPrice)%Q ->
     selectOpOrOffer env offerList offerIdx mso ignoreOfferIds
     = Ok (Some (convertOffer2MSO offer), Some (convertOffer2MSO offer), CounterOffer, false))
  /\ ((opPrice < offerPrice offer)%Q ->
      selectOpOrOffer env offerList offerIdx mso ignoreOfferIds = Ok (Some mso, None, CounterOp, false)).
Proof.
  intros Hl Hni Hp. unfold selectOpOrOffer. rewrite Hl.
  destruct (decide (Horizon.ID offer ∈ ignoreOfferIds)) as [Hin|_]; [contradiction|].
  rewrite Hp.
  destruct (Qcompare opPrice (offerPrice offer)) eqn:E.
  - apply Qeq_alt in E. split; [reflexivity|]. intros H. exfalso. lra.
  - apply Qlt_alt in E. split; [|reflexivity]. intros H. exfalso. lra.
  - apply Qgt_alt in E. split; [reflexivity|]. intros H. exfalso. lra.
Qed.

Lemma selectOpOrOffer_offer_first_unless_op_lower_witness :
  [demoOffer 7 "1" 1 1] !! 0%nat = Some (demoOffer 7 "1" 1 1)
  /\ (Horizon.ID (demoOffer 7 "1" 1 1) ∉ (∅ : gset Z))
  /\ ParseFloat demoEnv (Price (sellOp "2" "5" 0)) = Some 2%Q
  /\ selectOpOrOffer demoEnv [demoOffer 7 "1" 1 1] 0 (sellOp "2" "5" 0) ∅
     = Ok (Some (convertOffer2MSO (demoOffer 7 "1" 1 1)),
           Some (convertOffer2MSO (demoOffer 7 "1" 1 1)), CounterOffer, false).
Proof.
  assert (Hni : Horizon.ID (demoOffer 7 "1" 1 1) ∉ (∅ : gset Z)) by set_solver.
  split; [reflexivity|split; [exact Hni|split; [reflexivity|]]].
  apply (proj1 (selectOpOrOffer_offer_first_unless_op_lower demoEnv [demoOffer 7 "1" 1 1] 0
                  (sellOp "2" "5" 0) ∅ (demoOffer 7 "1" 1 1) 2%Q eq_refl Hni eq_refl)).
  vm_compute. discriminate.
Defined.

Lemma selectOpOrOffer_Ok (env : FilterEnv) (offerList : list Horizon.Offer) (offerIdx : nat)
    (mso : ManageSellOffer) (ignoreOfferIds : gset Z) t orig c ign :
  selectOpOrOffer env offerList offerIdx mso ignoreOfferIds = Ok (t, orig, c, ign) ->
  (c = CounterOp /\ t = Some mso /\ orig = None /\ ign = false)
  \/ (c = CounterOffer /\ exists offer, offerList !! offerIdx = Some offer
       /\ ((ign = true /\ Horizon.ID offer ∈ ignoreOfferIds)
           \/ (ign = false /\ (Horizon.ID offer ∉ ignoreOfferIds)
               /\ t = Some (convertOffer2MSO offer) /\ orig = Some (convertOffer2MSO offer)))).
Proof.
  unfold selectOpOrOffer. intros H.
  destruct (offerList !! offerIdx) as [offer|] eqn:El; [|injection H as <- <- <- <-; auto].
  destruct (decide (Horizon.ID offer ∈ ignoreOfferIds)) as [Hin|Hni].
  - injection H as <- <- <- <-. right. split; [reflexivity|]. exists offer. auto.
  - destruct (ParseFloat env (Price mso)) as [q|]; [|discriminate].
    destruct (Qcompare q (offerPrice offer)); injection H as <- <- <- <-; [right| left | right];
      try (split; [reflexivity|]); eauto 10.
Qed.

(** How one iteration of the loop ends when it does not fail. *)
Lemma filterStep_Ok (env : FilterEnv) (baseAsset quoteAsset : string)
    (sellingOffers buyingOffers : list Horizon.Offer) (ignoreOfferIds : gset Z) (fn : filterFn)
    (st st' : LoopState) (op : Operation) :
  filterStep env baseAsset quoteAsset sellingOffers buyingOffers ignoreOfferIds fn st op = Ok st' ->
  (exists n, op = OtherOp n
     /\ st' = mkLoopState (S (opIdx st)) (sellIdx st) (buyIdx st) (filteredOps st ++ [op]))
  \/ (exists o isSellOp t orig c ign,
       op = ManageSellOfferOp o
       /\ selectBuySellList env baseAsset quoteAsset o = Ok isSellOp
       /\ selectOpOrOffer env (if isSellOp then sellingOffers else buyingOffers)
            (if isSellOp then sellIdx st else buyIdx st) o ignoreOfferIds = Ok (t, orig, c, ign)
       /\ let st1 := incrementIdx st c isSellOp in
          ((ign = true /\ st' = st1)
           \/ (ign = false /\ exists m, t = Some m /\
                ((Amount m = "0"
                    /\ (st' = appendOp st1 (ManageSellOfferOp m) \/ (orig <> None /\ st' = st1)))
                 \/ (Amount m <> "0" /\ exists n, fn m = Ok (Some n, true)
                      /\ (st' = appendOp st1 (ManageSellOfferOp n) \/ (orig <> None /\ st' = st1)))
                 \/ (Amount m <> "0" /\ exists n, fn m = Ok (Some n, false)
                      /\ st' = prependOp st1 (ManageSellOfferOp n))
                 \/ (Amount m <> "0" /\ fn m = Ok (None, false) /\ st' = st1))))).
Proof.
  intros H. destruct op as [o|n]; [right|left; simpl in H; injection H as <-; eauto].
  simpl in H.
  destruct (selectBuySellList env baseAsset quoteAsset o) as [isSellOp|e] eqn:Esel; [|discriminate].
  destruct (selectOpOrOffer env _ _ o ignoreOfferIds) as [[[[t orig] c] ign]|e] eqn:Eso; [|discriminate].
  exists o, isSellOp, t, orig, c, ign. split; [reflexivity|split; [exact Esel|split; [exact Eso|]]].
  cbv zeta. destruct ign; [left; split; [reflexivity|]; injection H as <-; reflexivity|right].
  split; [reflexivity|].
  destruct t as [m|]; [|discriminate]. exists m. split; [reflexivity|].
  assert (Hkeep : forall n, (match orig with
                            | Some oo => if String.eqb (Price oo) (Price n) && String.eqb (Amount oo) (Amount n)
                                         then Ok (incrementIdx st c isSellOp)
                                         else Ok (appendOp (incrementIdx st c isSellOp) (ManageSellOfferOp n))
                            | None => Ok (appendOp (incrementIdx st c isSellOp) (ManageSellOfferOp n))
                            end = Ok st') ->
                     st' = appendOp (incrementIdx st c isSellOp) (ManageSellOfferOp n)
                     \/ (orig <> None /\ st' = incrementIdx st c isSellOp)).
  { intros n Hn. destruct orig as [oo|]; [|injection Hn as <-; auto].
    destruct (_ && _); injection Hn as <-; [right; split; [discriminate|reflexivity]|left; reflexivity]. }
  destruct (String.eqb (Amount m) "0") eqn:E0.
  - left. apply String.eqb_eq in E0. split; [exact E0|]. apply Hkeep. exact H.
  - apply String.eqb_neq in E0. right.
    destruct (fn m) as [[[n|] keep]|e] eqn:Efn; [| |discriminate].
    + destruct keep.
      * left. split; [exact E0|]. exists n. split; [reflexivity|]. apply Hkeep. exact H.
      * right; left. split; [exact E0|]. exists n. split; [reflexivity|]. injection H as <-. reflexivity.
    + destruct keep; [discriminate|]. right; right. split; [exact E0|]. split; [reflexivity|].
      injection H as <-. reflexivity.
Qed.

(** An invariant kept by every successful iteration holds when the loop
    returns, and the loop only returns once the operations are used up. *)
Lemma filterLoop_inv (env : FilterEnv) (baseAsset quoteAsset : string)
    (sellingOffers buyingOffers : list Horizon.Offer) (ops : list Operation)
    (ignoreOfferIds : gset Z) (fn : filterFn) (I : LoopState -> Prop) :
  (forall st op st', I st -> ops !! opIdx st = Some op ->
     filterStep env baseAsset quoteAsset sellingOffers buyingOffers ignoreOfferIds fn st op = Ok st' ->
     I st') ->
  forall fuel st st', I st ->
    filterLoop env baseAsset quoteAsset sellingOffers buyingOffers ops ignoreOfferIds fn fuel st = Ok st' ->
    I st' /\ ops !! opIdx st' = None.
Proof.
  intros Hstep fuel. induction fuel as [|fuel IH]; intros st st' Hi H; simpl in H;
    destruct (ops !! opIdx st) as [op|] eqn:Eop; try discriminate;
    try (injection H as <-; auto; fail).
  destruct (filterStep _ _ _ _ _ _ _ st op) as [st1|e] eqn:Est; [|discriminate].
  apply (IH st1); [apply (Hstep st op); assumption|exact H].
Qed.

Lemma prependDeletes_app (offers : list Horizon.Offer) (acc : list Operation) :
  prependDeletes offers acc
  = rev (map (fun o => ManageSellOfferOp (dropOp o)) offers) ++ acc.
Proof.
  revert acc. induction offers as [|o rest IH]; intros acc; [reflexivity|].
  simpl. rewrite IH. rewrite <- app_assoc. reflexivity.
Qed.

Lemma take_S_lookup {A} (l : list A) i x : l !! i = Some x -> take (S i) l = take i l ++ [x].
Proof. intros H. apply take_S_r. exact H. Qed.

Section KeptOrder.
Variables (fn : filterFn) (sellingOffers buyingOffers : list Horizon.Offer).

Lemma keptOrder_keep d F x y :
  keptOrderInv fn sellingOffers buyingOffers d F -> keptResult fn x = Some y ->
  keptOrderInv fn sellingOffers buyingOffers (d ++ [x]) (F ++ [y]).
Proof.
  intros (P & A & -> & Hs & Hp) Hk. exists P, (A ++ [y]).
  rewrite omap_app. simpl. rewrite Hk. rewrite <- app_assoc.
  split; [reflexivity|split; [apply sublist_app; [exact Hs|reflexivity]|exact Hp]].
Qed.

Lemma keptOrder_extra d F y :
  keptOrderInv fn sellingOffers buyingOffers d F ->
  keptOrderInv fn sellingOffers buyingOffers d (F ++ [y]).
Proof.
  intros (P & A & -> & Hs & Hp). exists P, (A ++ [y]). rewrite <- app_assoc.
  split; [reflexivity|split; [|exact Hp]].
  rewrite <- (app_nil_r (omap _ d)). apply sublist_app; [exact Hs|apply sublist_nil_l].
Qed.

Lemma keptOrder_skip d F x :
  keptOrderInv fn sellingOffers buyingOffers d F -> keptResult fn x = None ->
  keptOrderInv fn sellingOffers buyingOffers (d ++ [x]) F.
Proof.
  intros (P & A & -> & Hs & Hp) Hk. exists P, A.
  rewrite omap_app. simpl. rewrite Hk, app_nil_r. auto.
Qed.

Lemma keptOrder_prepend d F y :
  keptOrderInv fn sellingOffers buyingOffers d F ->
  prependedOp fn sellingOffers buyingOffers y ->
  keptOrderInv fn sellingOffers buyingOffers d (y :: F).
Proof.
  intros (P & A & -> & Hs & Hp) Hy. exists (y :: P), A. auto.
Qed.
End KeptOrder.

Lemma incrementIdx_filteredOps st c b : filteredOps (incrementIdx st c b) = filteredOps st.
Proof. destruct c; [|destruct b]; reflexivity. Qed.

Lemma incrementIdx_opIdx_offer st b : opIdx (incrementIdx st CounterOffer b) = opIdx st.
Proof. destruct b; reflexivity. Qed.

(** One iteration keeps [keptOrderInv] over the operations consumed so far. *)
Lemma filterStep_keptOrder (env : FilterEnv) (baseAsset quoteAsset : string)
    (sellingOffers buyingOffers : list Horizon.Offer) (ops : list Operation)
    (ignoreOfferIds : gset Z) (fn : filterFn) st op st' :
  ops !! opIdx st = Some op ->
  filterStep env baseAsset quoteAsset sellingOffers buyingOffers ignoreOfferIds fn st op = Ok st' ->
  keptOrderInv fn sellingOffers buyingOffers (take (opIdx st) ops) (filteredOps st) ->
  keptOrderInv fn sellingOffers buyingOffers (take (opIdx st') ops) (filteredOps st').
Proof.
  intros Hop H Hinv.
  apply filterStep_Ok in H.
  destruct H as [(n & -> & ->)|(o & isSellOp & t & orig & c & ign & -> & _ & Hsel & Hcase)].
  { simpl. rewrite (take_S_r _ _ _ Hop). apply keptOrder_keep; [exact Hinv|reflexivity]. }
  cbv zeta in Hcase.
  apply selectOpOrOffer_Ok in Hsel.
  destruct Hsel as [(-> & -> & -> & ->)|(-> & offer & _ & Hoff)].
  - (* the operation itself goes through the filter *)
    destruct Hcase as [[? _]|[_ (m & Hm & Hc)]]; [discriminate|].
    injection Hm as <-.
    destruct Hc as [(H0 & [->|[Hn _]])|[(H0 & n & Hfn & [->|[Hn _]])|[(H0 & n & Hfn & ->)|(H0 & Hfn & ->)]]];
      try (exfalso; apply Hn; reflexivity);
      cbn [opIdx filteredOps appendOp prependOp incrementIdx]; rewrite (take_S_r _ _ _ Hop).
    + apply keptOrder_keep; [exact Hinv|]. simpl. rewrite H0. reflexivity.
    + apply keptOrder_keep; [exact Hinv|].
      simpl. apply String.eqb_neq in H0. rewrite H0, Hfn. reflexivity.
    + apply keptOrder_prepend.
      * apply keptOrder_skip; [exact Hinv|]. simpl.
        apply String.eqb_neq in H0. rewrite H0, Hfn. reflexivity.
      * left. exists n, o. auto.
    + apply keptOrder_skip; [exact Hinv|]. simpl.
      apply String.eqb_neq in H0. rewrite H0, Hfn. reflexivity.
  - (* a live offer goes through the filter; no operation is consumed *)
    destruct Hcase as [[_ ->]|[_ (m & Hm & Hc)]];
      [destruct isSellOp; exact Hinv|].
    destruct Hc as [(H0 & [->|[_ ->]])|[(H0 & n & Hfn & [->|[_ ->]])|[(H0 & n & Hfn & ->)|(H0 & Hfn & ->)]]];
      destruct isSellOp; cbn [opIdx filteredOps appendOp prependOp incrementIdx]; try exact Hinv;
      try (apply keptOrder_extra; exact Hinv);
      (apply keptOrder_prepend; [exact Hinv|]; left; exists n, m; auto).
Qed.

(** [filteredOps] only grows. *)
Lemma filterStep_grows (env : FilterEnv) (baseAsset quoteAsset : string)
    (sellingOffers buyingOffers : list Horizon.Offer) (ignoreOfferIds : gset Z) (fn : filterFn)
    st op st' :
  filterStep env baseAsset quoteAsset sellingOffers buyingOffers ignoreOfferIds fn st op = Ok st' ->
  forall x, x ∈ filteredOps st -> x ∈ filteredOps st'.
Proof.
  intros H x Hx. apply filterStep_Ok in H.
  destruct H as [(n & -> & ->)|(o & isSellOp & t & orig & c & ign & -> & _ & _ & Hcase)].
  { simpl. apply elem_of_app. auto. }
  cbv zeta in Hcase.
  destruct Hcase as [[_ ->]|[_ (m & _ & Hc)]]; [rewrite incrementIdx_filteredOps; exact Hx|].
  destruct Hc as [(_ & [->|[_ ->]])|[(_ & n & _ & [->|[_ ->]])|[(_ & n & _ & ->)|(_ & _ & ->)]]];
    cbn [filteredOps appendOp prependOp]; rewrite incrementIdx_filteredOps;
    rewrite ?elem_of_app, ?elem_of_cons; auto.
Qed.

(** One iteration keeps [deletesReached], for a filter function that
    answers a rejection of a live offer with its deletion. *)
Lemma filterStep_deletesReached (env : FilterEnv) (baseAsset quoteAsset : string)
    (sellingOffers buyingOffers : list Horizon.Offer) (ignoreOfferIds : gset Z) (fn : filterFn)
    st op st' :
  dropsAsDelete fn ->
  filterStep env baseAsset quoteAsset sellingOffers buyingOffers ignoreOfferIds fn st op = Ok st' ->
  deletesReached fn ignoreOfferIds sellingOffers buyingOffers st ->
  deletesReached fn ignoreOfferIds sellingOffers buyingOffers st'.
Proof.
  intros Hfn H Hinv.
  assert (Hmono : forall offer, hasDeleteOf (filteredOps st) offer -> hasDeleteOf (filteredOps st') offer).
  { intros offer (m & Hm & H1 & H2). exists m. split; [|auto].
    apply (filterStep_grows _ _ _ _ _ _ _ _ _ _ H). exact Hm. }
  apply filterStep_Ok in H.
  destruct H as [(n & -> & ->)|(o & isSellOp & t & orig & c & ign & -> & _ & Hsel & Hcase)].
  { intros i offer Hi ? ? ?. apply Hmono. apply (Hinv i); auto. }
  cbv zeta in Hcase.
  assert (Hidx : sellIdx st' = sellIdx (incrementIdx st c isSellOp)
                 /\ buyIdx st' = buyIdx (incrementIdx st c isSellOp)).
  { destruct Hcase as [[_ ->]|[_ (m & _ & Hc)]]; [auto|].
    destruct Hc as [(_ & [->|[_ ->]])|[(_ & n & _ & [->|[_ ->]])|[(_ & n & _ & ->)|(_ & _ & ->)]]];
      auto. }
  apply selectOpOrOffer_Ok in Hsel.
  destruct Hsel as [(-> & _)|(-> & offer & Hl & Hoff)].
  - intros i offer Hi Hid Ham Hrej. apply Hmono. apply (Hinv i); auto.
    destruct Hidx as [Hs Hb]. cbn in Hs, Hb. rewrite Hs, Hb in Hi. exact Hi.
  - (* the live offer just consumed *)
    assert (Hnew : Horizon.ID offer ∉ ignoreOfferIds -> Horizon.Amount offer <> "0" ->
                   rejectedByFilter fn offer -> hasDeleteOf (filteredOps st') offer).
    { intros Hid Ham [x Hrej].
      destruct Hoff as [[-> Hin]|(-> & _ & -> & ->)]; [contradiction|].
      destruct Hcase as [[? _]|[_ (m & Hm & Hc)]]; [discriminate|].
      injection Hm as <-.
      destruct Hc as [(H0 & _)|[(_ & n & Hk & _)|[(_ & n & Hk & ->)|(_ & Hk & _)]]].
      - exfalso. apply Ham. exact H0.
      - rewrite Hrej in Hk. injection Hk as _ ?. discriminate.
      - rewrite Hrej in Hk. injection Hk as ->.
        destruct (Hfn offer (Some n) Hrej) as (m' & Hm' & H0 & Hid').
        injection Hm' as <-. exists n. cbn [filteredOps prependOp].
        split; [apply elem_of_cons; left; reflexivity|auto].
      - rewrite Hrej in Hk. injection Hk as ->.
        destruct (Hfn offer None Hrej) as (m' & Hm' & _). discriminate. }
    destruct Hidx as [Hs Hb].
    intros i o' Hi Hid Ham Hrej.
    destruct isSellOp; cbn in Hs, Hb, Hl; rewrite Hs, Hb in Hi.
    + destruct (decide (i = sellIdx st)) as [->|Hne].
      * destruct Hi as [[_ Hi]|[Hlt Hi]].
        -- rewrite Hl in Hi. injection Hi as <-. auto.
        -- apply Hmono. apply (Hinv (sellIdx st)); auto.
      * apply Hmono. apply (Hinv i); auto.
        destruct Hi as [[Hlt Hi]|Hi]; [left; split; [lia|exact Hi]|right; exact Hi].
    + destruct (decide (i = buyIdx st)) as [->|Hne].
      * destruct Hi as [[Hlt Hi]|[_ Hi]].
        -- apply Hmono. apply (Hinv (buyIdx st)); auto.
        -- rewrite Hl in Hi. injection Hi as <-. auto.
      * apply Hmono. apply (Hinv i); auto.
        destruct Hi as [Hi|[Hlt Hi]]; [left; exact Hi|right; split; [lia|exact Hi]].
Qed.

(** Each successful iteration advances one index past an element that
    exists: the operation, or the live offer it was compared with. *)
Lemma filterStep_progress (env : FilterEnv) (baseAsset quoteAsset : string)
    (sellingOffers buyingOffers : list Horizon.Offer) (ops : list Operation)
    (ignoreOfferIds : gset Z) (fn : filterFn) st op st' :
  ops !! opIdx st = Some op ->
  filterStep env baseAsset quoteAsset sellingOffers buyingOffers ignoreOfferIds fn st op = Ok st' ->
  ((length ops - opIdx st') + (length sellingOffers - sellIdx st') + (length buyingOffers - buyIdx st')
   < (length ops - opIdx st) + (length sellingOffers - sellIdx st) + (length buyingOffers - buyIdx st))%nat.
Proof.
  intros Hop H. apply lookup_lt_Some in Hop.
  apply filterStep_Ok in H.
  destruct H as [(n & -> & ->)|(o & isSellOp & t & orig & c & ign & -> & _ & Hsel & Hcase)];
    [simpl; lia|].
  cbv zeta in Hcase.
  assert (Hidx : opIdx st' = opIdx (incrementIdx st c isSellOp)
                 /\ sellIdx st' = sellIdx (incrementIdx st c isSellOp)
                 /\ buyIdx st' = buyIdx (incrementIdx st c isSellOp)).
  { destruct Hcase as [[_ ->]|[_ (m & _ & Hc)]]; [auto|].
    destruct Hc as [(_ & [->|[_ ->]])|[(_ & n & _ & [->|[_ ->]])|[(_ & n & _ & ->)|(_ & _ & ->)]]];
      auto. }
  destruct Hidx as (Ho & Hs & Hb). rewrite Ho, Hs, Hb.
  apply selectOpOrOffer_Ok in Hsel.
  destruct Hsel as [(-> & _)|(-> & offer & Hl & _)]; [simpl; lia|].
  apply lookup_lt_Some in Hl. destruct isSellOp; simpl in *; lia.
Qed.

(** The bound on the iterations is never reached: with more fuel than
    the remaining operations and offers, [filterLoop] computes the same
    result as with any larger amount. *)
Lemma filterOps_fuel_enough (env : FilterEnv) (baseAsset quoteAsset : string)
    (sellingOffers buyingOffers : list Horizon.Offer) (ops : list Operation)
    (ignoreOfferIds : gset Z) (fn : filterFn) fuel k st :
  ((length ops - opIdx st) + (length sellingOffers - sellIdx st) + (length buyingOffers - buyIdx st)
   <= fuel)%nat ->
  filterLoop env baseAsset quoteAsset sellingOffers buyingOffers ops ignoreOfferIds fn (fuel + k) st
  = filterLoop env baseAsset quoteAsset sellingOffers buyingOffers ops ignoreOfferIds fn fuel st.
Proof.
  revert st. induction fuel as [|fuel IH]; intros st Hm.
  - simpl. destruct (ops !! opIdx st) as [op|] eqn:Eop; [|destruct k; simpl; rewrite Eop; reflexivity].
    apply lookup_lt_Some in Eop. lia.
  - simpl. destruct (ops !! opIdx st) as [op|] eqn:Eop; [|reflexivity].
    destruct (filterStep _ _ _ _ _ _ _ st op) as [st'|e] eqn:Est; [|reflexivity].
    apply IH. pose proof (filterStep_progress _ _ _ _ _ _ _ _ _ _ _ Eop Est). lia.
Qed.

Lemma dropAbove2_dropsAsDelete : dropsAsDelete dropAbove2.
Proof.
  intros offer x. unfold dropAbove2.
  destruct (demoParseFloat _) as [q|]; [|discriminate].
  destruct (Qle_bool 2 q); intros H; injection H as <-; [|discriminate].
  eexists. split; [reflexivity|split; reflexivity].
Qed.

(** Each successful iteration consumes one element, the operation or
    the live offer at the sell or buy index, and adds its contribution. *)
Lemma filterStep_item (env : FilterEnv) (baseAsset quoteAsset : string)
    (sellingOffers buyingOffers : list Horizon.Offer) (ignoreOfferIds : gset Z) (fn : filterFn)
    st op st' :
  filterStep env baseAsset quoteAsset sellingOffers buyingOffers ignoreOfferIds fn st op = Ok st' ->
  exists it,
    ((it = ItemOp op /\ opIdx st' = S (opIdx st) /\ sellIdx st' = sellIdx st /\ buyIdx st' = buyIdx st)
     \/ (exists offer, it = ItemSell offer /\ sellingOffers !! sellIdx st = Some offer
           /\ opIdx st' = opIdx st /\ sellIdx st' = S (sellIdx st) /\ buyIdx st' = buyIdx st)
     \/ (exists offer, it = ItemBuy offer /\ buyingOffers !! buyIdx st = Some offer
           /\ opIdx st' = opIdx st /\ sellIdx st' = sellIdx st /\ buyIdx st' = S (buyIdx st)))
    /\ filteredOps st' = addContrib (itemContrib fn ignoreOfferIds it) (filteredOps st).
Proof.
  intros H. destruct op as [o|n].
  2: { simpl in H. injection H as <-. exists (ItemOp (OtherOp n)).
       split; [left; repeat split|reflexivity]. }
  unfold filterStep in H.
  destruct (selectBuySellList env baseAsset quoteAsset o) as [isSellOp|e]; [|discriminate].
  destruct (selectOpOrOffer env _ _ o ignoreOfferIds) as [[[[t orig] c] ign]|e] eqn:Eso; [|discriminate].
  apply selectOpOrOffer_Ok in Eso.
  destruct Eso as [(-> & -> & -> & ->)|(-> & offer & Hl & [(-> & Hin)|(-> & Hni & -> & ->)])].
  - exists (ItemOp (ManageSellOfferOp o)). cbn [itemContrib opContrib].
    destruct (String.eqb (Amount o) "0") eqn:E0; rewrite ?E0 in H.
    + injection H as <-. split; [left; repeat split|reflexivity].
    + destruct (fn o) as [[[n|] []]|e]; try discriminate; injection H as <-;
        (split; [left; repeat split|reflexivity]).
  - injection H as <-.
    exists (if isSellOp then ItemSell offer else ItemBuy offer).
    destruct isSellOp; unfold itemContrib, offerContrib; rewrite decide_True by exact Hin;
      (split; [|reflexivity]); [right; left|right; right]; exists offer; repeat split; exact Hl.
  - exists (if isSellOp then ItemSell offer else ItemBuy offer).
    assert (Hc : itemContrib fn ignoreOfferIds (if isSellOp then ItemSell offer else ItemBuy offer)
                 = offerContrib fn ignoreOfferIds offer) by (destruct isSellOp; reflexivity).
    rewrite Hc. unfold offerContrib. rewrite decide_False by exact Hni.
    set (m := convertOffer2MSO offer) in *.
    assert (Hidx : forall st'', st'' = incrementIdx st CounterOffer isSellOp
                                \/ (exists x, st'' = appendOp (incrementIdx st CounterOffer isSellOp) x)
                                \/ (exists x, st'' = prependOp (incrementIdx st CounterOffer isSellOp) x) ->
              (isSellOp = true /\ sellingOffers !! sellIdx st = Some offer
                 /\ opIdx st'' = opIdx st /\ sellIdx st'' = S (sellIdx st) /\ buyIdx st'' = buyIdx st)
              \/ (isSellOp = false /\ buyingOffers !! buyIdx st = Some offer
                 /\ opIdx st'' = opIdx st /\ sellIdx st'' = sellIdx st /\ buyIdx st'' = S (buyIdx st))).
    { intros st'' Hs. destruct isSellOp; [left|right];
        (split; [reflexivity|split; [exact Hl|]]);
        destruct Hs as [->|[[x ->]|[x ->]]]; repeat split. }
    assert (Hpos : forall st'', st'' = incrementIdx st CounterOffer isSellOp
                                \/ (exists x, st'' = appendOp (incrementIdx st CounterOffer isSellOp) x)
                                \/ (exists x, st'' = prependOp (incrementIdx st CounterOffer isSellOp) x) ->
              ((if isSellOp then ItemSell offer else ItemBuy offer) = ItemOp (ManageSellOfferOp o)
                 /\ opIdx st'' = S (opIdx st) /\ sellIdx st'' = sellIdx st /\ buyIdx st'' = buyIdx st)
              \/ (exists offer0, (if isSellOp then ItemSell offer else ItemBuy offer) = ItemSell offer0
                   /\ sellingOffers !! sellIdx st = Some offer0
                   /\ opIdx st'' = opIdx st /\ sellIdx st'' = S (sellIdx st) /\ buyIdx st'' = buyIdx st)
              \/ (exists offer0, (if isSellOp then ItemSell offer else ItemBuy offer) = ItemBuy offer0
                   /\ buyingOffers !! buyIdx st = Some offer0
                   /\ opIdx st'' = opIdx st /\ sellIdx st'' = sellIdx st /\ buyIdx st'' = S (buyIdx st))).
    { intros st'' Hs. destruct (Hidx st'' Hs) as [(-> & H1 & H2 & H3 & H4)|(-> & H1 & H2 & H3 & H4)];
        [right; left|right; right]; exists offer; auto. }
    destruct (String.eqb (Amount m) "0") eqn:E0; rewrite ?E0 in H.
    + rewrite !String.eqb_refl in H. cbn in H. injection H as <-.
      split; [apply Hpos; left; reflexivity|destruct isSellOp; reflexivity].
    + destruct (fn m) as [[[n|] []]|e]; try discriminate.
      * destruct (String.eqb (Price m) (Price n) && String.eqb (Amount m) (Amount n)) eqn:Eq;
          rewrite ?Eq in H; injection H as <-.
        -- split; [apply Hpos; left; reflexivity|destruct isSellOp; reflexivity].
        -- split; [apply Hpos; right; left; eexists; reflexivity|destruct isSellOp; reflexivity].
      * injection H as <-. split; [apply Hpos; right; right; eexists; reflexivity|destruct isSellOp; reflexivity].
      * injection H as <-. split; [apply Hpos; left; reflexivity|destruct isSellOp; reflexivity].
Qed.

(** C1, counterexample: two sell operations, priced 1 and 2, with no
    live offers.  The filter keeps the first and answers the second with
    its deletion and [keep = false]; [filterOps] puts that deletion at
    the front, so the output lists the second operation's result before
    the first one's. *)
Lemma filterOps_drop_moves_to_front :
  filterOps demoEnv "f" "XLM" "USD" [] []
    [ManageSellOfferOp (sellOp "1" "5" 0); ManageSellOfferOp (sellOp "2" "5" 0)] dropAbove2
  = Ok [ManageSellOfferOp (sellOp "2" "0" 0); ManageSellOfferOp (sellOp "1" "5" 0)].
Proof. vm_compute. reflexivity. Qed.

(** The loop consumes its elements one at a time: the operations in
    input order, interleaved with a prefix of each offer list, and
    [filteredOps] holds the front contributions in reverse and the back
    contributions in order. *)
Lemma filterLoop_items (env : FilterEnv) (baseAsset quoteAsset : string)
    (sellingOffers buyingOffers : list Horizon.Offer) (ops : list Operation)
    (ignoreOfferIds : gset Z) (fn : filterFn) fuel st' :
  filterLoop env baseAsset quoteAsset sellingOffers buyingOffers ops ignoreOfferIds fn fuel
    (mkLoopState 0 0 0 []) = Ok st' ->
  ops !! opIdx st' = None
  /\ exists items,
    omap itemOp items = take (opIdx st') ops
    /\ omap itemSell items = take (sellIdx st') sellingOffers
    /\ omap itemBuy items = take (buyIdx st') buyingOffers
    /\ filteredOps st' = rev (omap (fun it => frontOf (itemContrib fn ignoreOfferIds it)) items)
                         ++ omap (fun it => backOf (itemContrib fn ignoreOfferIds it)) items.
Proof.
  intros El.
  edestruct (filterLoop_inv env baseAsset quoteAsset sellingOffers buyingOffers ops ignoreOfferIds fn
    (fun st => exists items,
       omap itemOp items = take (opIdx st) ops
       /\ omap itemSell items = take (sellIdx st) sellingOffers
       /\ omap itemBuy items = take (buyIdx st) buyingOffers
       /\ filteredOps st = rev (omap (fun it => frontOf (itemContrib fn ignoreOfferIds it)) items)
                           ++ omap (fun it => backOf (itemContrib fn ignoreOfferIds it)) items))
    as [Hinv Hend]; [| |exact El|split; [exact Hend|exact Hinv]].
  - intros st op st1 (items & Ho & Hs & Hb & HF) Hop Hst.
    destruct (filterStep_item _ _ _ _ _ _ _ _ _ _ Hst) as (it & Hcase & HF1).
    exists (items ++ [it]). rewrite !omap_app.
    split; [|split; [|split]].
    + destruct Hcase as [(-> & H1 & _ & _)|[(offer & -> & _ & H1 & _ & _)|(offer & -> & _ & H1 & _ & _)]];
        rewrite H1; simpl; rewrite ?app_nil_r; [rewrite (take_S_r _ _ _ Hop)|..]; rewrite Ho; reflexivity.
    + destruct Hcase as [(-> & _ & H1 & _)|[(offer & -> & Hl & _ & H1 & _)|(offer & -> & _ & _ & H1 & _)]];
        rewrite H1; simpl; rewrite ?app_nil_r; [|rewrite (take_S_r _ _ _ Hl)|]; rewrite Hs; reflexivity.
    + destruct Hcase as [(-> & _ & _ & H1)|[(offer & -> & _ & _ & _ & H1)|(offer & -> & Hl & _ & _ & H1)]];
        rewrite H1; simpl; rewrite ?app_nil_r; [| |rewrite (take_S_r _ _ _ Hl)]; rewrite Hb; reflexivity.
    + rewrite HF1, HF. simpl.
      destruct (itemContrib fn ignoreOfferIds it) as [|x|x]; simpl; rewrite ?app_nil_r.
      * reflexivity.
      * rewrite rev_app_distr. reflexivity.
      * rewrite app_assoc. reflexivity.
  - exists []. simpl. rewrite !take_0. auto.
Qed.

(** The kept results of the operations form a subsequence of the part
    after a prefix of prepended operations. *)
Lemma filterOps_kept_sublist (env : FilterEnv) (filterName baseAsset quoteAsset : string)
    (sellingOffers buyingOffers : list Horizon.Offer) (ops : list Operation) (fn : filterFn)
    (out : list Operation) :
  filterOps env filterName baseAsset quoteAsset sellingOffers buyingOffers ops fn = Ok out ->
  exists P A, out = P ++ A
    /\ sublist (omap (keptResult fn) ops) A
    /\ Forall (prependedOp fn sellingOffers buyingOffers) P.
Proof.
  unfold filterOps.
  destruct (filterLoop _ _ _ _ _ _ _ _ _ _) as [st|e] eqn:El; [|discriminate].
  intros H. injection H as <-.
  edestruct (filterLoop_inv env baseAsset quoteAsset sellingOffers buyingOffers ops
              (ignoreOfferIDs ops) fn
              (fun st => keptOrderInv fn sellingOffers buyingOffers (take (opIdx st) ops) (filteredOps st)))
    as [(P & A & HF & Hs & Hp) Hend]; [| |exact El|].
  { intros. eapply filterStep_keptOrder; eauto. }
  { exists [], []. simpl. auto using sublist_nil_l. }
  rewrite take_ge in Hs by (apply lookup_ge_None; exact Hend).
  rewrite !prependDeletes_app, HF.
  eexists; exists A. rewrite !app_assoc. split; [reflexivity|split; [exact Hs|]].
  assert (Hd : forall i (l : list Horizon.Offer), (forall o, o ∈ l -> o ∈ sellingOffers ++ buyingOffers) ->
             Forall (prependedOp fn sellingOffers buyingOffers)
               (rev (map (fun o => ManageSellOfferOp (dropOp o)) (drop i l)))).
  { intros i l Hl. apply Forall_rev, Forall_map, Forall_forall.
    intros o Ho. right. exists o. split; [|reflexivity].
    apply Hl. apply (elem_of_sublist (drop i l)); [exact Ho|apply sublist_drop]. }
  repeat apply Forall_app_2; [apply Hd| apply Hd| exact Hp];
    intros o Ho; apply elem_of_app; auto.
Qed.

(** C1, amended: a successful [filterOps] processes the operations in
    input order, interleaved with a prefix of the selling offers and a
    prefix of the buying offers ([items]), then the unreached offers
    (sells, then buys).  Its output is a prefix followed by a tail.  The
    prefix holds, in reverse order of processing, the [newOp] of every
    [(newOp, false)] answer of the filter function and the deletions of
    the unreached offers.  The tail holds, in order of processing, what
    each element keeps: other operations and deletions as they are, the
    [newOp] of a [(newOp, true)] answer to a create/modify, and the
    changed [newOp] the filter keeps for a live offer no operation
    refers to.  So the tail holds the kept results of the operations in
    input order, and an operation turned into a deletion moves ahead of
    earlier ones. *)
Theorem filterOps_kept_in_order (env : FilterEnv) (filterName baseAsset quoteAsset : string)
    (sellingOffers buyingOffers : list Horizon.Offer) (ops : list Operation) (fn : filterFn)
    (out : list Operation) :
  filterOps env filterName baseAsset quoteAsset sellingOffers buyingOffers ops fn = Ok out ->
  (exists items si bi,
     omap itemOp items = ops
     /\ omap itemSell items = take si sellingOffers
     /\ omap itemBuy items = take bi buyingOffers
     /\ out = rev (omap (fun it => frontOf (itemContrib fn (ignoreOfferIDs ops) it)) items
                   ++ unreachedDeletes (drop si sellingOffers)
                   ++ unreachedDeletes (drop bi buyingOffers))
              ++ omap (fun it => backOf (itemContrib fn (ignoreOfferIDs ops) it)) items)
  /\ (exists P A, out = P ++ A
    /\ sublist (omap (keptResult fn) ops) A
    /\ Forall (prependedOp fn sellingOffers buyingOffers) P).
Proof.
  intros H. split; [|exact (filterOps_kept_sublist _ _ _ _ _ _ _ _ _ H)].
  unfold filterOps in H.
  destruct (filterLoop _ _ _ _ _ _ _ _ _ _) as [st|e] eqn:El; [|discriminate].
  injection H as <-.
  destruct (filterLoop_items _ _ _ _ _ _ _ _ _ _ El) as [Hend (items & Ho & Hs & Hb & HF)].
  rewrite take_ge in Ho by (apply lookup_ge_None; exact Hend).
  exists items, (sellIdx st), (buyIdx st).
  split; [exact Ho|split; [exact Hs|split; [exact Hb|]]].
  rewrite !prependDeletes_app, HF. unfold unreachedDeletes.
  rewrite !rev_app_distr, <- !app_assoc. reflexivity.
Qed.

Lemma filterOps_kept_in_order_witness :
  filterOps demoEnv "f" "XLM" "USD" [demoOffer 7 "1" 1 1] []
    [ManageSellOfferOp (sellOp "1" "5" 0); ManageSellOfferOp (sellOp "2" "5" 0)] dropAbove2
  = Ok [ManageSellOfferOp (sellOp "2" "0" 0); ManageSellOfferOp (sellOp "1" "5" 0)]
  /\ (exists items si bi,
     omap itemOp items = [ManageSellOfferOp (sellOp "1" "5" 0); ManageSellOfferOp (sellOp "2" "5" 0)]
     /\ omap itemSell items = take si [demoOffer 7 "1" 1 1]
     /\ omap itemBuy items = take bi []
     /\ [ManageSellOfferOp (sellOp "2" "0" 0); ManageSellOfferOp (sellOp "1" "5" 0)]
        = rev (omap (fun it => frontOf (itemContrib dropAbove2
                   (ignoreOfferIDs [ManageSellOfferOp (sellOp "1" "5" 0); ManageSellOfferOp (sellOp "2" "5" 0)]) it)) items
               ++ unreachedDeletes (drop si [demoOffer 7 "1" 1 1]) ++ unreachedDeletes (drop bi []))
          ++ omap (fun it => backOf (itemContrib dropAbove2
                   (ignoreOfferIDs [ManageSellOfferOp (sellOp "1" "5" 0); ManageSellOfferOp (sellOp "2" "5" 0)]) it)) items)
  /\ (exists P A, [ManageSellOfferOp (sellOp "2" "0" 0); ManageSellOfferOp (sellOp "1" "5" 0)] = P ++ A
    /\ sublist (omap (keptResult dropAbove2)
                 [ManageSellOfferOp (sellOp "1" "5" 0); ManageSellOfferOp (sellOp "2" "5" 0)]) A
    /\ Forall (prependedOp dropAbove2 [demoOffer 7 "1" 1 1] []) P).
Proof.
  assert (H : filterOps demoEnv "f" "XLM" "USD" [demoOffer 7 "1" 1 1] []
                [ManageSellOfferOp (sellOp "1" "5" 0); ManageSellOfferOp (sellOp "2" "5" 0)] dropAbove2
              = Ok [ManageSellOfferOp (sellOp "2" "0" 0); ManageSellOfferOp (sellOp "1" "5" 0)])
    by (vm_compute; reflexivity).
  split; [exact H|].
  exact (filterOps_kept_in_order demoEnv "f" "XLM" "USD" [demoOffer 7 "1" 1 1] []
           [ManageSellOfferOp (sellOp "1" "5" 0); ManageSellOfferOp (sellOp "2" "5" 0)] dropAbove2 _ H).
Defined.

(** C2: once the operations are used up, [filterOps] puts the deletions
    of the live offers the loop has not reached (from the sell and buy
    counters' positions on) in front of everything it has built.  And,
    for a filter function that answers the rejection of a live offer
    with its deletion, every live offer that no input operation refers
    to, that is not itself a deletion and that the filter rejects, is
    deleted by an operation of the output (amount "0", its offer id). *)
Theorem filterOps_unreached_offers_deleted (env : FilterEnv)
    (filterName baseAsset quoteAsset : string)
    (sellingOffers buyingOffers : list Horizon.Offer) (ops : list Operation) (fn : filterFn)
    (out : list Operation) :
  filterOps env filterName baseAsset quoteAsset sellingOffers buyingOffers ops fn = Ok out ->
  (exists st,
      filterLoop env baseAsset quoteAsset sellingOffers buyingOffers ops (ignoreOfferIDs ops) fn
        (length ops + length sellingOffers + length buyingOffers) (mkLoopState 0 0 0 []) = Ok st
      /\ ops !! opIdx st = None
      /\ out = rev (map (fun o => ManageSellOfferOp (dropOp o)) (drop (buyIdx st) buyingOffers))
               ++ rev (map (fun o => ManageSellOfferOp (dropOp o)) (drop (sellIdx st) sellingOffers))
               ++ filteredOps st)
  /\ (dropsAsDelete fn ->
      forall offer, offer ∈ sellingOffers ++ buyingOffers ->
        Horizon.ID offer ∉ ignoreOfferIDs ops -> Horizon.Amount offer <> "0" ->
        rejectedByFilter fn offer -> hasDeleteOf out offer).
Proof.
  unfold filterOps.
  destruct (filterLoop _ _ _ _ _ _ _ _ _ _) as [st|e] eqn:El; [|discriminate].
  intros H. injection H as <-.
  rewrite !prependDeletes_app.
  split.
  { exists st. split; [reflexivity|split; [|reflexivity]].
    edestruct (filterLoop_inv env baseAsset quoteAsset sellingOffers buyingOffers ops
                (ignoreOfferIDs ops) fn (fun _ => True)) as [_ Hend]; [| |exact El|exact Hend];
      auto. }
  intros Hfn offer Hin Hid Ham Hrej.
  edestruct (filterLoop_inv env baseAsset quoteAsset sellingOffers buyingOffers ops
              (ignoreOfferIDs ops) fn
              (deletesReached fn (ignoreOfferIDs ops) sellingOffers buyingOffers))
    as [Hreach _]; [| |exact El|].
  { intros st0 op st1 Hi _ Hs. eapply filterStep_deletesReached; eauto. }
  { intros i o [[Hi _]|[Hi _]]; simpl in Hi; lia. }
  assert (Hkeep : forall x, x ∈ filteredOps st ->
            x ∈ rev (map (fun o => ManageSellOfferOp (dropOp o)) (drop (buyIdx st) buyingOffers))
                ++ rev (map (fun o => ManageSellOfferOp (dropOp o)) (drop (sellIdx st) sellingOffers))
                ++ filteredOps st).
  { intros x Hx. rewrite !elem_of_app. auto. }
  assert (Hdrop : forall l i, offer ∈ drop i l ->
            ManageSellOfferOp (dropOp offer)
              ∈ rev (map (fun o => ManageSellOfferOp (dropOp o)) (drop i l))).
  { intros l i Hl. apply list_elem_of_In. rewrite <- in_rev.
    apply (in_map (fun o => ManageSellOfferOp (dropOp o))). apply list_elem_of_In. exact Hl. }
  apply elem_of_app in Hin as [Hin|Hin];
    apply list_elem_of_lookup in Hin as [i Hi].
  - destruct (decide (i < sellIdx st)) as [Hlt|Hge].
    + destruct (Hreach i offer) as (m & Hm & H1 & H2); auto.
      exists m. auto.
    + exists (dropOp offer). split; [|split; reflexivity].
      rewrite !elem_of_app. right. left. apply Hdrop.
      apply list_elem_of_lookup. exists (i - sellIdx st).
      rewrite lookup_drop. rewrite <- Hi. f_equal. lia.
  - destruct (decide (i < buyIdx st)) as [Hlt|Hge].
    + destruct (Hreach i offer) as (m & Hm & H1 & H2); auto.
      exists m. auto.
    + exists (dropOp offer). split; [|split; reflexivity].
      rewrite !elem_of_app. left. apply Hdrop.
      apply list_elem_of_lookup. exists (i - buyIdx st).
      rewrite lookup_drop. rewrite <- Hi. f_equal. lia.
Qed.

Lemma filterOps_unreached_offers_deleted_witness :
  filterOps demoEnv "f" "XLM" "USD" [demoOffer 7 "1" 1 1; demoOffer 8 "3" 3 1] []
    [ManageSellOfferOp (sellOp "2" "5" 0)] dropAbove2
  = Ok [ManageSellOfferOp (dropOp (demoOffer 8 "3" 3 1)); ManageSellOfferOp (sellOp "2" "0" 0)]
  /\ hasDeleteOf [ManageSellOfferOp (dropOp (demoOffer 8 "3" 3 1)); ManageSellOfferOp (sellOp "2" "0" 0)]
       (demoOffer 8 "3" 3 1).
Proof.
  assert (H : filterOps demoEnv "f" "XLM" "USD" [demoOffer 7 "1" 1 1; demoOffer 8 "3" 3 1] []
                [ManageSellOfferOp (sellOp "2" "5" 0)] dropAbove2
              = Ok [ManageSellOfferOp (dropOp (demoOffer 8 "3" 3 1)); ManageSellOfferOp (sellOp "2" "0" 0)])
    by (vm_compute; reflexivity).
  split; [exact H|].
  apply (proj2 (filterOps_unreached_offers_deleted demoEnv "f" "XLM" "USD"
                  [demoOffer 7 "1" 1 1; demoOffer 8 "3" 3 1] [] [ManageSellOfferOp (sellOp "2" "5" 0)]
                  dropAbove2 _ H) dropAbove2_dropsAsDelete).
  - apply elem_of_app. left. apply elem_of_cons. right. apply elem_of_cons. left. reflexivity.
  - vm_compute. intros Hc. discriminate Hc.
  - vm_compute. discriminate.
  - eexists. vm_compute. reflexivity.
Defined.
End FilterFacts.

Module DagFacts.
Import DataKeys DagSpec.
Local Open Scope list_scope.

Section DepsBeforeOr.
Variable data : gmap DataKey Datum.

Lemma depsBeforeOr_nil P : depsBeforeOr data P [].
Proof. intros l1 x l2 d H. destruct l1; discriminate. Qed.

Lemma depsBeforeOr_weaken (P Q : DataKey -> Prop) out :
  (forall d, P d -> Q d) -> depsBeforeOr data P out -> depsBeforeOr data Q out.
Proof.
  intros HPQ H l1 x l2 d Hout Hd. destruct (H l1 x l2 d Hout Hd); auto.
Qed.

Lemma depsBeforeOr_app (P : DataKey -> Prop) A B :
  depsBeforeOr data P A ->
  depsBeforeOr data (fun d => P d \/ d ∈ A) B ->
  depsBeforeOr data P (A ++ B).
Proof.
  intros HA HB l1 x l2 d Hout Hd.
  destruct (app_eq_inv A B l1 (x :: l2) Hout) as [(k & -> & Hk)|(k & -> & ->)].
  - destruct k as [|y k].
    + simpl in Hk. destruct (HB [] x l2 d (eq_sym Hk) Hd) as [[HP|HA']|Hn];
        [auto|rewrite app_nil_r in HA'; auto|apply elem_of_nil in Hn; contradiction].
    + injection Hk as <- Hk. destruct (HA l1 x k d eq_refl Hd) as [HP|Hl]; auto.
  - destruct (HB k x l2 d eq_refl Hd) as [[HP|HA']|Hk]; auto; right; apply elem_of_app; auto.
Qed.

Lemma depsBeforeOr_single (P : DataKey -> Prop) k :
  (forall d, dependsOn data k d -> P d) -> depsBeforeOr data P [k].
Proof.
  intros H l1 x l2 d Hout Hd. destruct l1 as [|y l1].
  - injection Hout as -> _. auto.
  - injection Hout as _ Hout. destruct l1; discriminate.
Qed.
End DepsBeforeOr.

Section Dag.
Variables (data : gmap DataKey Datum) (input : list DataKey).
Hypothesis Hpres : allPresent data input.
Hypothesis Hacyc : acyclicFrom data input.

Lemma dagLoop_spec f :
  (forall keys T Sk, dagPre data input T Sk keys f ->
     exists out T', dagHelper data f keys T = Ok (out, T') /\ dagPost data input T Sk keys out T') ->
  forall T Stk keys output Tc,
    Tc = T ∪ list_to_set output -> Tc ⊆ dom data -> size data < S f + size T ->
    NoDup output -> (forall x, x ∈ output -> x ∉ T) ->
    depsBeforeOr data (fun d => d ∈ T /\ d ∉ Stk) output ->
    (forall x, x ∈ output -> reachableFrom data input x) ->
    (forall k, k ∈ keys -> reachableFrom data input k) ->
    (forall s k, s ∈ Stk -> k ∈ keys -> tc (dependsOn data) s k) ->
    exists out T', dagLoop data (dagHelper data f) keys output Tc = Ok (out, T')
      /\ (exists l, out = output ++ l) /\ dagPost data input T Stk keys out T'.
Proof.
  intros IH T Stk keys. induction keys as [|key rest IHk];
    intros output Tc HTc Hdom Hsz Hnd Hdisj Hdb Hr Hkr Htc.
  - exists output, Tc. split; [reflexivity|]. split; [exists []; rewrite app_nil_r; reflexivity|].
    repeat split; auto. intros k Hk. apply elem_of_nil in Hk. contradiction.
  - simpl. destruct (decide (key ∈ Tc)) as [Hin|Hnin].
    + destruct (IHk output Tc) as (out & T' & Hrun & [l Hl] & HT' & Hpost); auto.
      { intros k Hk. apply Hkr. apply elem_of_cons. auto. }
      { intros s k Hs Hk. apply Htc; [exact Hs|apply elem_of_cons; auto]. }
      exists out, T'. split; [exact Hrun|]. split; [exists l; exact Hl|].
      destruct Hpost as (Hnd' & Hdisj' & Hdb' & Hkeys & Hr').
      repeat split; auto.
      intros k Hk. apply elem_of_cons in Hk as [->|Hk]; [|auto].
      subst. set_solver.
    + assert (Hkey : reachableFrom data input key) by (apply Hkr; apply elem_of_cons; auto).
      destruct (Hpres key Hkey) as [datum Hdatum]. rewrite Hdatum.
      assert (Hdep : forall d, d ∈ DirectDependencies datum -> dependsOn data key d)
        by (intros d Hd; exists datum; auto).
      destruct (IH (DirectDependencies datum) ({[key]} ∪ Tc) ({[key]} ∪ Stk))
        as (sub & T'' & Hrec & HT'' & Hnds & Hdisjs & Hdbs & Hkeyss & Hrs).
      { split; [|split; [|split]].
        - intros d Hd. destruct Hkey as (i & Hi & Hrtc). exists i. split; [exact Hi|].
          apply rtc_r with key; auto.
        - intros s d Hs Hd. apply elem_of_union in Hs as [Hs|Hs].
          + apply elem_of_singleton in Hs as ->. apply tc_once. auto.
          + apply tc_r with key; auto. apply Htc; [exact Hs|apply elem_of_cons; auto].
        - intros x Hx. apply elem_of_union in Hx as [Hx|Hx]; [|auto].
          apply elem_of_singleton in Hx as ->. apply elem_of_dom. eauto.
        - rewrite size_union by set_solver. rewrite size_singleton.
          assert (size T <= size Tc) by (apply subseteq_size; rewrite HTc; set_solver).
          lia. }
      rewrite Hrec.
      destruct (IHk (output ++ sub ++ [key]) T'') as (out & T' & Hrun & [l Hl] & HT' & Hpost).
      { rewrite HT'', HTc, !list_to_set_app_L. set_solver. }
      { rewrite HT''. intros x Hx. apply elem_of_union in Hx as [Hx|Hx].
        - apply elem_of_union in Hx as [Hx|Hx]; [|auto].
          apply elem_of_singleton in Hx as ->. apply elem_of_dom. eauto.
        - apply elem_of_list_to_set in Hx. apply elem_of_dom. apply Hpres. auto. }
      { exact Hsz. }
      { apply NoDup_app. split; [exact Hnd|split].
        - intros x Hx Hx'. apply elem_of_app in Hx' as [Hx'|Hx'].
          + apply (Hdisjs x Hx'). rewrite HTc. set_solver.
          + apply list_elem_of_singleton in Hx' as ->. apply Hnin. rewrite HTc. set_solver.
        - apply NoDup_app. split; [exact Hnds|split; [|apply NoDup_singleton]].
          intros x Hx Hx'. apply list_elem_of_singleton in Hx' as ->.
          apply (Hdisjs key Hx). set_solver. }
      { intros x Hx. apply elem_of_app in Hx as [Hx|Hx]; [auto|].
        apply elem_of_app in Hx as [Hx|Hx].
        - intros HxT. apply (Hdisjs x Hx). rewrite HTc. set_solver.
        - apply list_elem_of_singleton in Hx as ->. intros HxT. apply Hnin. rewrite HTc. set_solver. }
      { apply depsBeforeOr_app; [exact Hdb|]. apply depsBeforeOr_app.
        - eapply depsBeforeOr_weaken; [|exact Hdbs]. cbv beta.
          intros d [Hd1 Hd2]. rewrite HTc in Hd1.
          destruct (decide (d ∈ output)) as [Ho|Ho]; [right; exact Ho|left].
          rewrite !elem_of_union, elem_of_list_to_set in Hd1.
          set_solver.
        - apply depsBeforeOr_single. intros d (datum' & Hdatum' & Hd).
          rewrite Hdatum in Hdatum'. injection Hdatum' as <-.
          assert (HdT := Hkeyss d Hd). rewrite HT'', HTc in HdT.
          destruct (decide (d = key)) as [->|Hne].
          { exfalso. apply (Hacyc key Hkey). apply tc_once. auto. }
          destruct (decide (d ∈ Stk)) as [HS|HS].
          { exfalso. apply (Hacyc key Hkey). apply tc_l with d; [auto|].
            apply Htc; [exact HS|apply elem_of_cons; auto]. }
          rewrite !elem_of_union, elem_of_singleton, !elem_of_list_to_set in HdT.
          tauto. }
      { intros x Hx. apply elem_of_app in Hx as [Hx|Hx]; [auto|].
        apply elem_of_app in Hx as [Hx|Hx]; [auto|].
        apply list_elem_of_singleton in Hx as ->. exact Hkey. }
      { intros k Hk. apply Hkr. apply elem_of_cons. auto. }
      { intros s k Hs Hk. apply Htc; [exact Hs|apply elem_of_cons; auto]. }
      exists out, T'. split; [exact Hrun|].
      split; [exists (sub ++ [key] ++ l); rewrite Hl; rewrite <- !app_assoc; reflexivity|].
      destruct Hpost as (Hnd' & Hdisj' & Hdb' & Hkeys & Hr').
      split; [exact HT'|]. split; [exact Hnd'|].
      split; [exact Hdisj'|].
      split; [exact Hdb'|]. split; [|exact Hr'].
      intros k Hk. apply elem_of_cons in Hk as [->|Hk]; [|auto].
      rewrite HT', Hl. set_solver.
Qed.

Lemma dagHelper_spec fuel :
  forall keys T Sk, dagPre data input T Sk keys fuel ->
    exists out T', dagHelper data fuel keys T = Ok (out, T') /\ dagPost data input T Sk keys out T'.
Proof.
  induction fuel as [|f IH]; intros keys T Sk (Hkr & Htc & Hdom & Hsz);
    (destruct keys as [|k0 rest];
     [exists [], T; split; [reflexivity|];
      split; [set_solver|]; split; [apply NoDup_nil_2|]; split; [set_solver|];
      split; [apply depsBeforeOr_nil|]; split; set_solver|]).
  - exfalso. apply subseteq_size in Hdom. rewrite size_dom in Hdom. lia.
  - simpl.
    destruct (dagLoop_spec f IH T Sk (k0 :: rest) [] T) as (out & T' & Hrun & _ & Hpost);
      auto; [set_solver|apply NoDup_nil_2|set_solver|apply depsBeforeOr_nil|set_solver|].
    exists out, T'. auto.
Qed.
End Dag.

Lemma allPresent_of_closed (data : gmap DataKey Datum) (input : list DataKey) :
  Forall (fun k => is_Some (data !! k)) input ->
  map_Forall (fun _ datum => Forall (fun d => is_Some (data !! d)) (DirectDependencies datum)) data ->
  allPresent data input.
Proof.
  intros Hin Hcl k (i & Hi & Hrtc).
  rewrite Forall_forall in Hin. specialize (Hin i Hi). clear Hi.
  induction Hrtc as [x|x y z (datum & Hx & Hy) _ IHr]; [exact Hin|].
  apply IHr. specialize (Hcl x datum Hx). simpl in Hcl.
  rewrite Forall_forall in Hcl. auto.
Qed.

Lemma acyclicFrom_of_rank (data : gmap DataKey Datum) (input : list DataKey) (rank : DataKey -> nat) :
  map_Forall (fun k datum => Forall (fun d => rank d < rank k) (DirectDependencies datum)) data ->
  acyclicFrom data input.
Proof.
  intros Hr k _ Htc.
  assert (Hlt : forall x y, tc (dependsOn data) x y -> rank y < rank x).
  { intros x y H. induction H as [x y (datum & Hx & Hy)|x y z (datum & Hx & Hy) _ IHt].
    - specialize (Hr x datum Hx). simpl in Hr. rewrite Forall_forall in Hr. auto.
    - specialize (Hr x datum Hx). simpl in Hr. rewrite Forall_forall in Hr.
      specialize (Hr y Hy). lia. }
  specialize (Hlt k k Htc). lia.
Qed.

(** C10: when every key below [input] is present in [InitializedData]
    and the dependency graph below [input] has no cycle,
    [MakeDataKeysDag] succeeds, and its output holds each input key and
    each of their transitive dependencies, exactly once, every key after
    all of its direct dependencies. *)
Theorem MakeDataKeysDag_topological (InitializedData : gmap DataKey Datum) (input : list DataKey) :
  allPresent InitializedData input ->
  acyclicFrom InitializedData input ->
  exists out, MakeDataKeysDag InitializedData input = Ok out
    /\ NoDup out
    /\ (forall k, k ∈ out <-> reachableFrom InitializedData input k)
    /\ depsBefore InitializedData out.
Proof.
  intros Hpres Hacyc.
  destruct (dagHelper_spec InitializedData input Hpres Hacyc (S (size InitializedData)) input ∅ ∅)
    as (out & T' & Hrun & HT' & Hnd & _ & Hdb & Hkeys & Hr).
  { split; [|split; [|split]].
    - intros k Hk. exists k. split; [exact Hk|apply rtc_refl].
    - intros s k Hs. set_solver.
    - set_solver.
    - rewrite size_empty. lia. }
  unfold MakeDataKeysDag. rewrite Hrun.
  assert (Hclosed : forall x d, x ∈ out -> dependsOn InitializedData x d -> d ∈ out).
  { intros x d Hx Hd. apply list_elem_of_split in Hx as (l1 & l2 & Hsplit).
    destruct (Hdb l1 x l2 d Hsplit Hd) as [[HdT _]|Hl1]; [set_solver|].
    rewrite Hsplit. apply elem_of_app. auto. }
  exists out. split; [reflexivity|]. split; [exact Hnd|]. split.
  - intros k. split; [apply Hr|]. intros (i & Hi & Hrtc).
    assert (Hi' : i ∈ out) by (specialize (Hkeys i Hi); set_solver).
    clear Hi. induction Hrtc as [x|x y z Hxy _ IHr]; [exact Hi'|].
    apply IHr. apply (Hclosed x y Hi' Hxy).
  - intros i k d Hk Hd.
    pose proof (take_drop_middle out i k Hk) as Hsplit.
    destruct (Hdb (take i out) k (drop (S i) out) d (eq_sym Hsplit) Hd) as [[HdT _]|Hl1];
      [set_solver|].
    apply list_elem_of_lookup in Hl1 as [j Hj].
    apply lookup_take_Some in Hj as [Hj Hlt]. exists j. auto.
Qed.

Lemma MakeDataKeysDag_topological_witness :
  MakeDataKeysDag demoData [4; 2] = Ok [3; 2; 1; 4]
  /\ exists out, MakeDataKeysDag demoData [4; 2] = Ok out
    /\ NoDup out
    /\ (forall k, k ∈ out <-> reachableFrom demoData [4; 2] k)
    /\ depsBefore demoData out.
Proof.
  split; [vm_compute; reflexivity|].
  apply MakeDataKeysDag_topological.
  - apply allPresent_of_closed;
      match goal with |- ?P => apply (bool_decide_unpack P) end; vm_compute; exact I.
  - apply (acyclicFrom_of_rank _ _ demoRank).
    match goal with |- ?P => apply (bool_decide_unpack P) end; vm_compute; exact I.
Defined.
End DagFacts.

Module FilterExtra.
Import Txnbuild SubmitFilter FilterSpec FilterSpecX FilterFacts.
Local Open Scope list_scope.

Lemma ignoreOfferIDs_fold (ops : list Operation) (acc : gset Z) (id : Z) :
  id ∈ fold_left (fun acc op =>
    match op with
    | ManageSellOfferOp o => {[ OfferID o ]} ∪ acc
    | OtherOp _ => acc
    end) ops acc
  <-> id ∈ acc \/ exists m, ManageSellOfferOp m ∈ ops /\ OfferID m = id.
Proof.
  revert acc. induction ops as [|op ops IH]; intros acc; simpl.
  - split; [auto|]. intros [H|(m & Hm & _)]; [exact H|apply elem_of_nil in Hm; contradiction].
  - rewrite IH. destruct op as [o|n].
    + rewrite elem_of_union, elem_of_singleton. split.
      * intros [[->|H]|(m & Hm & <-)]; [right; exists o; split; [left|reflexivity]|left; exact H|].
        right. exists m. split; [right; exact Hm|reflexivity].
      * intros [H|(m & Hm & <-)]; [auto|]. apply elem_of_cons in Hm as [Hm|Hm].
        -- injection Hm as ->. auto.
        -- right. eauto.
    + split.
      * intros [H|(m & Hm & <-)]; [auto|]. right. exists m. split; [right; exact Hm|reflexivity].
      * intros [H|(m & Hm & <-)]; [auto|]. apply elem_of_cons in Hm as [Hm|Hm]; [discriminate|].
        right. eauto.
Qed.

(** The ids whose offers [filterOps] leaves alone are exactly the offer
    ids of the ManageSellOffer operations handed in. *)
Theorem ignoreOfferIDs_spec (ops : list Operation) (id : Z) :
  id ∈ ignoreOfferIDs ops <-> exists m, ManageSellOfferOp m ∈ ops /\ OfferID m = id.
Proof.
  unfold ignoreOfferIDs. rewrite ignoreOfferIDs_fold. split; [|auto].
  intros [H|H]; [apply elem_of_empty in H; contradiction|exact H].
Qed.

(** With no operations, [filterOps] deletes every live offer: the
    deletions of the buying offers, last one first, then those of the
    selling offers, last one first. *)
Theorem filterOps_no_ops (env : FilterEnv) (filterName baseAsset quoteAsset : string)
    (sellingOffers buyingOffers : list Horizon.Offer) (fn : filterFn) :
  filterOps env filterName baseAsset quoteAsset sellingOffers buyingOffers [] fn
  = Ok (rev (map (fun o => ManageSellOfferOp (dropOp o)) buyingOffers)
        ++ rev (map (fun o => ManageSellOfferOp (dropOp o)) sellingOffers)).
Proof.
  unfold filterOps.
  destruct (length [] + length sellingOffers + length buyingOffers); simpl;
    rewrite !prependDeletes_app, app_nil_r; reflexivity.
Qed.

Lemma filterStep_no_offers (env : FilterEnv) (baseAsset quoteAsset : string)
    (ignoreOfferIds : gset Z) (fn : filterFn) (st : LoopState) (op : Operation) :
  opSucceeds env baseAsset quoteAsset fn op ->
  filterStep env baseAsset quoteAsset [] [] ignoreOfferIds fn st op
  = Ok (mkLoopState (S (opIdx st)) (sellIdx st) (buyIdx st)
          (from_option (fun n => n :: filteredOps st) (filteredOps st) (droppedResult fn op)
           ++ from_option (fun n => [n]) [] (keptResult fn op))).
Proof.
  destruct op as [o|n]; [|intros _; reflexivity].
  intros [[isSellOp Hsel] Hfn]. simpl. rewrite Hsel.
  assert (Hso : selectOpOrOffer env (if isSellOp then [] else []) (if isSellOp then sellIdx st else buyIdx st)
                  o ignoreOfferIds = Ok (Some o, None, CounterOp, false))
    by (destruct isSellOp; reflexivity).
  rewrite Hso. cbv zeta. cbn [incrementIdx].
  destruct (String.eqb (Amount o) "0") eqn:E0.
  - cbn. rewrite ?app_nil_r; reflexivity.
  - apply String.eqb_neq in E0. destruct (Hfn E0) as ([[n|] keep] & Hr & Hne); rewrite Hr.
    + destruct keep; cbn; rewrite ?app_nil_r; reflexivity.
    + destruct keep; [contradiction|]. cbn. rewrite ?app_nil_r; reflexivity.
Qed.

Lemma filterLoop_no_offers (env : FilterEnv) (baseAsset quoteAsset : string)
    (ops : list Operation) (ignoreOfferIds : gset Z) (fn : filterFn) :
  Forall (opSucceeds env baseAsset quoteAsset fn) ops ->
  forall fuel i s b F, length ops <= i + fuel ->
    filterLoop env baseAsset quoteAsset [] [] ops ignoreOfferIds fn fuel (mkLoopState i s b F)
    = Ok (mkLoopState (Nat.max i (length ops)) s b
            (rev (omap (droppedResult fn) (drop i ops)) ++ F ++ omap (keptResult fn) (drop i ops))).
Proof.
  intros Hall fuel. induction fuel as [|fuel IH]; intros i s b F Hlen; simpl.
  - rewrite lookup_ge_None_2 by lia. rewrite drop_ge by lia. simpl.
    rewrite app_nil_r. f_equal. f_equal. lia.
  - destruct (ops !! i) as [op|] eqn:Eop.
    + rewrite filterStep_no_offers by (rewrite Forall_lookup in Hall; eauto).
      cbn [opIdx sellIdx buyIdx filteredOps].
      pose proof (lookup_lt_Some _ _ _ Eop) as Hi.
      rewrite IH by lia. rewrite (drop_S _ _ _ Eop).
      f_equal. f_equal; [lia|]. simpl.
      destruct (droppedResult fn op) as [d|]; destruct (keptResult fn op) as [k|];
        simpl; rewrite <- !app_assoc; reflexivity.
    + apply lookup_ge_None in Eop. rewrite drop_ge by lia. simpl.
      rewrite app_nil_r. f_equal. f_equal. lia.
Qed.

(** With no live offers, and when classifying every ManageSellOffer
    succeeds and the filter function neither fails nor asks to keep a nil
    operation, [filterOps] returns what the filter function dropped
    ([keep = false] with an operation), last one first, followed by
    what every operation contributes when kept, in input order. *)
Theorem filterOps_no_offers (env : FilterEnv) (filterName baseAsset quoteAsset : string)
    (ops : list Operation) (fn : filterFn) :
  Forall (opSucceeds env baseAsset quoteAsset fn) ops ->
  filterOps env filterName baseAsset quoteAsset [] [] ops fn
  = Ok (rev (omap (droppedResult fn) ops) ++ omap (keptResult fn) ops).
Proof.
  intros Hall. unfold filterOps.
  rewrite (filterLoop_no_offers env baseAsset quoteAsset ops _ fn Hall) by lia.
  reflexivity.
Qed.

Lemma filterStep_counts (env : FilterEnv) (baseAsset quoteAsset : string)
    (sellingOffers buyingOffers : list Horizon.Offer) (ops : list Operation)
    (ignoreOfferIds : gset Z) (fn : filterFn) st op st' :
  ops !! opIdx st = Some op ->
  filterStep env baseAsset quoteAsset sellingOffers buyingOffers ignoreOfferIds fn st op = Ok st' ->
  (opIdx st <= length ops /\ sellIdx st <= length sellingOffers /\ buyIdx st <= length buyingOffers
   /\ length (filteredOps st) <= opIdx st + sellIdx st + buyIdx st)%nat ->
  (opIdx st' <= length ops /\ sellIdx st' <= length sellingOffers /\ buyIdx st' <= length buyingOffers
   /\ length (filteredOps st') <= opIdx st' + sellIdx st' + buyIdx st')%nat.
Proof.
  intros Hop H (Ho & Hs & Hb & Hf). apply lookup_lt_Some in Hop.
  apply filterStep_Ok in H.
  destruct H as [(n & -> & ->)|(o & isSellOp & t & orig & c & ign & -> & _ & Hsel & Hcase)].
  { simpl. rewrite length_app. simpl. lia. }
  cbv zeta in Hcase.
  assert (Hidx : opIdx st' = opIdx (incrementIdx st c isSellOp)
                 /\ sellIdx st' = sellIdx (incrementIdx st c isSellOp)
                 /\ buyIdx st' = buyIdx (incrementIdx st c isSellOp)
                 /\ (length (filteredOps st') <= S (length (filteredOps st)))%nat).
  { destruct Hcase as [[_ ->]|[_ (m & _ & Hc)]];
      [rewrite incrementIdx_filteredOps; auto|].
    destruct Hc as [(_ & [->|[_ ->]])|[(_ & n & _ & [->|[_ ->]])|[(_ & n & _ & ->)|(_ & _ & ->)]]];
      cbn [opIdx sellIdx buyIdx filteredOps appendOp prependOp]; rewrite ?length_app, ?length_cons;
      rewrite incrementIdx_filteredOps; simpl; repeat split; lia. }
  destruct Hidx as (Ho' & Hs' & Hb' & Hf'). rewrite Ho', Hs', Hb'.
  apply selectOpOrOffer_Ok in Hsel.
  destruct Hsel as [(-> & _)|(-> & offer & Hl & _)]; [simpl; lia|].
  apply lookup_lt_Some in Hl. destruct isSellOp; simpl in *; lia.
Qed.

(** [filterOps] never multiplies operations: its output has at most one
    operation per input operation and per live offer. *)
Theorem filterOps_length_bound (env : FilterEnv) (filterName baseAsset quoteAsset : string)
    (sellingOffers buyingOffers : list Horizon.Offer) (ops : list Operation) (fn : filterFn)
    (out : list Operation) :
  filterOps env filterName baseAsset quoteAsset sellingOffers buyingOffers ops fn = Ok out ->
  (length out <= length ops + length sellingOffers + length buyingOffers)%nat.
Proof.
  unfold filterOps.
  destruct (filterLoop _ _ _ _ _ _ _ _ _ _) as [st|e] eqn:El; [|discriminate].
  intros H. injection H as <-.
  edestruct (filterLoop_inv env baseAsset quoteAsset sellingOffers buyingOffers ops
              (ignoreOfferIDs ops) fn
              (fun st => opIdx st <= length ops /\ sellIdx st <= length sellingOffers
                         /\ buyIdx st <= length buyingOffers
                         /\ length (filteredOps st) <= opIdx st + sellIdx st + buyIdx st)%nat)
    as [(Ho & Hs & Hb & Hf) _]; [| |exact El|].
  { intros. eapply filterStep_counts; eauto. }
  { simpl. lia. }
  rewrite !prependDeletes_app, !length_app, !length_rev, !length_map, !length_drop. lia.
Qed.

(** The operations consumed by a successful loop were all classified,
    and the filter function answered each create/modify among them. *)
Lemma filterStep_consumed (env : FilterEnv) (baseAsset quoteAsset : string)
    (sellingOffers buyingOffers : list Horizon.Offer) (ops : list Operation)
    (ignoreOfferIds : gset Z) (fn : filterFn) st op st' :
  ops !! opIdx st = Some op ->
  filterStep env baseAsset quoteAsset sellingOffers buyingOffers ignoreOfferIds fn st op = Ok st' ->
  (forall i o, (i < opIdx st)%nat -> ops !! i = Some (ManageSellOfferOp o) ->
     ~ opFails env baseAsset quoteAsset fn (ManageSellOfferOp o)) ->
  (forall i o, (i < opIdx st')%nat -> ops !! i = Some (ManageSellOfferOp o) ->
     ~ opFails env baseAsset quoteAsset fn (ManageSellOfferOp o)).
Proof.
  intros Hop H Hinv.
  apply filterStep_Ok in H.
  destruct H as [(n & -> & ->)|(o & isSellOp & t & orig & c & ign & -> & Hbs & Hsel & Hcase)].
  { simpl. intros i o Hi Hio. destruct (decide (i = opIdx st)) as [->|Hne].
    - rewrite Hop in Hio. discriminate.
    - apply (Hinv i); [lia|exact Hio]. }
  cbv zeta in Hcase.
  assert (Hidx : opIdx st' = opIdx (incrementIdx st c isSellOp)).
  { destruct Hcase as [[_ ->]|[_ (m & _ & Hc)]]; [auto|].
    destruct Hc as [(_ & [->|[_ ->]])|[(_ & n & _ & [->|[_ ->]])|[(_ & n & _ & ->)|(_ & _ & ->)]]];
      auto. }
  rewrite Hidx.
  apply selectOpOrOffer_Ok in Hsel.
  destruct Hsel as [(-> & -> & -> & ->)|(-> & _)]; [|rewrite incrementIdx_opIdx_offer; exact Hinv].
  simpl. intros i o' Hi Hio. destruct (decide (i = opIdx st)) as [->|Hne]; [|apply (Hinv i); [lia|exact Hio]].
  rewrite Hop in Hio. injection Hio as <-.
  destruct Hcase as [[? _]|[_ (m & Hm & Hc)]]; [discriminate|]. injection Hm as <-.
  intros [[e He]|[H0 [e He]]]; [rewrite Hbs in He; discriminate|].
  destruct Hc as [(H0' & _)|[(_ & n & Hk & _)|[(_ & n & Hk & _)|(_ & Hk & _)]]];
    [contradiction|rewrite He in Hk; discriminate..].
Qed.

(** An error on any operation fails the whole call: if classifying a
    ManageSellOffer as a buy or a sell fails, or the filter function
    fails on a create/modify, [filterOps] returns an error, whatever the
    live offers. *)
Theorem filterOps_op_error_fails (env : FilterEnv) (filterName baseAsset quoteAsset : string)
    (sellingOffers buyingOffers : list Horizon.Offer) (ops : list Operation) (fn : filterFn)
    (op : Operation) :
  op ∈ ops -> opFails env baseAsset quoteAsset fn op ->
  exists e, filterOps env filterName baseAsset quoteAsset sellingOffers buyingOffers ops fn = Err e.
Proof.
  intros Hin Hfail. unfold filterOps.
  destruct (filterLoop _ _ _ _ _ _ _ _ _ _) as [st|e] eqn:El; [exfalso|eauto].
  edestruct (filterLoop_inv env baseAsset quoteAsset sellingOffers buyingOffers ops
              (ignoreOfferIDs ops) fn
              (fun st => forall i o, (i < opIdx st)%nat -> ops !! i = Some (ManageSellOfferOp o) ->
                 ~ opFails env baseAsset quoteAsset fn (ManageSellOfferOp o)))
    as [Hinv Hend]; [| |exact El|].
  { intros. eapply filterStep_consumed; eauto. }
  { simpl. intros. lia. }
  apply lookup_ge_None in Hend.
  apply list_elem_of_lookup in Hin as [i Hi].
  destruct op as [o|n]; [|exact Hfail].
  apply (Hinv i o); [apply lookup_lt_Some in Hi; lia|exact Hi|exact Hfail].
Qed.

Lemma filterOps_no_offers_witness :
  Forall (opSucceeds demoEnv "XLM" "USD" dropAbove2)
    [ManageSellOfferOp (sellOp "1" "5" 0); OtherOp 3; ManageSellOfferOp (sellOp "2" "5" 0)]
  /\ filterOps demoEnv "f" "XLM" "USD" [] []
       [ManageSellOfferOp (sellOp "1" "5" 0); OtherOp 3; ManageSellOfferOp (sellOp "2" "5" 0)] dropAbove2
     = Ok (rev (omap (droppedResult dropAbove2)
                 [ManageSellOfferOp (sellOp "1" "5" 0); OtherOp 3; ManageSellOfferOp (sellOp "2" "5" 0)])
           ++ omap (keptResult dropAbove2)
                 [ManageSellOfferOp (sellOp "1" "5" 0); OtherOp 3; ManageSellOfferOp (sellOp "2" "5" 0)]).
Proof.
  assert (H : Forall (opSucceeds demoEnv "XLM" "USD" dropAbove2)
                [ManageSellOfferOp (sellOp "1" "5" 0); OtherOp 3; ManageSellOfferOp (sellOp "2" "5" 0)]).
  { constructor; [|constructor; [exact I|constructor; [|constructor]]];
      cbn [opSucceeds]; (split; [eexists; vm_compute; reflexivity
                              |intros _; eexists; split; [vm_compute; reflexivity|discriminate]]). }
  split; [exact H|]. exact (filterOps_no_offers demoEnv "f" "XLM" "USD" _ dropAbove2 H).
Defined.

Lemma filterOps_length_bound_witness :
  filterOps demoEnv "f" "XLM" "USD" [demoOffer 7 "1" 1 1; demoOffer 8 "3" 3 1] []
    [ManageSellOfferOp (sellOp "2" "5" 0)] dropAbove2
  = Ok [ManageSellOfferOp (dropOp (demoOffer 8 "3" 3 1)); ManageSellOfferOp (sellOp "2" "0" 0)]
  /\ (length [ManageSellOfferOp (dropOp (demoOffer 8 "3" 3 1)); ManageSellOfferOp (sellOp "2" "0" 0)]
      <= length [ManageSellOfferOp (sellOp "2" "5" 0)]
         + length [demoOffer 7 "1" 1 1; demoOffer 8 "3" 3 1] + length (@nil Horizon.Offer))%nat.
Proof.
  assert (H : filterOps demoEnv "f" "XLM" "USD" [demoOffer 7 "1" 1 1; demoOffer 8 "3" 3 1] []
                [ManageSellOfferOp (sellOp "2" "5" 0)] dropAbove2
              = Ok [ManageSellOfferOp (dropOp (demoOffer 8 "3" 3 1)); ManageSellOfferOp (sellOp "2" "0" 0)])
    by (vm_compute; reflexivity).
  split; [exact H|]. exact (filterOps_length_bound _ _ _ _ _ _ _ _ _ H).
Defined.

Lemma filterOps_op_error_fails_witness :
  opFails demoEnv "XLM" "USD" dropAbove2 (ManageSellOfferOp (sellOp "x" "5" 1))
  /\ exists e, filterOps demoEnv "f" "XLM" "USD" [] []
       [ManageSellOfferOp (sellOp "1" "5" 0); ManageSellOfferOp (sellOp "x" "5" 1)] dropAbove2 = Err e.
Proof.
  assert (H : opFails demoEnv "XLM" "USD" dropAbove2 (ManageSellOfferOp (sellOp "x" "5" 1)))
    by (right; split; [discriminate|eexists; reflexivity]).
  split; [exact H|].
  apply (filterOps_op_error_fails demoEnv "f" "XLM" "USD" [] []
           [ManageSellOfferOp (sellOp "1" "5" 0); ManageSellOfferOp (sellOp "x" "5" 1)] dropAbove2
           (ManageSellOfferOp (sellOp "x" "5" 1))); [|exact H].
  apply elem_of_cons. right. apply elem_of_cons. left. reflexivity.
Defined.

End FilterExtra.

Module TraderExtra.
Import Trader TraderSpec TraderLoad TraderLoadSpec.
Local Open Scope list_scope.

(** A tick on which every stage succeeds, with a history at least as
    long as the strategy's [MaxHistory]: [update] takes the start
    snapshot, runs [PreUpdate] and [PruneExistingOffers], submits the
    prune operations if there are any, resets the cached XLM exposure,
    runs [UpdateWithOps], submits its operations if there are any, takes
    the end snapshot and runs [PostUpdate], in that order; it returns
    with the cached offers [PruneExistingOffers] handed back and the
    history unchanged. *)
Theorem update_all_stages_succeed (env : TraderEnv) (h0 : Snapshots) (rest : list Snapshots)
    (buys sells buys' sells' : list Horizon.Offer) (pruneOps ops : list TransactionMutator) :
  snapshot env (mkState (h0 :: rest) buys sells) (StartData h0) = None ->
  PreUpdate env (mkState (h0 :: rest) buys sells) = None ->
  PruneExistingOffers env (mkState (h0 :: rest) buys sells) = (pruneOps, buys', sells') ->
  (pruneOps = [] \/ SubmitOps env pruneOps = None) ->
  UpdateWithOps env (mkState (h0 :: rest) buys' sells') = (ops, None) ->
  (ops = [] \/ SubmitOps env ops = None) ->
  snapshot env (mkState (h0 :: rest) buys' sells') (EndData h0) = None ->
  PostUpdate env (mkState (h0 :: rest) buys' sells') = None ->
  (MaxHistory env <= Z.of_nat (length (h0 :: rest)))%Z ->
  update env (mkState (h0 :: rest) buys sells)
  = Return (mkState (h0 :: rest) buys' sells')
      ([Snapshot; CallPreUpdate; CallPruneExistingOffers] ++ submitted pruneOps
       ++ [ResetCachedXlmExposure; CallUpdateWithOps] ++ submitted ops ++ [Snapshot; CallPostUpdate]).
Proof.
  intros Hs HP Hpr Hsp Hu Hsu He Hpo Hmax.
  unfold update, withHistory. cbn [app History BuyingAOffers SellingAOffers lookup list_lookup StartData].
  rewrite Hs, HP, Hpr. cbn [withOffers History].
  assert (Hsub : forall l evs, (l = [] \/ SubmitOps env l = None) ->
            submitIfAny env l evs = (evs ++ submitted l, None)).
  { intros l evs [->|Hl]; unfold submitIfAny, submitted; [rewrite app_nil_r; reflexivity|].
    destruct (Nat.ltb 0 (length l)); [rewrite Hl; reflexivity|rewrite app_nil_r; reflexivity]. }
  rewrite (Hsub _ _ Hsp). unfold withOffers. cbn [History]. rewrite Hu. rewrite (Hsub _ _ Hsu).
  cbn [lookup list_lookup History]. rewrite He, Hpo.
  unfold pruneHistory. cbn [History].
  destruct (Z.ltb_spec (Z.of_nat (length (h0 :: rest))) (MaxHistory env)); [lia|].
  f_equal. rewrite <- !app_assoc. reflexivity.
Qed.

Lemma update_all_stages_succeed_witness :
  update okEnv (mkState [snap0] [o2] [o1])
  = Return (mkState [snap0] [o2] [])
      ([Snapshot; CallPreUpdate; CallPruneExistingOffers] ++ submitted [DeleteOfferMutator o1]
       ++ [ResetCachedXlmExposure; CallUpdateWithOps] ++ submitted [Mutator 7] ++ [Snapshot; CallPostUpdate]).
Proof.
  apply update_all_stages_succeed; try reflexivity; try (right; reflexivity); simpl; lia.
Defined.

Lemma loadData_step {D} (InitializedData : gmap string D) (Load : D -> option string) :
  forall Keys m,
    let '(m', err) := loadData InitializedData Load Keys m in
    (err = None <-> Forall (fun k => exists d, InitializedData !! k = Some d /\ Load d = None) Keys)
    /\ (forall k, m' !! k = m !! k \/ (k ∈ Keys /\ m' !! k = InitializedData !! k))
    /\ (err = None -> forall k, k ∈ Keys -> m' !! k = InitializedData !! k).
Proof.
  induction Keys as [|k rest IH]; intros m; simpl.
  - split; [split; auto|]. split; [auto|]. intros _ k Hk. apply elem_of_nil in Hk. contradiction.
  - destruct (InitializedData !! k) as [d|] eqn:Ek.
    + destruct (Load d) as [e|] eqn:El.
      * split; [|split; [auto|discriminate]].
        split; [discriminate|]. intros Hf. apply Forall_cons in Hf as [(d' & Hd' & Hl') _].
        rewrite Ek in Hd'. injection Hd' as <-. congruence.
      * specialize (IH (<[k := d]> m)).
        destruct (loadData InitializedData Load rest (<[k := d]> m)) as [m' err].
        destruct IH as (Hiff & Hm & Hall). split; [|split].
        -- rewrite Hiff. rewrite Forall_cons. split; [eauto|intros [_ H]; exact H].
        -- intros k'. destruct (Hm k') as [H|[Hin H]].
           ++ destruct (decide (k' = k)) as [->|Hne].
              ** right. split; [apply elem_of_cons; auto|]. rewrite H, lookup_insert_eq. auto.
              ** left. rewrite H, lookup_insert_ne by congruence. reflexivity.
           ++ right. split; [apply elem_of_cons; auto|exact H].
        -- intros Hn k' Hk'. destruct (decide (k' ∈ rest)) as [Hin|Hnin]; [apply Hall; auto|].
           destruct (Hm k') as [H|[Hin H]]; [|contradiction].
           apply elem_of_cons in Hk' as [->|Hk']; [|contradiction].
           rewrite H, lookup_insert_eq. auto.
    + split; [|split; [auto|discriminate]].
      split; [discriminate|]. intros Hf. apply Forall_cons in Hf as [(d' & Hd' & _) _].
      congruence.
Qed.

(** [loadData] succeeds exactly when every key has an initialized datum
    whose [Load] succeeds; it only ever writes the keys of [Keys], each
    with its initialized datum, and on success all of them are written. *)
Theorem loadData_spec {D} (InitializedData : gmap string D) (Load : D -> option string)
    (Keys : list string) (m : gmap string D) :
  (snd (loadData InitializedData Load Keys m) = None
   <-> Forall (fun k => exists d, InitializedData !! k = Some d /\ Load d = None) Keys)
  /\ (forall k, fst (loadData InitializedData Load Keys m) !! k = m !! k
        \/ (k ∈ Keys /\ fst (loadData InitializedData Load Keys m) !! k = InitializedData !! k))
  /\ (snd (loadData InitializedData Load Keys m) = None ->
      forall k, k ∈ Keys -> fst (loadData InitializedData Load Keys m) !! k = InitializedData !! k).
Proof.
  pose proof (loadData_step InitializedData Load Keys m) as H.
  destruct (loadData InitializedData Load Keys m) as [m' err]. exact H.
Qed.

Lemma balancesLoop_last (env : BalanceEnv) (AssetBase AssetQuote : horizonAsset) :
  forall balances maxA maxB trustA trustB,
  balancesLoop env AssetBase AssetQuote balances maxA maxB trustA trustB
  = mkDataTransient
      (from_option (balanceAmount env) maxA (last (List.filter (isBase env AssetBase) balances)))
      (from_option (balanceAmount env) maxB (last (List.filter (isQuoteOnly env AssetBase AssetQuote) balances)))
      (from_option (balanceTrust env) trustA (last (List.filter (isBase env AssetBase) balances)))
      (from_option (balanceTrust env) trustB (last (List.filter (isQuoteOnly env AssetBase AssetQuote) balances))).
Proof.
  assert (Hlast : forall {A} (x : A) l, last (x :: l) = match last l with Some y => Some y | None => Some x end).
  { intros A x l. destruct l as [|y l]; [reflexivity|].
    change (last (x :: y :: l)) with (last (y :: l)).
    destruct (last (y :: l)) eqn:E; [reflexivity|]. apply last_None in E. discriminate. }
  induction balances as [|b rest IH]; intros maxA maxB trustA trustB; [reflexivity|].
  cbn [balancesLoop List.filter].
  change (isBase env AssetBase b) with (AssetsEqual env (Asset b) AssetBase).
  change (isQuoteOnly env AssetBase AssetQuote b)
    with (negb (AssetsEqual env (Asset b) AssetBase) && AssetsEqual env (Asset b) AssetQuote).
  destruct (AssetsEqual env (Asset b) AssetBase); [|destruct (AssetsEqual env (Asset b) AssetQuote)];
    cbn [negb andb]; rewrite IH, ?Hlast;
    destruct (last (List.filter (isBase env AssetBase) rest));
    destruct (last (List.filter (isQuoteOnly env AssetBase AssetQuote) rest)); reflexivity.
Qed.

(** Once the account is loaded, [loadBalances] takes the base asset's
    amount and trust from the last balance of the base asset, and the
    quote asset's from the last balance of the quote asset that is not
    also the base asset; the trust of a native asset is [maxLumenTrust]
    whatever its limit, and an asset without a balance gets 0. *)
Theorem loadBalances_last_balance (env : BalanceEnv) (TradingAccount : string)
    (AssetBase AssetQuote : horizonAsset) (balances : list horizonBalance) :
  LoadAccount env TradingAccount = Ok balances ->
  loadBalances env TradingAccount AssetBase AssetQuote
  = Ok (mkDataTransient
      (from_option (balanceAmount env) 0%Q (last (List.filter (isBase env AssetBase) balances)))
      (from_option (balanceAmount env) 0%Q (last (List.filter (isQuoteOnly env AssetBase AssetQuote) balances)))
      (from_option (balanceTrust env) 0%Q (last (List.filter (isBase env AssetBase) balances)))
      (from_option (balanceTrust env) 0%Q (last (List.filter (isQuoteOnly env AssetBase AssetQuote) balances)))).
Proof.
  intros H. unfold loadBalances. rewrite H, balancesLoop_last. reflexivity.
Qed.

Lemma loadBalances_last_balance_witness :
  LoadAccount (demoBalanceEnv [mkBalance "5" "0" xlm; mkBalance "7" "100" usd; mkBalance "9" "0" xlm]) "GBOT"
    = Ok [mkBalance "5" "0" xlm; mkBalance "7" "100" usd; mkBalance "9" "0" xlm]
  /\ loadBalances (demoBalanceEnv [mkBalance "5" "0" xlm; mkBalance "7" "100" usd; mkBalance "9" "0" xlm])
       "GBOT" xlm usd
     = Ok (mkDataTransient 9 7 maxLumenTrust 100)%Q.
Proof.
  split; [reflexivity|].
  rewrite (loadBalances_last_balance
             (demoBalanceEnv [mkBalance "5" "0" xlm; mkBalance "7" "100" usd; mkBalance "9" "0" xlm])
             "GBOT" xlm usd
             [mkBalance "5" "0" xlm; mkBalance "7" "100" usd; mkBalance "9" "0" xlm] eq_refl).
  vm_compute. reflexivity.
Defined.
End TraderExtra.

Module DagExtra.
Import DataKeys DagSpec DagSpecX.
Local Open Scope list_scope.

Section Sound.
Variables (data : gmap DataKey Datum)
  (rec : list DataKey -> gset DataKey -> result (list DataKey * gset DataKey)).
Hypothesis Hrec : forall keys T out T', rec keys T = Ok (out, T') -> dagSound data T keys out T'.

Lemma dagLoop_sound (T : gset DataKey) :
  forall keys output Tc out T',
    Tc = T ∪ list_to_set output -> NoDup output -> (forall x, x ∈ output -> x ∉ T) ->
    (forall x, x ∈ output -> x ∈ dom data) ->
    (forall x d, x ∈ output -> dependsOn data x d -> d ∈ Tc) ->
    dagLoop data rec keys output Tc = Ok (out, T') ->
    (exists l, out = output ++ l) /\ dagSound data T keys out T'.
Proof.
  induction keys as [|key rest IHk]; intros output Tc out T' HTc Hnd Hdisj Hdom Hcl Hrun.
  - simpl in Hrun. injection Hrun as <- <-. split; [exists []; rewrite app_nil_r; reflexivity|].
    repeat split; auto. intros k Hk. apply elem_of_nil in Hk. contradiction.
  - simpl in Hrun. destruct (decide (key ∈ Tc)) as [Hin|Hnin].
    + destruct (IHk output Tc out T' HTc Hnd Hdisj Hdom Hcl Hrun)
        as ([l Hl] & HT' & Hnd' & Hdisj' & Hkeys & Hdom' & Hcl').
      split; [exists l; exact Hl|]. repeat split; auto.
      intros k Hk. apply elem_of_cons in Hk as [->|Hk]; [|auto].
      rewrite HT', Hl, list_to_set_app_L. rewrite HTc in Hin. set_solver.
    + destruct (data !! key) as [datum|] eqn:Ed; [|discriminate].
      destruct (rec (DirectDependencies datum) ({[key]} ∪ Tc)) as [[sub T'']|e] eqn:Er;
        [|discriminate].
      destruct (Hrec _ _ _ _ Er) as (HT'' & Hnds & Hdisjs & Hkeyss & Hdoms & Hcls).
      assert (Hkd : key ∈ dom data) by (apply elem_of_dom; eauto).
      destruct (IHk (output ++ sub ++ [key]) T'' out T') as ([l Hl] & HT' & Hnd' & Hdisj' & Hkeys & Hdom' & Hcl');
        [| | | | |exact Hrun|].
      { rewrite HT'', HTc, !list_to_set_app_L. set_solver. }
      { apply NoDup_app. split; [exact Hnd|split].
        - intros x Hx Hx'. apply elem_of_app in Hx' as [Hx'|Hx'].
          + apply (Hdisjs x Hx'). rewrite HTc. set_solver.
          + apply list_elem_of_singleton in Hx' as ->. apply Hnin. rewrite HTc. set_solver.
        - apply NoDup_app. split; [exact Hnds|split; [|apply NoDup_singleton]].
          intros x Hx Hx'. apply list_elem_of_singleton in Hx' as ->.
          apply (Hdisjs key Hx). set_solver. }
      { intros x Hx. apply elem_of_app in Hx as [Hx|Hx]; [auto|].
        apply elem_of_app in Hx as [Hx|Hx].
        - intros HxT. apply (Hdisjs x Hx). rewrite HTc. set_solver.
        - apply list_elem_of_singleton in Hx as ->. intros HxT. apply Hnin. rewrite HTc. set_solver. }
      { intros x Hx. apply elem_of_app in Hx as [Hx|Hx]; [auto|].
        apply elem_of_app in Hx as [Hx|Hx]; [auto|].
        apply list_elem_of_singleton in Hx as ->. exact Hkd. }
      { intros x d Hx Hd. apply elem_of_app in Hx as [Hx|Hx].
        - specialize (Hcl x d Hx Hd). rewrite HT''. set_solver.
        - apply elem_of_app in Hx as [Hx|Hx]; [exact (Hcls x d Hx Hd)|].
          apply list_elem_of_singleton in Hx as ->.
          destruct Hd as (datum' & Hd' & Hd). rewrite Ed in Hd'. injection Hd' as <-. auto. }
      split; [exists (sub ++ [key] ++ l); rewrite Hl, <- !app_assoc; reflexivity|].
      repeat split; auto.
      intros k Hk. apply elem_of_cons in Hk as [->|Hk]; [|auto].
      rewrite HT', Hl, !list_to_set_app_L. set_solver.
Qed.
End Sound.

Lemma dagHelper_sound (data : gmap DataKey Datum) :
  forall fuel keys T out T', dagHelper data fuel keys T = Ok (out, T') -> dagSound data T keys out T'.
Proof.
  induction fuel as [|f IH]; intros keys T out T' Hrun;
    (destruct keys as [|k0 rest];
     [simpl in Hrun; injection Hrun as <- <-;
      split; [set_solver|]; split; [apply NoDup_nil_2|]; split; [set_solver|];
      split; [set_solver|]; split; set_solver|]).
  - discriminate.
  - simpl in Hrun.
    destruct (dagLoop_sound data (dagHelper data f) IH T (k0 :: rest) [] T out T')
      as [_ Hs]; auto; [set_solver|apply NoDup_nil_2|set_solver|set_solver|set_solver].
Qed.

(** Whatever the dependency graph, cycles included, a successful
    [MakeDataKeysDag] returns every key once, every input key among
    them, only keys present in [InitializedData], and with every key
    all of its direct dependencies. *)
Theorem MakeDataKeysDag_sound (InitializedData : gmap DataKey Datum) (input out : list DataKey) :
  MakeDataKeysDag InitializedData input = Ok out ->
  NoDup out
  /\ (forall k, k ∈ input -> k ∈ out)
  /\ (forall k, k ∈ out -> k ∈ dom InitializedData)
  /\ (forall k d, k ∈ out -> dependsOn InitializedData k d -> d ∈ out).
Proof.
  unfold MakeDataKeysDag.
  destruct (dagHelper _ _ input ∅) as [[out' T']|e] eqn:Er; [|discriminate].
  intros H. injection H as <-.
  destruct (dagHelper_sound _ _ _ _ _ _ Er) as (HT' & Hnd & _ & Hkeys & Hdom & Hcl).
  split; [exact Hnd|]. split; [|split; [exact Hdom|]].
  - intros k Hk. specialize (Hkeys k Hk). rewrite HT' in Hkeys. set_solver.
  - intros k d Hk Hd. specialize (Hcl k d Hk Hd). rewrite HT' in Hcl. set_solver.
Qed.

Section Complete.
Variables (data : gmap DataKey Datum) (input : list DataKey).
Hypothesis Hpres : allPresent data input.

Lemma dagLoop_complete f :
  (forall keys T, T ⊆ dom data -> (forall k, k ∈ keys -> reachableFrom data input k) ->
     size data < f + size T ->
     exists out T', dagHelper data f keys T = Ok (out, T') /\ T ⊆ T' /\ T' ⊆ dom data) ->
  forall keys output Tc, Tc ⊆ dom data -> (forall k, k ∈ keys -> reachableFrom data input k) ->
    size data < S f + size Tc ->
    exists out T', dagLoop data (dagHelper data f) keys output Tc = Ok (out, T')
      /\ Tc ⊆ T' /\ T' ⊆ dom data.
Proof.
  intros IH keys. induction keys as [|key rest IHk]; intros output Tc Hdom Hkr Hsz.
  - exists output, Tc. split; [reflexivity|]. set_solver.
  - simpl. destruct (decide (key ∈ Tc)) as [Hin|Hnin].
    + apply IHk; auto. intros k Hk. apply Hkr. apply elem_of_cons. auto.
    + assert (Hkey : reachableFrom data input key) by (apply Hkr; apply elem_of_cons; auto).
      destruct (Hpres key Hkey) as [datum Hdatum]. rewrite Hdatum.
      assert (Hkd : key ∈ dom data) by (apply elem_of_dom; eauto).
      destruct (IH (DirectDependencies datum) ({[key]} ∪ Tc)) as (sub & T'' & Hr & HT1 & HT2).
      { set_solver. }
      { intros d Hd. destruct Hkey as (i & Hi & Hrtc). exists i. split; [exact Hi|].
        apply rtc_r with key; [exact Hrtc|]. exists datum. auto. }
      { rewrite size_union by set_solver. rewrite size_singleton. lia. }
      rewrite Hr.
      destruct (IHk (output ++ sub ++ [key]) T'') as (out & T' & Hrun & HT3 & HT4); auto.
      { intros k Hk. apply Hkr. apply elem_of_cons. auto. }
      { assert (size Tc <= size T'') by (apply subseteq_size; set_solver). lia. }
      exists out, T'. split; [exact Hrun|]. set_solver.
Qed.

Lemma dagHelper_complete fuel :
  forall keys T, T ⊆ dom data -> (forall k, k ∈ keys -> reachableFrom data input k) ->
    size data < fuel + size T ->
    exists out T', dagHelper data fuel keys T = Ok (out, T') /\ T ⊆ T' /\ T' ⊆ dom data.
Proof.
  induction fuel as [|f IH]; intros keys T Hdom Hkr Hsz;
    (destruct keys as [|k0 rest]; [exists [], T; split; [reflexivity|set_solver]|]).
  - exfalso. apply subseteq_size in Hdom. rewrite size_dom in Hdom. lia.
  - exact (dagLoop_complete f IH (k0 :: rest) [] T Hdom Hkr Hsz).
Qed.
End Complete.

(** [MakeDataKeysDag] succeeds exactly when every key below the input
    (the input keys and their transitive dependencies) is present in
    [InitializedData]; a cycle in the dependencies does not make it fail. *)
Theorem MakeDataKeysDag_ok_iff_present (InitializedData : gmap DataKey Datum) (input : list DataKey) :
  (exists out, MakeDataKeysDag InitializedData input = Ok out) <-> allPresent InitializedData input.
Proof.
  split.
  - intros [out Hout]. destruct (MakeDataKeysDag_sound _ _ _ Hout) as (_ & Hin & Hdom & Hcl).
    intros k (i & Hi & Hrtc). apply elem_of_dom. apply Hdom.
    specialize (Hin i Hi). clear Hi.
    induction Hrtc as [x|x y z Hxy _ IHr]; [exact Hin|]. apply IHr. apply (Hcl x y Hin Hxy).
  - intros Hpres. unfold MakeDataKeysDag.
    destruct (dagHelper_complete InitializedData input Hpres (S (size InitializedData)) input ∅)
      as (out & T' & Hr & _); [set_solver| |rewrite size_empty; lia|].
    + intros k Hk. exists k. split; [exact Hk|apply rtc_refl].
    + rewrite Hr. eauto.
Qed.

Lemma dagLoop_all_traversed (data : gmap DataKey Datum) rec :
  forall keys output T, (forall k, k ∈ keys -> k ∈ T) -> dagLoop data rec keys output T = Ok (output, T).
Proof.
  induction keys as [|k rest IH]; intros output T Hk; [reflexivity|].
  simpl. destruct (decide (k ∈ T)) as [_|Hn]; [|exfalso; apply Hn; apply Hk; apply elem_of_cons; auto].
  apply IH. intros k' Hk'. apply Hk. apply elem_of_cons. auto.
Qed.

Lemma dagLoop_fixpoint (data : gmap DataKey Datum) (f : nat) :
  forall rest p, NoDup (p ++ rest) -> depsBefore data (p ++ rest) ->
    (forall k, k ∈ rest -> k ∈ dom data) ->
    dagLoop data (dagHelper data (S f)) rest p (list_to_set p) = Ok (p ++ rest, list_to_set (p ++ rest)).
Proof.
  induction rest as [|k rest IH]; intros p Hnd Hdb Hdom.
  - rewrite !app_nil_r. reflexivity.
  - cbn [dagLoop]. destruct (decide (k ∈ (list_to_set p : gset DataKey))) as [Hin|Hnin].
    { exfalso. apply elem_of_list_to_set in Hin. apply NoDup_app in Hnd as (_ & Hd & _).
      apply (Hd k Hin). apply elem_of_cons. auto. }
    assert (Hk : k ∈ dom data) by (apply Hdom; apply elem_of_cons; auto).
    apply elem_of_dom in Hk as [datum Hdatum]. rewrite Hdatum.
    assert (Hdeps : forall d, d ∈ DirectDependencies datum -> d ∈ ({[k]} ∪ list_to_set p : gset DataKey)).
    { intros d Hd.
      assert (Hi : (p ++ k :: rest) !! length p = Some k) by (rewrite lookup_app_r, Nat.sub_diag by lia; reflexivity).
      destruct (Hdb (length p) k d Hi) as (j & Hj & Hjd); [exists datum; auto|].
      rewrite lookup_app_l in Hjd by lia.
      apply elem_of_union. right. apply elem_of_list_to_set. apply list_elem_of_lookup. eauto. }
    assert (Hr : dagHelper data (S f) (DirectDependencies datum) ({[k]} ∪ list_to_set p)
                 = Ok ([], {[k]} ∪ list_to_set p)).
    { destruct (DirectDependencies datum) as [|d0 ds] eqn:Eds; [reflexivity|].
      exact (dagLoop_all_traversed data (dagHelper data f) (d0 :: ds) [] _ Hdeps). }
    rewrite Hr. cbn [app].
    replace ({[k]} ∪ list_to_set p : gset DataKey) with (list_to_set (p ++ [k]) : gset DataKey)
      by (rewrite list_to_set_app_L; set_solver).
    rewrite (IH (p ++ [k])); rewrite <- ?app_assoc; auto.
    intros k' Hk'. apply Hdom. apply elem_of_cons. auto.
Qed.

(** A list of distinct keys, all present, in which every key comes
    after its direct dependencies, is returned unchanged by
    [MakeDataKeysDag]. *)
Theorem MakeDataKeysDag_fixpoint (InitializedData : gmap DataKey Datum) (keys : list DataKey) :
  NoDup keys -> depsBefore InitializedData keys ->
  (forall k, k ∈ keys -> k ∈ dom InitializedData) ->
  MakeDataKeysDag InitializedData keys = Ok keys.
Proof.
  intros Hnd Hdb Hdom. unfold MakeDataKeysDag.
  destruct keys as [|k0 rest]; [reflexivity|].
  assert (Hsz : 0 < size InitializedData).
  { assert (Hk : k0 ∈ dom InitializedData) by (apply Hdom; apply elem_of_cons; auto).
    rewrite <- size_dom. destruct (decide (size (dom InitializedData) = 0)) as [H0|]; [|lia].
    apply size_empty_inv in H0. set_solver. }
  destruct (size InitializedData) as [|f] eqn:Es; [lia|].
  change (dagHelper InitializedData (S (S f)) (k0 :: rest) ∅)
    with (dagLoop InitializedData (dagHelper InitializedData (S f)) (k0 :: rest) [] (list_to_set [])).
  rewrite (dagLoop_fixpoint InitializedData f (k0 :: rest) []); auto.
Qed.

Lemma MakeDataKeysDag_sound_witness :
  MakeDataKeysDag cyclicData [1; 1] = Ok [2; 1]
  /\ NoDup [2; 1]
  /\ (forall k, k ∈ [1; 1] -> k ∈ [2; 1])
  /\ (forall k, k ∈ [2; 1] -> k ∈ dom cyclicData)
  /\ (forall k d, k ∈ [2; 1] -> dependsOn cyclicData k d -> d ∈ [2; 1]).
Proof.
  assert (H : MakeDataKeysDag cyclicData [1; 1] = Ok [2; 1]) by (vm_compute; reflexivity).
  split; [exact H|]. exact (MakeDataKeysDag_sound _ _ _ H).
Defined.

Lemma MakeDataKeysDag_fixpoint_witness :
  NoDup [3; 2; 1; 4] /\ depsBefore demoData [3; 2; 1; 4]
  /\ (forall k, k ∈ [3; 2; 1; 4] -> k ∈ dom demoData)
  /\ MakeDataKeysDag demoData [3; 2; 1; 4] = Ok [3; 2; 1; 4].
Proof.
  assert (Hnd : NoDup [3; 2; 1; 4]).
  { match goal with |- ?P => apply (bool_decide_unpack P) end; vm_compute; exact I. }
  assert (Hdb : depsBefore demoData [3; 2; 1; 4]).
  { intros i k d Hk (datum & Hd & Hdd).
    destruct i as [|[|[|[|i]]]]; [| | | |discriminate]; cbn in Hk; injection Hk as <-;
      vm_compute in Hd; injection Hd as <-; cbn [DirectDependencies] in Hdd.
    - exfalso. apply elem_of_nil in Hdd. exact Hdd.
    - apply list_elem_of_singleton in Hdd as ->. exists 0. split; [lia|reflexivity].
    - apply elem_of_cons in Hdd as [->|Hdd]; [exists 1; split; [lia|reflexivity]|].
      apply list_elem_of_singleton in Hdd as ->. exists 0. split; [lia|reflexivity].
    - apply list_elem_of_singleton in Hdd as ->. exists 2. split; [lia|reflexivity]. }
  assert (Hdom : forall k, k ∈ [3; 2; 1; 4] -> k ∈ dom demoData).
  { intros k Hk. apply list_elem_of_In in Hk. simpl in Hk.
    destruct Hk as [<-|[<-|[<-|[<-|[]]]]]; apply elem_of_dom; vm_compute; eauto. }
  split; [exact Hnd|split; [exact Hdb|split; [exact Hdom|]]].
  apply MakeDataKeysDag_fixpoint; assumption.
Defined.
End DagExtra.

Module StaticExtra.
Import Levels StaticSpread StaticSpec StaticSpecX StaticFacts.
Local Open Scope Q_scope.
Local Open Scope list_scope.

Lemma levelsLoop_length (p : staticSpreadLevelProvider) (c : Q) (f : capFn) (mb : Q) :
  forall sls levels s,
    (length (levelsLoop p c f mb sls levels s).1.1 <= length levels + length sls)%nat.
Proof.
  induction sls as [|sl sls IH]; intros levels s; simpl; [lia|].
  destruct (Qlt_bool 0 (minSellPrice p) && Qlt_bool (levelPrice p c sl) (minSellPrice p)).
  - specialize (IH levels s). lia.
  - destruct (Qle_bool (f mb s (levelAmount p sl) (levelPrice p c sl)) 0); simpl; [lia|].
    specialize (IH (levels ++ [mkLevel (levelPrice p c sl)
                    (NumberFromFloat (f mb s (levelAmount p sl) (levelPrice p c sl))
                       (VolumePrecision (orderConstraints p)))])
                   (s + NumberFromFloat (f mb s (levelAmount p sl) (levelPrice p c sl))
                       (VolumePrecision (orderConstraints p)))).
    rewrite length_app in IH. simpl in IH. lia.
Qed.

(** [GetLevels] never returns more levels than there are configured
    static levels. *)
Theorem GetLevels_length_le (p : staticSpreadLevelProvider) (centerPrice : Q)
    (dateString : string) (maxAssetBase maxAssetQuote : Q) (levels : list Level) :
  GetLevels p (Ok centerPrice) dateString maxAssetBase maxAssetQuote = Ok levels ->
  (length levels <= length (staticLevels p))%nat.
Proof.
  unfold GetLevels.
  destruct (selectCapAmountFn p dateString) as [[f|]|e]; intros H; try discriminate.
  - pose proof (levelsLoop_length p (adjustCenterPrice (offset p) centerPrice) f maxAssetBase
                  (staticLevels p) [] 0) as Hl.
    destruct (levelsLoop _ _ _ _ _ _ _) as [[ls s] b]. injection H as <-. simpl in Hl. lia.
  - injection H as <-. simpl. lia.
Qed.

(** With a trades database configured and a [maxDailySell.assetType]
    other than [""], ["base"] and ["quote"], [GetLevels] always fails,
    whatever the configured levels and today's sold amounts. *)
Theorem GetLevels_invalid_assetType (p : staticSpreadLevelProvider) (db : TradesDB)
    (centerPrice : Q) (dateString : string) (maxAssetBase maxAssetQuote : Q) :
  tradesDB p = Some db ->
  assetType (maxDailySell p) <> "" ->
  assetType (maxDailySell p) <> "base" ->
  assetType (maxDailySell p) <> "quote" ->
  exists e, GetLevels p (Ok centerPrice) dateString maxAssetBase maxAssetQuote = Err e.
Proof.
  intros Hdb Hne Hnb Hnq. unfold GetLevels, selectCapAmountFn. rewrite Hdb.
  apply String.eqb_neq in Hne, Hnb, Hnq. rewrite Hne.
  destruct (maxSoldToday p db dateString) as [mSold|e]; [|eexists; reflexivity].
  cbv zeta. rewrite Hnb, Hnq. eexists. reflexivity.
Qed.

Lemma levelsLoop_maxAssetBase (p : staticSpreadLevelProvider) (c : Q) (f : capFn) (mb mb' : Q) :
  (forall s d pr, f mb s d pr = f mb' s d pr) ->
  forall sls levels s, levelsLoop p c f mb sls levels s = levelsLoop p c f mb' sls levels s.
Proof.
  intros Hf. induction sls as [|sl sls IH]; intros levels s; [reflexivity|].
  simpl. rewrite Hf. destruct (_ && _); [apply IH|].
  destruct (Qle_bool _ 0); [reflexivity|apply IH].
Qed.

Lemma selectCapAmountFn_maxAssetBase (p : staticSpreadLevelProvider) (dateString : string) (f : capFn) :
  selectCapAmountFn p dateString = Ok (Some f) ->
  forall mb mb' s d pr, f mb s d pr = f mb' s d pr.
Proof.
  unfold selectCapAmountFn.
  destruct (tradesDB p) as [db|]; [|intros H; injection H as <-; reflexivity].
  destruct (String.eqb _ ""); [intros H; injection H as <-; reflexivity|].
  destruct (maxSoldToday p db dateString) as [mSold|e]; [|discriminate]. cbv zeta.
  repeat match goal with |- context [if ?b then _ else _] => destruct b end;
    intros H; try discriminate; injection H as <-; reflexivity.
Qed.

(** The levels of [GetLevels] do not depend on the [maxAssetBase] and
    [maxAssetQuote] balances it is given: the static spread provider
    never caps its amounts by the account's balances. *)
Theorem GetLevels_ignores_balances (p : staticSpreadLevelProvider) (centerPrice : result Q)
    (dateString : string) (maxAssetBase maxAssetQuote maxAssetBase' maxAssetQuote' : Q) :
  GetLevels p centerPrice dateString maxAssetBase maxAssetQuote
  = GetLevels p centerPrice dateString maxAssetBase' maxAssetQuote'.
Proof.
  unfold GetLevels. destruct centerPrice as [c|e]; [|reflexivity].
  destruct (selectCapAmountFn p dateString) as [[f|]|e] eqn:E; [|reflexivity|reflexivity].
  rewrite (levelsLoop_maxAssetBase p _ f maxAssetBase maxAssetBase'
             (fun s d pr => selectCapAmountFn_maxAssetBase p dateString f E _ _ s d pr)).
  reflexivity.
Qed.

(** The two daily-sell caps never raise the desired amount.  The base
    cap never exceeds what remains of the daily allowance after
    [baseAmountSoFar]; at a positive price, the quote cap, valued at
    that price, never exceeds the quote allowance left after
    [baseAmountSoFar] valued at that price. *)
Theorem capSellAmount_bounds (maxAssetBase remaining baseAmountSoFar desiredAmountBase price : Q) :
  0 < price ->
  capSellAmountUsingBaseConstraint maxAssetBase remaining baseAmountSoFar desiredAmountBase price
    <= desiredAmountBase
  /\ capSellAmountUsingBaseConstraint maxAssetBase remaining baseAmountSoFar desiredAmountBase price
    <= remaining - baseAmountSoFar
  /\ capSellAmountUsingQuoteConstraint maxAssetBase remaining baseAmountSoFar desiredAmountBase price
    <= desiredAmountBase
  /\ capSellAmountUsingQuoteConstraint maxAssetBase remaining baseAmountSoFar desiredAmountBase price * price
    <= remaining - baseAmountSoFar * price.
Proof.
  intros Hp. unfold capSellAmountUsingBaseConstraint, capSellAmountUsingQuoteConstraint.
  destruct (Qle_bool desiredAmountBase (remaining - baseAmountSoFar)) eqn:Eb;
    [apply Qle_bool_iff in Eb|
     assert (Eb' : ~ desiredAmountBase <= remaining - baseAmountSoFar)
       by (intros H; apply Qle_bool_iff in H; congruence)];
  (destruct (Qle_bool (desiredAmountBase * price) (remaining - baseAmountSoFar * price)) eqn:Eq;
    [apply Qle_bool_iff in Eq|
     assert (Eq' : ~ desiredAmountBase * price <= remaining - baseAmountSoFar * price)
       by (intros H; apply Qle_bool_iff in H; congruence)]);
  (split; [lra|split; [lra|]]);
  try (split; [lra|lra]);
  (assert (Hq : (remaining - baseAmountSoFar * price) / price * price == remaining - baseAmountSoFar * price)
     by (field; lra));
  (split; [|lra]);
  apply Qnot_le_lt in Eq';
  apply (Qmult_le_r _ _ price Hp); lra.
Qed.

Lemma GetLevels_length_le_witness :
  exists levels,
    GetLevels plainProvider (Ok 3) "2024-01-01" 100 100 = Ok levels
    /\ (length levels <= length (staticLevels plainProvider))%nat.
Proof.
  destruct (GetLevels plainProvider (Ok 3) "2024-01-01" 100 100) as [levels|e] eqn:E;
    [|vm_compute in E; discriminate].
  exists levels. split; [reflexivity|].
  exact (GetLevels_length_le plainProvider 3 "2024-01-01" 100 100 levels E).
Defined.

Lemma GetLevels_invalid_assetType_witness :
  exists e, GetLevels invalidTypeProvider (Ok 3) "2024-01-01" 100 100 = Err e.
Proof.
  exact (GetLevels_invalid_assetType invalidTypeProvider (constDB (Some 1) (Some 2) None None)
           3 "2024-01-01" 100 100 eq_refl ltac:(discriminate) ltac:(discriminate) ltac:(discriminate)).
Defined.

Lemma capSellAmount_bounds_witness :
  capSellAmountUsingQuoteConstraint 0 10 2 5 2 == 3
  /\ capSellAmountUsingBaseConstraint 0 10 2 5 2 <= 5
  /\ capSellAmountUsingBaseConstraint 0 10 2 5 2 <= 10 - 2
  /\ capSellAmountUsingQuoteConstraint 0 10 2 5 2 <= 5
  /\ capSellAmountUsingQuoteConstraint 0 10 2 5 2 * 2 <= 10 - 2 * 2.
Proof.
  split; [vm_compute; reflexivity|].
  exact (capSellAmount_bounds 0 10 2 5 2 ltac:(vm_compute; reflexivity)).
Defined.
End StaticExtra.

Module TwapExtra.
Import Levels Twap TwapSpec TwapSpecX.
Local Open Scope Q_scope.

Lemma makeFirstBucketFrame_fields (p : sellTwapLevelProvider) (now : Z) (vf : volumeFilter)
    (st et tb bID rID : Z) (b : bucketInfo) :
  makeFirstBucketFrame p now vf st et tb bID rID = Ok b ->
  ID b = bID /\ startTime b = st /\ endTime b = et /\ roundID (dynamicValues b) = rID.
Proof.
  unfold makeFirstBucketFrame.
  destruct (mustGetBaseAssetCapInBaseUnits vf); [|discriminate].
  destruct (dailyValuesByDate vf (dateOf now)); [|discriminate].
  intros H. injection H as <-. auto.
Qed.

Lemma updateExistingBucket_fields (a : bucketInfo) (now : Z) (vf : volumeFilter) (rID : Z) (b : bucketInfo) :
  updateExistingBucket a now vf rID = Ok b ->
  ID b = ID a /\ startTime b = startTime a /\ endTime b = endTime a /\ roundID (dynamicValues b) = rID.
Proof.
  unfold updateExistingBucket. destruct (dailyValuesByDate vf (dateOf now)); [|discriminate].
  intros H. injection H as <-. auto.
Qed.

Lemma cutoverToNewBucketSameDay_fields (p : sellTwapLevelProvider) (a nb b : bucketInfo) :
  cutoverToNewBucketSameDay p a nb = Ok b ->
  ID b = ID nb /\ startTime b = startTime nb /\ endTime b = endTime nb
  /\ roundID (dynamicValues b) = roundID (dynamicValues nb).
Proof.
  unfold cutoverToNewBucketSameDay. destruct (negb _); [discriminate|].
  intros H. injection H as <-. auto.
Qed.

(** The bucket [makeBucketInfo] returns: its index, its round, and where
    its times come from (the active bucket's when the index is
    unchanged, the index's own window otherwise). *)
Lemma makeBucketInfo_fields (p : sellTwapLevelProvider) (now : Z) (vf : volumeFilter) (rID : Z)
    (b : bucketInfo) :
  makeBucketInfo p now vf rID = Ok b ->
  ID b = bucketIndex p now /\ roundID (dynamicValues b) = rID
  /\ ((exists a, activeBucket p = Some a /\ ID a = ID b
         /\ startTime b = startTime a /\ endTime b = endTime a)
      \/ ((forall a, activeBucket p = Some a -> ID a <> ID b)
          /\ startTime b = (floorDate now + bucketIndex p now * parentBucketSizeSeconds p * nanosInSecond)%Z
          /\ endTime b = (startTime b + parentBucketSizeSeconds p * nanosInSecond - 1)%Z)).
Proof.
  unfold makeBucketInfo. cbv zeta. fold (bucketIndex p now).
  destruct (activeBucket p) as [a|] eqn:Ea.
  - destruct (Z.eqb (bucketIndex p now) (ID a)) eqn:Eid.
    + apply Z.eqb_eq in Eid.
      destruct (updateExistingBucket a now vf rID) as [b'|e] eqn:Eu; [|discriminate].
      intros H. injection H as <-.
      destruct (updateExistingBucket_fields _ _ _ _ _ Eu) as (H1 & H2 & H3 & H4).
      split; [congruence|split; [exact H4|left; exists a; auto]].
    + apply Z.eqb_neq in Eid.
      match goal with |- context [makeFirstBucketFrame p now vf ?st ?et ?tb _ rID] =>
        destruct (makeFirstBucketFrame p now vf st et tb (bucketIndex p now) rID) as [nb|e] eqn:Ef;
          [|discriminate] end.
      destruct (makeFirstBucketFrame_fields _ _ _ _ _ _ _ _ _ Ef) as (H1 & H2 & H3 & H4).
      assert (Hnew : forall a', Some a = Some a' -> ID a' <> bucketIndex p now)
        by (intros a' Ha'; injection Ha' as <-; auto).
      destruct (Z.eqb (ID nb) 0).
      * intros H. injection H as <-. rewrite H1. split; [reflexivity|split; [exact H4|right]].
        split; [exact Hnew|]. rewrite H2, H3. split; reflexivity.
      * intros H. destruct (cutoverToNewBucketSameDay_fields _ _ _ _ H) as (G1 & G2 & G3 & G4).
        rewrite G1, H1. split; [reflexivity|split; [congruence|right]].
        split; [exact Hnew|]. rewrite G2, G3, H2, H3. split; reflexivity.
  - match goal with |- context [makeFirstBucketFrame p now vf ?st ?et ?tb _ rID] =>
      destruct (makeFirstBucketFrame p now vf st et tb (bucketIndex p now) rID) as [nb|e] eqn:Ef;
        [|discriminate] end.
    intros H. injection H as <-.
    destruct (makeFirstBucketFrame_fields _ _ _ _ _ _ _ _ _ Ef) as (H1 & H2 & H3 & H4).
    rewrite H1. split; [reflexivity|split; [exact H4|right]].
    split; [intros a' Ha'; discriminate|]. rewrite H2, H3. split; reflexivity.
Qed.

(** The window of bucket [bucketIndex p now] contains [now]. *)
Lemma bucketWindow_contains (p : sellTwapLevelProvider) (now : Z) :
  (0 < parentBucketSizeSeconds p)%Z ->
  (floorDate now + bucketIndex p now * parentBucketSizeSeconds p * nanosInSecond <= now
   <= floorDate now + bucketIndex p now * parentBucketSizeSeconds p * nanosInSecond
      + parentBucketSizeSeconds p * nanosInSecond - 1)%Z.
Proof.
  intros Hs. unfold bucketIndex, floorDate, Unix.
  set (s := parentBucketSizeSeconds p) in *. clearbody s.
  assert (HD : (secondsInDay * nanosInSecond = 86400 * nanosInSecond)%Z) by reflexivity.
  assert (HN : (0 < nanosInSecond)%Z) by reflexivity.
  rewrite HD.
  set (N := nanosInSecond) in *. clearbody N.
  pose proof (Z.div_mod now (86400 * N) ltac:(lia)) as Hq.
  pose proof (Z.mod_pos_bound now (86400 * N) ltac:(lia)) as Hr.
  set (q := (now / (86400 * N))%Z) in *. set (r := (now mod (86400 * N))%Z) in *.
  assert (Hf : (now - r = (86400 * q) * N)%Z) by lia.
  rewrite Hf, Z.div_mul by lia.
  pose proof (Z.div_mod now N ltac:(lia)) as Hu.
  pose proof (Z.mod_pos_bound now N ltac:(lia)) as Hv.
  set (u := (now / N)%Z) in *. set (v := (now mod N)%Z) in *.
  assert (Hsec : ((u - 86400 * q) * N + v = r)%Z) by lia.
  assert (Hpos : (0 <= u - 86400 * q)%Z).
  { destruct (Z_lt_le_dec (u - 86400 * q) 0) as [Hneg|]; [|lia].
    assert (((u - 86400 * q) * N <= -1 * N)%Z) by (apply Z.mul_le_mono_pos_r; lia). lia. }
  rewrite Z.quot_div_nonneg by lia.
  pose proof (Z.div_mod (u - 86400 * q) s ltac:(lia)) as Hb.
  pose proof (Z.mod_pos_bound (u - 86400 * q) s Hs) as Hw.
  set (b := ((u - 86400 * q) / s)%Z) in *. set (w := ((u - 86400 * q) mod s)%Z) in *.
  split; nia.
Qed.

(** A successful [makeBucketInfo] returns the bucket of index
    [secondsElapsedToday / parentBucketSizeSeconds] with the given round
    ID.  When the index is that of the active bucket, the active bucket
    is kept with its start and end times, even if it was made on an
    earlier day; otherwise a new bucket is made whose time window
    contains [now]. *)
Theorem makeBucketInfo_window (p : sellTwapLevelProvider) (now : Z) (volFilter : volumeFilter)
    (rID : Z) (b : bucketInfo) :
  (0 < parentBucketSizeSeconds p)%Z ->
  makeBucketInfo p now volFilter rID = Ok b ->
  ID b = bucketIndex p now /\ roundID (dynamicValues b) = rID
  /\ ((exists a, activeBucket p = Some a /\ ID a = ID b
         /\ startTime b = startTime a /\ endTime b = endTime a)
      \/ ((forall a, activeBucket p = Some a -> ID a <> ID b)
          /\ (startTime b <= now <= endTime b)%Z)).
Proof.
  intros Hs Hm. destruct (makeBucketInfo_fields p now volFilter rID b Hm)
    as (H1 & H2 & [Hold|(Hnew & H3 & H4)]); split; auto; split; auto.
  right. split; [exact Hnew|]. rewrite H4, H3.
  pose proof (bucketWindow_contains p now Hs). lia.
Qed.

(** A failed [GetLevels] leaves the active bucket and the previous round
    ID of the provider as they were. *)
Theorem GetLevels_error_keeps_bucket (env : TwapEnv) (p p' : sellTwapLevelProvider) (now : Z)
    (maxAssetBase maxAssetQuote : Q) (e : string) :
  GetLevels env p now maxAssetBase maxAssetQuote = (Err e, p') ->
  activeBucket p' = activeBucket p /\ previousRoundID p' = previousRoundID p.
Proof.
  unfold GetLevels.
  destruct (dowFilter p !! Weekday now) as [vf|]; [|intros H; injection H as _ <-; auto].
  destruct (makeBucketInfo p now vf (makeRoundID p)) as [bucket|e']; [|intros H; injection H as _ <-; auto].
  destruct (makeRoundInfo env p (makeRoundID p) now bucket) as [[round|e'] r'].
  - discriminate.
  - intros H. injection H as _ <-. auto.
Qed.

(** A successful [GetLevels] saves, as the provider's active bucket, the
    bucket of index [secondsElapsedToday / parentBucketSizeSeconds] for
    the new round, and records that round's ID, [0] on the first round
    and the previous round's ID plus one (as a [uint64]) afterwards. *)
Theorem GetLevels_saves_round (env : TwapEnv) (p p' : sellTwapLevelProvider) (now : Z)
    (maxAssetBase maxAssetQuote : Q) (levels : list Level) :
  GetLevels env p now maxAssetBase maxAssetQuote = (Ok levels, p') ->
  previousRoundID p' = Some (match previousRoundID p with
                             | None => 0%Z
                             | Some r => ((r + 1) mod 2 ^ 64)%Z
                             end)
  /\ exists b, activeBucket p' = Some b /\ ID b = bucketIndex p now
       /\ roundID (dynamicValues b) = makeRoundID p.
Proof.
  unfold GetLevels.
  destruct (dowFilter p !! Weekday now) as [vf|]; [|discriminate].
  destruct (makeBucketInfo p now vf (makeRoundID p)) as [bucket|e] eqn:Eb; [|discriminate].
  unfold makeRoundInfo.
  destruct (roundSize env p bucket) as [size r'].
  destruct (GetPrice env) as [price|e]; [|discriminate].
  destruct (rateOffset_apply (offset p) price) as [adj flag].
  intros H. injection H as _ <-.
  destruct (makeBucketInfo_fields _ _ _ _ _ Eb) as (H1 & H2 & _).
  split; [reflexivity|]. exists bucket. auto.
Qed.

(** With a bucket active, when [now] falls neither in that bucket nor in
    the next one nor in the first bucket of a day, [GetLevels] fails
    (once the day's volume values are read) and leaves the provider as
    it was: the parent buckets must be visited one after the other
    within a day. *)
Theorem GetLevels_bucket_gap_fails (env : TwapEnv) (p : sellTwapLevelProvider) (now : Z)
    (maxAssetBase maxAssetQuote : Q) (a : bucketInfo) (volFilter : volumeFilter) (cap sold : Q) :
  activeBucket p = Some a ->
  dowFilter p !! Weekday now = Some volFilter ->
  mustGetBaseAssetCapInBaseUnits volFilter = Ok cap ->
  dailyValuesByDate volFilter (dateOf now) = Ok sold ->
  bucketIndex p now <> ID a ->
  bucketIndex p now <> (ID a + 1)%Z ->
  bucketIndex p now <> 0%Z ->
  exists e, GetLevels env p now maxAssetBase maxAssetQuote = (Err e, p).
Proof.
  intros Ha Hvf Hcap Hsold Hne Hne1 Hne0.
  unfold GetLevels. rewrite Hvf. unfold makeBucketInfo. cbv zeta. fold (bucketIndex p now).
  rewrite Ha. apply Z.eqb_neq in Hne. rewrite Hne.
  unfold makeFirstBucketFrame at 1. rewrite Hcap, Hsold. cbv zeta. cbn [ID].
  apply Z.eqb_neq in Hne0. rewrite Hne0.
  unfold cutoverToNewBucketSameDay. cbn [ID]. apply Z.eqb_neq in Hne1. rewrite Hne1.
  eexists. reflexivity.
Qed.

Lemma makeBucketInfo_window_witness :
  exists b,
    makeBucketInfo demoTwap 1700000000000000000%Z demoVolumeFilter 0 = Ok b
    /\ ID b = bucketIndex demoTwap 1700000000000000000%Z /\ roundID (dynamicValues b) = 0%Z
    /\ ((exists a, activeBucket demoTwap = Some a /\ ID a = ID b
           /\ startTime b = startTime a /\ endTime b = endTime a)
        \/ ((forall a, activeBucket demoTwap = Some a -> ID a <> ID b)
            /\ (startTime b <= 1700000000000000000 <= endTime b)%Z)).
Proof.
  destruct (makeBucketInfo demoTwap 1700000000000000000%Z demoVolumeFilter 0) as [b|e] eqn:E;
    [|vm_compute in E; discriminate].
  exists b. split; [reflexivity|].
  exact (makeBucketInfo_window demoTwap 1700000000000000000%Z demoVolumeFilter 0 b
           ltac:(vm_compute; reflexivity) E).
Defined.

Lemma GetLevels_error_keeps_bucket_witness :
  exists e p',
    GetLevels (halfFloatEnv 2) staleTwap 1700000000000000000%Z 0 0 = (Err e, p')
    /\ activeBucket p' = activeBucket staleTwap /\ previousRoundID p' = previousRoundID staleTwap.
Proof.
  destruct (GetLevels (halfFloatEnv 2) staleTwap 1700000000000000000%Z 0 0) as [[ls|e] p'] eqn:E;
    [vm_compute in E; discriminate|].
  exists e, p'. split; [reflexivity|].
  exact (GetLevels_error_keeps_bucket _ _ _ _ _ _ e E).
Defined.

Lemma GetLevels_saves_round_witness :
  exists levels p',
    GetLevels (halfFloatEnv 2) demoTwap 1700000000000000000%Z 0 0 = (Ok levels, p')
    /\ previousRoundID p' = Some 0%Z
    /\ exists b, activeBucket p' = Some b /\ ID b = bucketIndex demoTwap 1700000000000000000%Z
         /\ roundID (dynamicValues b) = makeRoundID demoTwap.
Proof.
  destruct (GetLevels (halfFloatEnv 2) demoTwap 1700000000000000000%Z 0 0) as [[levels|e] p'] eqn:E;
    [|vm_compute in E; discriminate].
  exists levels, p'. split; [reflexivity|].
  exact (GetLevels_saves_round _ _ _ _ _ _ _ E).
Defined.

Lemma GetLevels_bucket_gap_fails_witness :
  bucketIndex staleTwap 1700000000000000000%Z = 22%Z
  /\ exists e, GetLevels (halfFloatEnv 2) staleTwap 1700000000000000000%Z 0 0 = (Err e, staleTwap).
Proof.
  split; [vm_compute; reflexivity|].
  exact (GetLevels_bucket_gap_fails (halfFloatEnv 2) staleTwap 1700000000000000000%Z 0 0 staleBucket
           demoVolumeFilter 1000 100 eq_refl ltac:(vm_compute; reflexivity) eq_refl eq_refl
           ltac:(vm_compute; discriminate) ltac:(vm_compute; discriminate) ltac:(vm_compute; discriminate)).
Defined.
End TwapExtra.
